(** * CME detection pipeline: a shallow embedding

    The development follows [src/processing/feature_engineering.py]
    (class [FeatureEngineer]) and [src/detection/cme_detector.py]
    (class [CMEDetector]).

    Conventions.
    - A finite float is an exact rational ([Q]); NaN is [None] in
      [float := option Q].  Infinities are not represented: a division by
      zero yields NaN.
    - A pandas DataFrame is an ordered association list from column names
      to columns of cells; row [i] is the [i]-th cell of every column.
    - Python exceptions are values of [exception]; a call either returns
      or raises ([result]).  State written before an exception is raised
      stays written.
    - Row positions are [nat]; differences of positions are taken in [Z]. *)

From Stdlib Require Import String Ascii.
From Stdlib Require Import ZArith QArith Qminmax Qround Bool Lia Lqa PeanoNat List.
From Stdlib Require Import Decimal DecimalString.
Import ListNotations.

Close Scope Q_scope.
Local Open Scope string_scope.
Local Open Scope list_scope.
Local Open Scope nat_scope.

(** ** Python exceptions and results *)

Inductive exception : Type :=
| ValueError (msg : string)
| KeyError (key : string)
| IndexError
| TypeError
| AttributeError
| NotFittedError.

Inductive result (A : Type) : Type :=
| Ok (a : A)
| Raise (e : exception).

Arguments Ok {A} a.
Arguments Raise {A} e.

Definition bind {A B : Type} (r : result A) (k : A -> result B) : result B :=
  match r with
  | Ok a => k a
  | Raise e => Raise e
  end.

Notation "x <- r ;; k" := (bind r (fun x => k))
  (at level 61, r at next level, right associativity).

Fixpoint mapM {A B : Type} (f : A -> result B) (l : list A) : result (list B) :=
  match l with
  | [] => Ok []
  | a :: l' => b <- f a ;; bs <- mapM f l' ;; Ok (b :: bs)
  end.

Definition is_ok {A : Type} (r : result A) : bool :=
  match r with Ok _ => true | Raise _ => false end.

(** A [for] loop that threads a value and stops at the first exception. *)
Fixpoint foldM {A B : Type} (f : B -> A -> result B) (l : list A) (b : B)
  : result B :=
  match l with
  | [] => Ok b
  | a :: l' => b' <- f b a ;; foldM f l' b'
  end.

(** ** Floats *)

Definition float : Type := option Q.
Definition NaN : float := None.

Definition Qlt_bool (x y : Q) : bool := negb (Qle_bool y x).

Definition lift2 (op : Q -> Q -> Q) (a b : float) : float :=
  match a, b with
  | Some x, Some y => Some (op x y)
  | _, _ => None
  end.

Definition fadd : float -> float -> float := lift2 Qplus.
Definition fsub : float -> float -> float := lift2 Qminus.
Definition fmul : float -> float -> float := lift2 Qmult.

(** [a / b].  A division by zero gives NaN here, where numpy gives an
    infinity that no later fill replaces: what is stated below of a
    quotient column is which of its cells are missing and that the
    column exists, not that its entries are finite. *)
Definition fdiv (a b : float) : float :=
  match a, b with
  | Some x, Some y => if Qeq_bool y 0 then None else Some (x / y)%Q
  | _, _ => None
  end.

(** [a > b] on floats; any comparison with NaN is false. *)
Definition fgt (a b : float) : bool :=
  match a, b with
  | Some x, Some y => Qlt_bool y x
  | _, _ => false
  end.

Definition Qsum (l : list Q) : Q := fold_left Qplus l 0%Q.

Definition Qmean (l : list Q) : Q := (Qsum l / inject_Z (Z.of_nat (length l)))%Q.

(** The values of a series that are not NaN, in order. *)
Fixpoint dropna (l : list float) : list Q :=
  match l with
  | [] => []
  | Some x :: l' => x :: dropna l'
  | None :: l' => dropna l'
  end.

(** [Series.mean()]: NaN entries are skipped; NaN when nothing is left. *)
Definition series_mean (l : list float) : float :=
  match dropna l with
  | [] => None
  | v => Some (Qmean v)
  end.

(** [Series.fillna(value)]. *)
Definition series_fillna (v : float) (l : list float) : list float :=
  map (fun x => match x with Some _ => x | None => v end) l.

Fixpoint Qinsert (x : Q) (l : list Q) : list Q :=
  match l with
  | [] => [x]
  | y :: l' => if Qle_bool x y then x :: l else y :: Qinsert x l'
  end.

Definition Qsort (l : list Q) : list Q := fold_right Qinsert [] l.

(** ** Cells and data frames *)

Inductive cell : Type :=
| CNum (q : Q)        (* a finite number *)
| CNaN                (* a missing number *)
| CStr (s : string)   (* a Python string *)
| CTime (ns : Z)      (* a Timestamp, nanoseconds since the epoch *)
| CNaT.               (* a missing Timestamp *)

Definition column : Type := list cell.
Definition DataFrame : Type := list (string * column).

Definition columns (df : DataFrame) : list string := map fst df.

Fixpoint get_col (name : string) (df : DataFrame) : option column :=
  match df with
  | [] => None
  | (n, c) :: df' => if String.eqb n name then Some c else get_col name df'
  end.

Definition has_col (name : string) (df : DataFrame) : bool :=
  match get_col name df with Some _ => true | None => false end.

(** [df[name]] *)
Definition getitem (name : string) (df : DataFrame) : result column :=
  match get_col name df with
  | Some c => Ok c
  | None => Raise (KeyError name)
  end.

(** [df[name] = c]: an existing column is replaced where it stands, a
    new one is appended. *)
Fixpoint set_col (name : string) (c : column) (df : DataFrame) : DataFrame :=
  match df with
  | [] => [(name, c)]
  | (n, c0) :: df' =>
      if String.eqb n name then (n, c) :: df' else (n, c0) :: set_col name c df'
  end.

(** [len(df)] *)
Definition nrows (df : DataFrame) : nat :=
  match df with
  | [] => 0
  | (_, c) :: _ => length c
  end.

Definition cell_of_float (x : float) : cell :=
  match x with Some q => CNum q | None => CNaN end.

(** Reading a cell as a float; strings and timestamps do not take part
    in arithmetic. *)
Definition float_of_cell (c : cell) : result float :=
  match c with
  | CNum q => Ok (Some q)
  | CNaN => Ok None
  | _ => Raise TypeError
  end.

Definition numeric (name : string) (df : DataFrame) : result (list float) :=
  c <- getitem name df ;; mapM float_of_cell c.

Definition set_floats (name : string) (l : list float) (df : DataFrame) : DataFrame :=
  set_col name (map cell_of_float l) df.

(** [df[name] = q] for a scalar [q]: broadcast over the rows. *)
Definition set_scalar (name : string) (q : Q) (df : DataFrame) : DataFrame :=
  set_col name (repeat (CNum q) (nrows df)) df.

(** The rows of [df] taken in the order [perm] (positional reindexing
    with a fresh range index). *)
Definition take_rows (perm : list nat) (df : DataFrame) : DataFrame :=
  map (fun nc => (fst nc, map (fun i => nth i (snd nc) CNaN) perm)) df.

Definition str_of_nat (n : nat) : string := NilEmpty.string_of_uint (Nat.to_uint n).

(** ** Library functions that are taken as given

    Numerical routines of numpy, scipy and pandas whose results are not
    rational functions of their arguments, or whose algorithm is not
    part of this repository. *)

Record NumLib : Type :=
  { (* np.sqrt on a non-negative argument *)
    fsqrt : Q -> Q;
    (* np.sin and np.pi *)
    fsin : Q -> Q;
    fpi : Q;
    (* scipy.signal.welch(x, nperseg=n): (freqs, psd) *)
    welch : list float -> nat -> list Q * list Q;
    (* np.linalg.pinv; None when it raises LinAlgError *)
    pinv : list (list Q) -> option (list (list Q));
    (* pd.to_datetime on one string; None when it cannot be parsed *)
    parse_datetime : string -> option Z;
    (* pd.to_datetime on one number (epoch offset) *)
    epoch_to_ns : Q -> Z;
    (* the permutation sort_values applies to a datetime column, with
       missing timestamps last *)
    argsort : list (option Z) -> list nat;
    (* Timestamp.dayofyear and Timestamp.strftime("%Y%m%d_%H%M%S") *)
    dayofyear : Z -> Z;
    strftime : Z -> string }.

(** np.sqrt: NaN below zero. *)
Definition np_sqrt (L : NumLib) (x : Q) : float :=
  if Qlt_bool x 0 then None else Some (fsqrt L x).

(** ** Rolling windows ([Series.rolling(window=w, min_periods=1)]) *)

(** The window that ends at row [i]: rows [max(0, i-w+1) .. i]. *)
Definition window_at (w i : nat) (xs : list float) : list float :=
  skipn (i + 1 - w) (firstn (i + 1) xs).

Definition rolling (w : nat) (agg : list Q -> float) (xs : list float)
  : result (list float) :=
  if w =? 0 then Raise (ValueError "min_periods 1 must be <= window 0")
  else Ok (map (fun i => agg (dropna (window_at w i xs))) (seq 0 (length xs))).

Definition agg_mean (v : list Q) : float :=
  match v with
  | [] => None
  | _ => Some (Qmean v)
  end.

(** Sample variance (ddof = 1) of at least two values. *)
Definition sample_var (v : list Q) : Q :=
  let m := Qmean v in
  (Qsum (map (fun x => (x - m) * (x - m)) v)
   / inject_Z (Z.of_nat (length v) - 1))%Q.

Definition agg_std (L : NumLib) (v : list Q) : float :=
  if length v <? 2 then None else np_sqrt L (sample_var v).

(** Quantile with linear interpolation between order statistics. *)
Definition agg_quantile (p : Q) (v : list Q) : float :=
  match v with
  | [] => None
  | _ =>
      let s := Qsort v in
      let pos := (p * inject_Z (Z.of_nat (length v) - 1))%Q in
      let lo := Z.to_nat (Qfloor pos) in
      let frac := (pos - inject_Z (Qfloor pos))%Q in
      let a := nth lo s 0%Q in
      let b := nth (lo + 1) s a in
      Some (a + (b - a) * frac)%Q
  end.

(** [Series.diff(periods=w)] *)
Definition series_diff (w : nat) (xs : list float) : list float :=
  map (fun i => if i <? w then None
                else fsub (nth i xs None) (nth (i - w) xs None))
      (seq 0 (length xs)).

(** np.argmax: the position of the first occurrence of the maximum. *)
Fixpoint argmax_from (best_i : nat) (best : Q) (i : nat) (l : list Q) : nat :=
  match l with
  | [] => best_i
  | x :: l' =>
      if Qlt_bool best x then argmax_from i x (S i) l'
      else argmax_from best_i best (S i) l'
  end.

Definition argmax (l : list Q) : result nat :=
  match l with
  | [] => Raise (ValueError "attempt to get argmax of an empty sequence")
  | x :: l' => Ok (argmax_from 0 x 1 l')
  end.

(** ** Feature engineering ([FeatureEngineer]) *)

Record FeatureEngineer : Type :=
  { moving_avg_windows : list nat;
    gradient_windows : list nat;
    statistical_windows : list nat }.

(** The windows [__init__] falls back to. *)
Definition default_engineer : FeatureEngineer :=
  {| moving_avg_windows := [5; 10; 30; 60];
     gradient_windows := [1; 5; 15];
     statistical_windows := [60; 180; 360] |}.

Definition eps : Q := (1 # 1000000)%Q.

Section Features.

Variable L : NumLib.
Variable fe : FeatureEngineer.

(** *** create_time_features *)

Definition ns_per_hour : Z := 3600000000000%Z.
Definition ns_per_second : Z := 1000000000%Z.

(** The [.dt] accessor exists on datetime columns only. *)
Definition dt_of_cell (c : cell) : result (option Z) :=
  match c with
  | CTime ns => Ok (Some ns)
  | CNaT => Ok None
  | _ => Raise AttributeError
  end.

Definition dt_hour (t : option Z) : float :=
  match t with
  | Some ns => Some (inject_Z ((ns / ns_per_hour) mod 24))
  | None => None
  end.

Definition dt_dayofyear (t : option Z) : float :=
  match t with
  | Some ns => Some (inject_Z (dayofyear L ns))
  | None => None
  end.

Definition solar_cycle_phase (doy : float) : float :=
  match doy with
  | Some d => Some (fsin L (2 * fpi L * d / (36525 # 100)))%Q
  | None => None
  end.

(** [diff().dt.total_seconds().fillna(0)] *)
Fixpoint time_delta_from (prev : option Z) (ts : list (option Z)) : list float :=
  match ts with
  | [] => []
  | t :: ts' =>
      (match prev, t with
       | Some a, Some b => Some (inject_Z (b - a) / inject_Z ns_per_second)%Q
       | _, _ => Some 0%Q
       end) :: time_delta_from t ts'
  end.

Definition create_time_features (df : DataFrame) : result DataFrame :=
  c <- getitem "timestamp" df ;;
  ts <- mapM dt_of_cell c ;;
  let df := set_floats "hour" (map dt_hour ts) df in
  let doy := map dt_dayofyear ts in
  let df := set_floats "day_of_year" doy df in
  let df := set_floats "solar_cycle_phase" (map solar_cycle_phase doy) df in
  Ok (set_floats "time_delta" (time_delta_from None ts) df).

(** *** create_moving_averages *)

(** Source column and the stem of the derived column's name. *)
Definition signal_columns : list (string * string) :=
  [ ("proton_flux", "proton_flux");
    ("electron_flux", "electron_flux");
    ("alpha_flux", "alpha_flux");
    ("velocity", "velocity");
    ("temperature", "temperature");
    ("magnetic_field_magnitude", "magnetic_field") ].

Definition moving_average_step (window : nat) (df : DataFrame)
           (sc : string * string) : result DataFrame :=
  xs <- numeric (fst sc) df ;;
  r <- rolling window agg_mean xs ;;
  Ok (set_floats (snd sc ++ "_ma_" ++ str_of_nat window) r df).

Definition create_moving_averages (df : DataFrame) : result DataFrame :=
  foldM (fun df window => foldM (moving_average_step window) signal_columns df)
        (moving_avg_windows fe) df.

(** *** create_gradients *)

Definition gradient_step (window : nat) (df : DataFrame)
           (sc : string * string) : result DataFrame :=
  xs <- numeric (fst sc) df ;;
  Ok (set_floats (snd sc ++ "_grad_" ++ str_of_nat window)
                 (series_diff window xs) df).

Definition create_gradients (df : DataFrame) : result DataFrame :=
  foldM (fun df window => foldM (gradient_step window) signal_columns df)
        (gradient_windows fe) df.

(** *** create_statistical_features *)

(** Python's [min] on a list of window lengths. *)
Definition py_min_list (l : list nat) : result nat :=
  match l with
  | [] => Raise (ValueError "min() arg is an empty sequence")
  | x :: l' => Ok (fold_left Nat.min l' x)
  end.

Definition rolling_to (src dst : string) (window : nat) (agg : list Q -> float)
           (df : DataFrame) : result DataFrame :=
  xs <- numeric src df ;;
  r <- rolling window agg xs ;;
  Ok (set_floats dst r df).

Definition statistical_step (df : DataFrame) (window : nat) : result DataFrame :=
  let w := str_of_nat window in
  df <- rolling_to "proton_flux" ("proton_flux_std_" ++ w) window (agg_std L) df ;;
  df <- rolling_to "velocity" ("velocity_std_" ++ w) window (agg_std L) df ;;
  m <- py_min_list (moving_avg_windows fe) ;;
  p <- numeric ("proton_flux_ma_" ++ str_of_nat m) df ;;
  m' <- py_min_list (moving_avg_windows fe) ;;
  e <- numeric ("electron_flux_ma_" ++ str_of_nat m') df ;;
  let ratio := map (fun pe => fdiv (fst pe) (fadd (snd pe) (Some eps))) (combine p e) in
  let df := set_floats ("proton_electron_ratio_" ++ w) ratio df in
  df <- rolling_to "proton_flux" ("proton_flux_p95_" ++ w) window
                   (agg_quantile (95 # 100)) df ;;
  rolling_to "velocity" ("velocity_p95_" ++ w) window (agg_quantile (95 # 100)) df.

Definition create_statistical_features (df : DataFrame) : result DataFrame :=
  foldM statistical_step (statistical_windows fe) df.

(** *** create_spectral_features *)

Definition spectral_step (df : DataFrame) (column : string) : result DataFrame :=
  if 64 <=? nrows df then
    xs <- numeric column df ;;
    let '(freqs, psd) :=
      welch L (series_fillna (series_mean xs) xs) (Nat.min 64 (nrows df / 4)) in
    k <- argmax (tl psd) ;;
    let dominant_freq_idx := k + 1 in
    f <- match nth_error freqs dominant_freq_idx with
         | Some f => Ok f | None => Raise IndexError end ;;
    let df := set_scalar (column ++ "_dominant_freq") f df in
    pw <- match nth_error psd dominant_freq_idx with
          | Some pw => Ok pw | None => Raise IndexError end ;;
    let df := set_scalar (column ++ "_dominant_power") pw df in
    Ok (set_scalar (column ++ "_total_power") (Qsum psd) df)
  else
    let df := set_scalar (column ++ "_dominant_freq") 0 df in
    let df := set_scalar (column ++ "_dominant_power") 0 df in
    Ok (set_scalar (column ++ "_total_power") 0 df).

Definition create_spectral_features (df : DataFrame) : result DataFrame :=
  foldM spectral_step ["proton_flux"; "velocity"; "magnetic_field_magnitude"] df.

(** *** create_anomaly_features *)

Definition zscore_step (df : DataFrame) (column : string) : result DataFrame :=
  xs <- numeric column df ;;
  rolling_mean <- rolling 60 agg_mean xs ;;
  rolling_std <- rolling 60 (agg_std L) xs ;;
  let z := map (fun t => fdiv (fsub (fst (fst t)) (snd (fst t)))
                              (fadd (snd t) (Some eps)))
               (combine (combine xs rolling_mean) rolling_std) in
  Ok (set_floats (column ++ "_zscore") z df).

Definition flux_columns : list string :=
  ["proton_flux"; "electron_flux"; "alpha_flux"].

(** A series without NaN, or nothing. *)
Fixpoint all_finite (l : list float) : option (list Q) :=
  match l with
  | [] => Some []
  | Some x :: l' =>
      match all_finite l' with Some r => Some (x :: r) | None => None end
  | None :: _ => None
  end.

Fixpoint all_finite_columns (cols : list (list float)) : option (list (list Q)) :=
  match cols with
  | [] => Some []
  | c :: cols' =>
      match all_finite c, all_finite_columns cols' with
      | Some c', Some r => Some (c' :: r)
      | _, _ => None
      end
  end.

Definition dot (u v : list Q) : Q :=
  Qsum (map (fun p => fst p * snd p)%Q (combine u v)).

Definition vsub (u v : list Q) : list Q :=
  map (fun p => fst p - snd p)%Q (combine u v).

(** [v @ M] for a vector [v] and a matrix [M] given by its rows. *)
Definition vecmat (v : list Q) (M : list (list Q)) : list Q :=
  map (fun k => dot v (map (fun row => nth k row 0%Q) M))
      (seq 0 (length (hd [] M))).

(** [np.cov] of variables given as columns of observations (ddof = 1). *)
Definition np_cov (X : list (list Q)) : list (list Q) :=
  let centred := map (fun c => map (fun x => x - Qmean c)%Q c) X in
  let n := length (hd [] X) in
  map (fun a => map (fun b => dot a b / inject_Z (Z.of_nat n - 1))%Q centred)
      centred.

(** Row [i] of a table given by its columns. *)
Definition row_of (X : list (list Q)) (i : nat) : list Q :=
  map (fun c => nth i c 0%Q) X.

(** [flux_data = df[flux_columns].fillna(df[flux_columns].mean())], when
    every entry is a number after the fill.  A NaN left over (a flux
    column with no value at all) makes the covariance NaN, on which the
    pseudo-inverse raises; a missing or non-numeric column raises as
    well.  [None] stands for these exceptions. *)
Definition flux_data (df : DataFrame) : option (list (list Q)) :=
  match mapM (fun c => numeric c df) flux_columns with
  | Raise _ => None
  | Ok cols =>
      all_finite_columns (map (fun xs => series_fillna (series_mean xs) xs) cols)
  end.

(** The body of the [try] block: [None] stands for any exception raised
    inside it. *)
Definition mahal_distances (df : DataFrame) : option (list float) :=
  match flux_data df with
  | None => None
  | Some X =>
      let cov_matrix := np_cov X in
      match pinv L cov_matrix with
      | None => None
      | Some inv_cov_matrix =>
          let mean_vector := map Qmean X in
          Some (map (fun i =>
                       let diff := vsub (row_of X i) mean_vector in
                       np_sqrt L (dot (vecmat diff inv_cov_matrix) diff))
                    (seq 0 (nrows df)))
      end
  end.

Definition mahalanobis_feature (df : DataFrame) : DataFrame :=
  if length flux_columns <? nrows df then
    match mahal_distances df with
    | Some d => set_floats "flux_mahalanobis_distance" d df
    | None => set_scalar "flux_mahalanobis_distance" 0 df
    end
  else set_scalar "flux_mahalanobis_distance" 0 df.

Definition create_anomaly_features (df : DataFrame) : result DataFrame :=
  df <- foldM zscore_step
              ["proton_flux"; "electron_flux"; "alpha_flux"; "velocity"; "temperature"]
              df ;;
  Ok (mahalanobis_feature df).

(** *** engineer_features *)

Definition is_na (c : cell) : bool :=
  match c with
  | CNaN | CNaT => true
  | _ => false
  end.

Fixpoint bfill (l : column) : column :=
  match l with
  | [] => []
  | c :: l' =>
      let r := bfill l' in
      (if is_na c then match r with x :: _ => x | [] => c end else c) :: r
  end.

Definition ffill (l : column) : column := List.rev (bfill (List.rev l)).

Definition fillna0 (l : column) : column :=
  map (fun c => if is_na c then CNum 0 else c) l.

Definition fill_missing (df : DataFrame) : DataFrame :=
  map (fun nc => (fst nc, fillna0 (ffill (bfill (snd nc))))) df.

(** [pd.to_datetime], cell by cell. *)
Definition to_datetime_cell (c : cell) : result cell :=
  match c with
  | CTime ns => Ok (CTime ns)
  | CNaT => Ok CNaT
  | CNaN => Ok CNaT
  | CNum q => Ok (CTime (epoch_to_ns L q))
  | CStr s =>
      match parse_datetime L s with
      | Some ns => Ok (CTime ns)
      | None => Raise (ValueError "Unknown datetime string format")
      end
  end.

Definition time_key (c : cell) : option Z :=
  match c with
  | CTime ns => Some ns
  | _ => None
  end.

(** The six derivation steps and the final fill, on a frame that is
    already the function's own. *)
Definition derive_features (df : DataFrame) : result DataFrame :=
  df <- create_time_features df ;;
  df <- create_moving_averages df ;;
  df <- create_gradients df ;;
  df <- create_statistical_features df ;;
  df <- create_spectral_features df ;;
  df <- create_anomaly_features df ;;
  Ok (fill_missing df).

(** [engineer_features] receives a reference to the caller's frame.
    The first component of the result is that frame as the caller finds
    it afterwards; the second is what the call returns or raises.

    [df['timestamp'] = pd.to_datetime(df['timestamp'])] assigns into the
    frame passed in; [sort_values(...).reset_index(drop=True)] then
    rebinds the local name to a new frame, and every later step works on
    copies. *)
Definition engineer_features (df : DataFrame) : DataFrame * result DataFrame :=
  if has_col "timestamp" df then
    match c <- getitem "timestamp" df ;; mapM to_datetime_cell c with
    | Raise e => (df, Raise e)
    | Ok ts =>
        let caller := set_col "timestamp" ts df in
        let sorted := take_rows (argsort L (map time_key ts)) caller in
        (caller, derive_features sorted)
    end
  else (df, derive_features df).

End Features.

(** [get_feature_importance_columns] *)
Definition get_feature_importance_columns : list string :=
  [ "proton_flux"; "electron_flux"; "alpha_flux";
    "velocity"; "temperature"; "magnetic_field_magnitude";
    "proton_flux_ma_5"; "proton_flux_ma_10"; "proton_flux_ma_30";
    "velocity_ma_5"; "velocity_ma_10"; "velocity_ma_30";
    "proton_flux_grad_1"; "proton_flux_grad_5"; "velocity_grad_1";
    "proton_flux_std_60"; "velocity_std_60";
    "proton_flux_zscore"; "velocity_zscore";
    "flux_mahalanobis_distance";
    "proton_electron_ratio_60" ].

(** ** The scikit-learn estimators

    An estimator's hyper-parameters are fixed in [CMEDetector.__init__]
    (with [random_state=42] where it has one), so what [fit] learns is a
    function of the data passed to it: a fitted estimator is represented
    by that data, an estimator that was never fitted by [None].  The
    scores a fitted estimator gives to a sample are taken as given. *)

Definition matrix : Type := list (list Q).

Record Estimators : Type :=
  { (* IsolationForest.decision_function, per sample *)
    iforest_decision : matrix -> list Q -> Q;
    (* OneClassSVM.decision_function, per sample *)
    svm_decision : matrix -> list Q -> Q;
    (* RandomForestClassifier.predict_proba, per sample and per class
       position (classes in increasing order) *)
    forest_proba : matrix -> list Q -> list Q -> nat -> Q }.

(** StandardScaler: per-feature mean and population variance. *)
Record StandardScaler : Type :=
  { mean_ : list Q;
    var_ : list Q }.

Record CMEDetector : Type :=
  { thresholds : list (string * Q);
    feature_engineer : FeatureEngineer;
    isolation_forest : option matrix;
    svm : option matrix;
    random_forest : option (matrix * list Q);
    scaler : option StandardScaler;
    is_trained : bool;
    feature_columns : list string }.

(** [CMEDetector.__init__] *)
Definition new_detector (th : list (string * Q)) (fe : FeatureEngineer)
  : CMEDetector :=
  {| thresholds := th;
     feature_engineer := fe;
     isolation_forest := None;
     svm := None;
     random_forest := None;
     scaler := None;
     is_trained := false;
     feature_columns := [] |}.

Definition set_feature_columns (v : list string) (d : CMEDetector) : CMEDetector :=
  {| thresholds := thresholds d; feature_engineer := feature_engineer d;
     isolation_forest := isolation_forest d; svm := svm d;
     random_forest := random_forest d; scaler := scaler d;
     is_trained := is_trained d; feature_columns := v |}.

Definition set_scaler (v : option StandardScaler) (d : CMEDetector) : CMEDetector :=
  {| thresholds := thresholds d; feature_engineer := feature_engineer d;
     isolation_forest := isolation_forest d; svm := svm d;
     random_forest := random_forest d; scaler := v;
     is_trained := is_trained d; feature_columns := feature_columns d |}.

Definition set_isolation_forest (v : option matrix) (d : CMEDetector) : CMEDetector :=
  {| thresholds := thresholds d; feature_engineer := feature_engineer d;
     isolation_forest := v; svm := svm d;
     random_forest := random_forest d; scaler := scaler d;
     is_trained := is_trained d; feature_columns := feature_columns d |}.

Definition set_svm (v : option matrix) (d : CMEDetector) : CMEDetector :=
  {| thresholds := thresholds d; feature_engineer := feature_engineer d;
     isolation_forest := isolation_forest d; svm := v;
     random_forest := random_forest d; scaler := scaler d;
     is_trained := is_trained d; feature_columns := feature_columns d |}.

Definition set_random_forest (v : option (matrix * list Q)) (d : CMEDetector)
  : CMEDetector :=
  {| thresholds := thresholds d; feature_engineer := feature_engineer d;
     isolation_forest := isolation_forest d; svm := svm d;
     random_forest := v; scaler := scaler d;
     is_trained := is_trained d; feature_columns := feature_columns d |}.

Definition set_is_trained (v : bool) (d : CMEDetector) : CMEDetector :=
  {| thresholds := thresholds d; feature_engineer := feature_engineer d;
     isolation_forest := isolation_forest d; svm := svm d;
     random_forest := random_forest d; scaler := scaler d;
     is_trained := v; feature_columns := feature_columns d |}.

(** *** Code that writes state: state and exceptions

    A computation runs from a state to the state it leaves behind and
    either a value or the exception raised.  Writes made before a
    [raise] are kept.  For a method the state is [self]; for the event
    builders it is the position of the global random generator. *)

Definition stateful (S A : Type) : Type := S -> S * result A.

Definition ret {S A : Type} (a : A) : stateful S A := fun s => (s, Ok a).
Definition raise {S A : Type} (e : exception) : stateful S A := fun s => (s, Raise e).
Definition lift {S A : Type} (r : result A) : stateful S A := fun s => (s, r).
Definition read {S A : Type} (f : S -> A) : stateful S A := fun s => (s, Ok (f s)).
Definition write {S : Type} (f : S -> S) : stateful S unit := fun s => (f s, Ok tt).

Definition mbind {S A B : Type} (m : stateful S A) (k : A -> stateful S B)
  : stateful S B :=
  fun s =>
    match m s with
    | (s', Ok a) => k a s'
    | (s', Raise e) => (s', Raise e)
    end.

Notation "x <~ m ;; k" := (mbind m (fun x => k))
  (at level 61, m at next level, right associativity).
Notation "m ;;; k" := (mbind m (fun _ => k))
  (at level 61, right associativity).

Definition method (A : Type) : Type := stateful CMEDetector A.

(** *** Array helpers *)

(** [df[cols].values]: one list of cells per row. *)
Definition values (df : DataFrame) (cols : list string) : list (list cell) :=
  map (fun i =>
         map (fun c => match get_col c df with
                       | Some col => nth i col CNaN
                       | None => CNaN
                       end) cols)
      (seq 0 (nrows df)).

(** scikit-learn's input validation: every entry must be a finite
    number.  Tables produced by [engineer_features] hold no missing
    value; for other tables the model rejects a missing or non-numeric
    entry at the first validation of the array (the Scaler's), where
    scikit-learn itself would let a NaN pass the Scaler and reject it in
    the estimators, and would convert a string that reads as a number.
    The tables accepted here are therefore among those scikit-learn
    accepts, not all of them. *)
Definition finite_of_cell (c : cell) : result Q :=
  match c with
  | CNum q => Ok q
  | _ => Raise (ValueError "Input contains NaN, infinity or a non-numeric value")
  end.

Definition check_array (X : list (list cell)) : result matrix :=
  match X with
  | [] => Raise (ValueError "Found array with 0 sample(s) while a minimum of 1 is required")
  | _ => mapM (mapM finite_of_cell) X
  end.

Definition n_features (X : matrix) : nat := length (hd [] X).

Definition column_of (X : matrix) (j : nat) : list Q :=
  map (fun row => nth j row 0%Q) X.

Definition pop_var (v : list Q) : Q :=
  let m := Qmean v in Qmean (map (fun x => (x - m) * (x - m))%Q v).

(** [X[mask]] for a boolean mask along the rows. *)
Definition mask_rows (X : matrix) (mask : list bool) : result matrix :=
  if length X =? length mask
  then Ok (map fst (filter snd (combine X mask)))
  else Raise IndexError.

Definition Qmem (x : Q) (l : list Q) : bool := existsb (Qeq_bool x) l.

(** The distinct values of an array (the classes a classifier sees). *)
Fixpoint distinct (l : list Q) : list Q :=
  match l with
  | [] => []
  | x :: l' => if Qmem x l' then distinct l' else x :: distinct l'
  end.

Definition Qlist_min (l : list Q) : Q := fold_left Qmin (tl l) (hd 0%Q l).
Definition Qlist_max (l : list Q) : Q := fold_left Qmax (tl l) (hd 0%Q l).

(** ** Training and prediction ([CMEDetector]) *)

Definition is_integer (q : Q) : bool :=
  (Qnum q mod Zpos (Qden q) =? 0)%Z.

(** [dict.get(key, default)] on the thresholds. *)
Fixpoint thresholds_get (key : string) (default : Q) (th : list (string * Q)) : Q :=
  match th with
  | [] => default
  | (k, v) :: th' => if String.eqb k key then v else thresholds_get key default th'
  end.

(** [np.mean(predictions, axis=0)] *)
Definition mean_axis0 (predictions : list (list Q)) : list Q :=
  map (fun i => Qmean (map (fun p => nth i p 0%Q) predictions))
      (seq 0 (length (hd [] predictions))).

(** Min-max normalisation of decision scores over the batch, inverted.
    Over the rationals the highest score maps to a positive value; in
    double precision the [1e-6] is absorbed by a large spread and the
    highest score then maps to 0, so the range is the closed interval
    [[0, 1]]. *)
Definition normalise_inverted (scores : list Q) : list Q :=
  let lo := Qlist_min scores in
  let hi := Qlist_max scores in
  map (fun s => 1 - (s - lo) / (hi - lo + eps))%Q scores.

(** What [StandardScaler.fit] learns from a validated array. *)
Definition scaler_fit (Xf : matrix) : StandardScaler :=
  let k := n_features Xf in
  {| mean_ := map (fun j => Qmean (column_of Xf j)) (seq 0 k);
     var_ := map (fun j => pop_var (column_of Xf j)) (seq 0 k) |}.

(** [[col for col in cols if col in features_df.columns]] *)
Definition columns_present (cols : list string) (features_df : DataFrame)
  : list string :=
  filter (fun c => has_col c features_df) cols.

Arguments columns_present : simpl never.

(** The array a detector reads from a table: the feature-importance
    columns the table offers, in the fixed order. *)
Definition importance_values (features_df : DataFrame) : list (list cell) :=
  values features_df (columns_present get_feature_importance_columns features_df).


(** [labels == 0] *)
Definition normal_mask (labels : list Q) : list bool :=
  map (fun y => Qeq_bool y 0) labels.

Section Detector.

Variable L : NumLib.
Variable E : Estimators.

(** [scale_] is the square root of [var_], with 1 for a constant feature. *)
Definition scale_of (v : Q) : Q := if Qeq_bool v 0 then 1%Q else fsqrt L v.

Definition scaler_transform_row (sc : StandardScaler) (row : list Q) : list Q :=
  map (fun t => (fst (fst t) - snd (fst t)) / scale_of (snd t))%Q
      (combine (combine row (mean_ sc)) (var_ sc)).

(** [StandardScaler.fit_transform].  [fit] first drops what an earlier
    fit had learnt ([_reset]) and only then validates its input. *)
Definition scaler_fit_transform (X : list (list cell)) : method matrix :=
  write (set_scaler None) ;;;
  Xf <~ lift (check_array X) ;;
  let sc := scaler_fit Xf in
  write (set_scaler (Some sc)) ;;;
  ret (map (scaler_transform_row sc) Xf).

(** [StandardScaler.transform] *)
Definition scaler_transform (sc : option StandardScaler) (X : list (list cell))
  : result matrix :=
  match sc with
  | None => Raise NotFittedError
  | Some sc =>
      Xf <- check_array X ;;
      if n_features Xf =? length (mean_ sc) then Ok (map (scaler_transform_row sc) Xf)
      else Raise (ValueError "X has a different number of features than StandardScaler is expecting")
  end.

(** One turn of the training loop for an unsupervised detector: fitted
    on the rows labelled 0, left as it is when there is none. *)
Definition fit_novelty (assign : option matrix -> CMEDetector -> CMEDetector)
           (X_scaled : matrix) (labels : list Q) : method unit :=
  normal_data <~ lift (mask_rows X_scaled (normal_mask labels)) ;;
  if 0 <? length normal_data
  then write (assign (Some normal_data))
  else ret tt.

(** The turn of the supervised classifier.  It wants as many labels as
    rows, and labels that are class values. *)
Definition fit_forest (X_scaled : matrix) (labels : list Q) : method unit :=
  if negb (length X_scaled =? length labels)
  then raise (ValueError "Found input variables with inconsistent numbers of samples")
  else if negb (forallb is_integer labels)
  then raise (ValueError "Unknown label type: continuous")
  else write (set_random_forest (Some (X_scaled, labels))).

(** [train_models]; the loop runs over the dictionary in insertion
    order: isolation_forest, svm, random_forest. *)
Definition train_models (features_df : DataFrame) (labels : list Q) : method unit :=
  write (set_feature_columns get_feature_importance_columns) ;;;
  cols <~ read feature_columns ;;
  let available_columns := columns_present cols features_df in
  match available_columns with
  | [] => raise (ValueError "No feature columns available for training")
  | _ =>
      let X := values features_df available_columns in
      X_scaled <~ scaler_fit_transform X ;;
      fit_novelty set_isolation_forest X_scaled labels ;;;
      fit_novelty set_svm X_scaled labels ;;;
      fit_forest X_scaled labels ;;;
      write (set_is_trained true)
  end.

Definition novelty_predict (decision : matrix -> list Q -> Q)
           (model : option matrix) (X_scaled : matrix) : result (list Q) :=
  match model with
  | None => Raise NotFittedError
  | Some fitted_on =>
      if n_features X_scaled =? n_features fitted_on
      then Ok (normalise_inverted (map (decision fitted_on) X_scaled))
      else Raise (ValueError "X has a different number of features than the estimator is expecting")
  end.

(** [model.predict_proba(X_scaled)[:, 1]]: there is a column 1 only if
    the classifier saw at least two classes. *)
Definition forest_predict (model : option (matrix * list Q)) (X_scaled : matrix)
  : result (list Q) :=
  match model with
  | None => Raise NotFittedError
  | Some (fitted_on, y) =>
      if n_features X_scaled =? n_features fitted_on
      then if 2 <=? length (distinct y)
           then Ok (map (fun x => forest_proba E fitted_on y x 1) X_scaled)
           else Raise IndexError
      else Raise (ValueError "X has a different number of features than the estimator is expecting")
  end.

(** [predict_cme_probability]: reads [self], writes nothing. *)
Definition predict_cme_probability (self : CMEDetector) (features_df : DataFrame)
  : result (list Q) :=
  if negb (is_trained self)
  then Raise (ValueError "Models must be trained before prediction")
  else
    let available_columns := columns_present (feature_columns self) features_df in
    let X := values features_df available_columns in
    X_scaled <- scaler_transform (scaler self) X ;;
    p_iforest <- novelty_predict (iforest_decision E) (isolation_forest self) X_scaled ;;
    p_svm <- novelty_predict (svm_decision E) (svm self) X_scaled ;;
    p_forest <- forest_predict (random_forest self) X_scaled ;;
    Ok (mean_axis0 [p_iforest; p_svm; p_forest]).

(** [np.where(column > threshold, weight, 0)] *)
Definition rule_term (threshold weight : Q) (c : column) : result (list Q) :=
  mapM (fun x => v <- float_of_cell x ;;
                 Ok (if fgt v (Some threshold) then weight else 0%Q)) c.

Definition add_rule (features_df : DataFrame) (name : string) (threshold weight : Q)
           (acc : list Q) : result (list Q) :=
  match get_col name features_df with
  | Some c =>
      t <- rule_term threshold weight c ;;
      Ok (map (fun p => fst p + snd p)%Q (combine acc t))
  | None => Ok acc
  end.

Definition Qclip (lo hi x : Q) : Q := Qmin (Qmax x lo) hi.

(** [a op b] on two one-dimensional arrays, with numpy's broadcasting:
    arrays of equal length go element by element, an array of length 1
    is stretched to the other's length, anything else raises. *)
Definition broadcast (op : Q -> Q -> Q) (a b : list Q) : result (list Q) :=
  if length a =? length b
  then Ok (map (fun p => op (fst p) (snd p)) (combine a b))
  else match a, b with
       | [x], _ => Ok (map (op x) b)
       | _, [y] => Ok (map (fun x => op x y) a)
       | _, _ => Raise (ValueError "operands could not be broadcast together")
       end.

(** [apply_threshold_rules] *)
Definition apply_threshold_rules (self : CMEDetector) (features_df : DataFrame)
           (ml_probabilities : list Q) : result (list Q) :=
  let th := thresholds self in
  let velocity_threshold := thresholds_get "velocity_threshold" 500 th in
  let flux_threshold := thresholds_get "flux_threshold" 1200 th in
  let temperature_threshold := thresholds_get "temperature_threshold" 200000 th in
  let magnetic_field_threshold := thresholds_get "magnetic_field_threshold" 10 th in
  let rule_based_scores := repeat 0%Q (nrows features_df) in
  s <- add_rule features_df "velocity" velocity_threshold (3 # 10) rule_based_scores ;;
  s <- add_rule features_df "proton_flux" flux_threshold (3 # 10) s ;;
  s <- add_rule features_df "temperature" temperature_threshold (2 # 10) s ;;
  s <- add_rule features_df "magnetic_field_magnitude" magnetic_field_threshold (2 # 10) s ;;
  combined_scores <- broadcast (fun m r => (7 # 10) * m + (3 # 10) * r)%Q
                               ml_probabilities s ;;
  Ok (map (Qclip 0 1) combined_scores).

End Detector.

(** ** Event segmentation: grouping of selected row positions

    [CMEDetector._group_consecutive_detections].  The loop state is the
    list of closed groups, the group being built, and the previous
    index [indices[i-1]]. *)

Definition group_state : Type := (list (list nat) * list nat * nat)%type.

Definition group_step (max_gap : Z) (st : group_state) (x : nat) : group_state :=
  let '(groups, current_group, prev) := st in
  if (Z.of_nat x - Z.of_nat prev <=? max_gap)%Z
  then (groups, current_group ++ [x], x)
  else (groups ++ [current_group], [x], x).

Definition _group_consecutive_detections (indices : list nat) (max_gap : Z)
  : list (list nat) :=
  match indices with
  | [] => []
  | i0 :: rest =>
      let '(groups, current_group, _) :=
        fold_left (group_step max_gap) rest ([], [i0], i0) in
      groups ++ [current_group]
  end.

(** The default [max_gap] of the source. *)
Definition default_max_gap : Z := 10%Z.

(** *** What the grouping is meant to produce (stated from the
    specification, to compare with the loop above). *)

(** Adjacent elements of a list are related by [R]. *)
Fixpoint chain {A : Type} (R : A -> A -> Prop) (l : list A) : Prop :=
  match l with
  | a :: (b :: _) as t => R a b /\ chain R t
  | _ => True
  end.

Definition within_gap (g : Z) (a b : nat) : Prop :=
  (Z.of_nat b - Z.of_nat a <= g)%Z.

(** Two neighbouring groups are separated by more than the gap: the run
    on the left could not have been extended. *)
Definition gap_between (g : Z) (G1 G2 : list nat) : Prop :=
  (Z.of_nat (hd 0%nat G2) - Z.of_nat (last G1 0%nat) > g)%Z.

Record maximal_runs (g : Z) (indices : list nat) (groups : list (list nat)) : Prop :=
  { runs_cover : concat groups = indices;
    runs_nonempty : Forall (fun G => G <> []) groups;
    runs_close : Forall (chain (within_gap g)) groups;
    runs_maximal : chain (gap_between g) groups }.

Section TrainingOutcome.

Variable L : NumLib.

(** What a training call leaves behind, by the place where it stops. *)
Inductive trained_to (features_df : DataFrame) (labels : list Q)
          (d : CMEDetector) : CMEDetector -> result unit -> Prop :=
| stop_no_columns :
    columns_present get_feature_importance_columns features_df = [] ->
    trained_to features_df labels d
      (set_feature_columns get_feature_importance_columns d)
      (Raise (ValueError "No feature columns available for training"))
| stop_scaler (e : exception) :
    columns_present get_feature_importance_columns features_df <> [] ->
    check_array (importance_values features_df) = Raise e ->
    trained_to features_df labels d
      (set_scaler None (set_feature_columns get_feature_importance_columns d))
      (Raise e)
| stop_mask (Xf : matrix) :
    columns_present get_feature_importance_columns features_df <> [] ->
    check_array (importance_values features_df) = Ok Xf ->
    length Xf <> length labels ->
    trained_to features_df labels d
      (set_scaler (Some (scaler_fit Xf))
         (set_scaler None (set_feature_columns get_feature_importance_columns d)))
      (Raise IndexError)
| stop_forest (Xf normal_data : matrix) :
    columns_present get_feature_importance_columns features_df <> [] ->
    check_array (importance_values features_df) = Ok Xf ->
    mask_rows (map (scaler_transform_row L (scaler_fit Xf)) Xf) (normal_mask labels)
    = Ok normal_data ->
    forallb is_integer labels = false ->
    trained_to features_df labels d
      (let d1 := set_scaler (Some (scaler_fit Xf))
                   (set_scaler None
                      (set_feature_columns get_feature_importance_columns d)) in
       let d2 := if 0 <? length normal_data
                 then set_isolation_forest (Some normal_data) d1 else d1 in
       if 0 <? length normal_data then set_svm (Some normal_data) d2 else d2)
      (Raise (ValueError "Unknown label type: continuous"))
| stop_done (Xf normal_data : matrix) :
    columns_present get_feature_importance_columns features_df <> [] ->
    check_array (importance_values features_df) = Ok Xf ->
    mask_rows (map (scaler_transform_row L (scaler_fit Xf)) Xf) (normal_mask labels)
    = Ok normal_data ->
    length Xf = length labels ->
    trained_to features_df labels d
      (let X_scaled := map (scaler_transform_row L (scaler_fit Xf)) Xf in
       let d1 := set_scaler (Some (scaler_fit Xf))
                   (set_scaler None
                      (set_feature_columns get_feature_importance_columns d)) in
       let d2 := if 0 <? length normal_data
                 then set_isolation_forest (Some normal_data) d1 else d1 in
       let d3 := if 0 <? length normal_data
                 then set_svm (Some normal_data) d2 else d2 in
       set_is_trained true (set_random_forest (Some (X_scaled, labels)) d3))
      (Ok tt).

End TrainingOutcome.

(** ** Candidate events *)

Inductive cme_type : Type := halo | partial_halo | non_halo.

Record CMEEvent : Type :=
  { ev_id : string;
    ev_timestamp : Z;
    ev_type : cme_type;
    ev_velocity : float;
    ev_width : Q;
    ev_acceleration : Q;
    ev_confidence : Q;
    ev_source : string;
    ev_status : string;
    ev_latitude : Q;
    ev_longitude : Q;
    ev_magnitude : Q }.

(** numpy's global random generator: the [n]-th draw it hands out, as a
    sample of [random_sample()] or of a standard normal.  The state is
    the number of draws made so far. *)
Record Rng : Type :=
  { random_sample : nat -> Q;
    standard_normal : nat -> Q }.

Definition draws (A : Type) : Type := stateful nat A.

(** [py_min a b] is Python's [min(a, b)]: [b] when [b < a], else [a]. *)
Definition py_min (a b : Q) : Q := if Qlt_bool b a then b else a.

(** [peak_data.get(name, default)] on row [i]. *)
Definition row_get (df : DataFrame) (i : nat) (name : string) (default : cell) : cell :=
  match get_col name df with
  | Some c => nth i c CNaN
  | None => default
  end.

(** The positions of the [true] entries of a mask ([np.where(mask)[0]]). *)
Definition where_true (mask : list bool) : list nat :=
  map fst (filter snd (combine (seq 0 (length mask)) mask)).

(** *** Double precision

    [np.random.uniform(low, high)] evaluates [low + (high - low) * u]
    in binary64 arithmetic, rounding the difference, the product and
    the sum to the nearest double, ties to even.  [round_binary64] is
    that rounding on the rationals (in the range of normal numbers);
    [uniform] below takes the same expression exactly, and the two
    differ by these roundings only. *)






Section Events.

Variable L : NumLib.
Variable G : Rng.

(** [np.random.uniform(low, high)] *)
Definition uniform (low high : Q) : draws Q :=
  fun s => (S s, Ok (low + (high - low) * random_sample G s)%Q).

(** [np.random.normal(loc, scale)] *)
Definition normal (loc scale : Q) : draws Q :=
  fun s => (S s, Ok (loc + scale * standard_normal G s)%Q).

(** [scores[indices]] *)
Definition take_scores (scores : list Q) (indices : list nat) : result (list Q) :=
  mapM (fun i => match nth_error scores i with
                 | Some x => Ok x
                 | None => Raise IndexError
                 end) indices.

(** The [if]/[elif]/[else] on the peak's velocity and proton flux;
    [and] does not look at its right operand when the left one is false. *)
Definition classify (velocity proton_flux : cell) : result cme_type :=
  v <- float_of_cell velocity ;;
  is_halo <- (if fgt v (Some 800%Q)
              then p <- float_of_cell proton_flux ;; Ok (fgt p (Some 2000%Q))
              else Ok false) ;;
  if is_halo then Ok halo
  else
    is_partial <- (if fgt v (Some 600%Q)
                   then p <- float_of_cell proton_flux ;; Ok (fgt p (Some 1500%Q))
                   else Ok false) ;;
    Ok (if is_partial then partial_halo else non_halo).

Definition draw_width (t : cme_type) : draws Q :=
  match t with
  | halo => ret 360%Q
  | partial_halo => uniform 120 359
  | non_halo => uniform 20 119
  end.

(** [peak_data["timestamp"]] as a Timestamp that has [strftime]. *)
Definition peak_timestamp (df : DataFrame) (i : nat) : result Z :=
  c <- getitem "timestamp" df ;;
  match nth i c CNaN with
  | CTime ns => Ok ns
  | CNaT => Raise (ValueError "NaTType does not support strftime")
  | _ => Raise AttributeError
  end.

Definition magnitude_of (velocity : float) : Q :=
  match velocity with
  | Some v => py_min 10 (v / 100)
  | None => 10%Q
  end.

(** [_create_cme_event] *)
Definition _create_cme_event (features_df : DataFrame) (scores : list Q)
           (indices : list nat) : draws CMEEvent :=
  group_scores <~ lift (take_scores scores indices) ;;
  k <~ lift (argmax group_scores) ;;
  let peak_idx := nth k indices 0 in
  if nrows features_df <=? peak_idx then raise IndexError
  else
    let velocity := row_get features_df peak_idx "velocity" (CNum 400) in
    let proton_flux := row_get features_df peak_idx "proton_flux" (CNum 1000) in
    confidence <~ lift (match nth_error scores peak_idx with
                        | Some x => Ok x
                        | None => Raise IndexError
                        end) ;;
    cme_type <~ lift (classify velocity proton_flux) ;;
    width <~ draw_width cme_type ;;
    ts <~ lift (peak_timestamp features_df peak_idx) ;;
    v <~ lift (float_of_cell velocity) ;;
    acceleration <~ normal (-5) 10 ;;
    latitude <~ uniform (-90) 90 ;;
    longitude <~ uniform (-180) 180 ;;
    ret {| ev_id := "SWIS_" ++ strftime L ts;
           ev_timestamp := ts;
           ev_type := cme_type;
           ev_velocity := v;
           ev_width := width;
           ev_acceleration := acceleration;
           ev_confidence := confidence;
           ev_source := "swis";
           ev_status := "detected";
           ev_latitude := latitude;
           ev_longitude := longitude;
           ev_magnitude := magnitude_of v |}.

(** The loop [for group in event_groups: events.append(...)]. *)
Fixpoint create_events (features_df : DataFrame) (scores : list Q)
         (event_groups : list (list nat)) : draws (list CMEEvent) :=
  match event_groups with
  | [] => ret []
  | group :: rest =>
      e <~ _create_cme_event features_df scores group ;;
      es <~ create_events features_df scores rest ;;
      ret (e :: es)
  end.

(** From a mask over the rows to the event list: the block
    [if np.any(cme_mask): ...] that [detect_cme_events] and
    [rule_based_detection] share. *)
Definition extract_events (features_df : DataFrame) (scores : list Q)
           (cme_mask : list bool) : draws (list CMEEvent) :=
  if existsb (fun b => b) cme_mask then
    let cme_indices := where_true cme_mask in
    let event_groups := _group_consecutive_detections cme_indices default_max_gap in
    create_events features_df scores event_groups
  else ret [].

(** The segmenter on a score series and a confidence threshold
    ([detect_cme_events], from [cme_mask = final_scores > threshold] on). *)
Definition segment_events (features_df : DataFrame) (final_scores : list Q)
           (confidence_threshold : Q) : draws (list CMEEvent) :=
  extract_events features_df final_scores
                 (map (fun x => Qlt_bool confidence_threshold x) final_scores).

(** [features_df.get(name, default) > threshold] *)
Definition gt_mask (df : DataFrame) (name : string) (default threshold : Q)
  : result (list bool) :=
  let c := match get_col name df with
           | Some c => c
           | None => repeat (CNum default) (nrows df)
           end in
  mapM (fun x => v <- float_of_cell x ;; Ok (fgt v (Some threshold))) c.

(** [rule_based_detection].  The result carries the caller's frame as
    [engineer_features] leaves it. *)
Definition rule_based_detection (self : CMEDetector) (particle_df : DataFrame)
  : DataFrame * draws (list CMEEvent) :=
  let '(caller, r) := engineer_features L (feature_engineer self) particle_df in
  (caller,
   features_df <~ lift r ;;
   let velocity_threshold := thresholds_get "velocity_threshold" 500 (thresholds self) in
   let flux_threshold := thresholds_get "flux_threshold" 1200 (thresholds self) in
   mv <~ lift (gt_mask features_df "velocity" 0 velocity_threshold) ;;
   mf <~ lift (gt_mask features_df "proton_flux" 0 flux_threshold) ;;
   let cme_mask := map (fun p => andb (fst p) (snd p)) (combine mv mf) in
   extract_events features_df
                  (repeat (1 * (8 # 10))%Q (nrows features_df)) cme_mask).

Variable E : Estimators.

(** [detect_cme_events] *)
Definition detect_cme_events (self : CMEDetector) (particle_df : DataFrame)
  : DataFrame * draws (list CMEEvent) :=
  if negb (is_trained self) then rule_based_detection self particle_df
  else
    let '(caller, r) := engineer_features L (feature_engineer self) particle_df in
    (caller,
     features_df <~ lift r ;;
     ml_probabilities <~ lift (predict_cme_probability L E self features_df) ;;
     final_scores <~ lift (apply_threshold_rules self features_df ml_probabilities) ;;
     let confidence_threshold :=
       thresholds_get "confidence_threshold" (7 # 10) (thresholds self) in
     segment_events features_df final_scores confidence_threshold).

End Events.

(** The same loop written by recursion on the remaining indices; used
    to reason about the fold. *)
Fixpoint runs_from (g : Z) (cur : list nat) (prev : nat) (l : list nat)
  : list (list nat) :=
  match l with
  | [] => [cur]
  | x :: l' =>
      if (Z.of_nat x - Z.of_nat prev <=? g)%Z
      then runs_from g (cur ++ [x]) x l'
      else cur :: runs_from g [x] x l'
  end.

(** *** The peak of a group, as specified *)

(** Position [k] holds the maximum of [l], and no earlier position does. *)
Definition first_max (l : list Q) (k : nat) (m : Q) : Prop :=
  nth_error l k = Some m
  /\ (forall j y, nth_error l j = Some y -> (y <= m)%Q)
  /\ (forall j y, j < k -> nth_error l j = Some y -> (y < m)%Q).


(** Row [i] of a feature table can be characterised: it carries a
    timestamp, and its velocity and proton flux (or their defaults) are
    numbers. *)
Definition row_ready (df : DataFrame) (i : nat) : Prop :=
  (exists ns, peak_timestamp df i = Ok ns)
  /\ (exists v, float_of_cell (row_get df i "velocity" (CNum 400)) = Ok v)
  /\ (exists p, float_of_cell (row_get df i "proton_flux" (CNum 1000)) = Ok p).

(** *** The flux Mahalanobis feature, as specified

    The distance of a vector [x] from [mean] under the matrix [P]: the
    square root of [(x - mean)^T P (x - mean)]. *)
Definition quadratic_form (P : list (list Q)) (d : list Q) : Q :=
  dot (vecmat d P) d.

Definition mahalanobis_distance (L : NumLib) (P : list (list Q)) (mean x : list Q)
  : float :=
  np_sqrt L (quadratic_form P (vsub x mean)).

(** The four Moore-Penrose conditions, checked on rational matrices. *)
Definition matmul (A B : list (list Q)) : list (list Q) :=
  map (fun row => vecmat row B) A.

Definition transpose (A : list (list Q)) : list (list Q) :=
  map (fun k => map (fun row => nth k row 0%Q) A) (seq 0 (length (hd [] A))).

Definition mat_eqb (A B : list (list Q)) : bool :=
  (length A =? length B)
  && forallb (fun ab =>
                (length (fst ab) =? length (snd ab))
                && forallb (fun xy => Qeq_bool (fst xy) (snd xy))
                           (combine (fst ab) (snd ab)))
             (combine A B).

Definition is_pseudo_inverse (A P : list (list Q)) : bool :=
  mat_eqb (matmul (matmul A P) A) A
  && mat_eqb (matmul (matmul P A) P) P
  && mat_eqb (transpose (matmul A P)) (matmul A P)
  && mat_eqb (transpose (matmul P A)) (matmul P A).

Definition zero_column (df : DataFrame) : column := repeat (CNum 0) (nrows df).

(** The feature as the specification words it: zero-filled when the
    table has fewer rows than there are flux columns or the inversion
    fails, the distances otherwise. *)
Definition flux_mahalanobis_as_specified (L : NumLib) (df : DataFrame) : column :=
  if nrows df <? length flux_columns then zero_column df
  else
    match flux_data df with
    | None => zero_column df
    | Some X =>
        match pinv L (np_cov X) with
        | None => zero_column df
        | Some P =>
            map (fun i => cell_of_float
                            (mahalanobis_distance L P (map Qmean X) (row_of X i)))
                (seq 0 (nrows df))
        end
    end.


(** ** A computable instance of the library functions

    Used to run the model on sample tables.  The calendar functions are
    the proleptic Gregorian ones; the square root is exact on squares of
    rationals; the pseudo-inverse is given for diagonal matrices, where
    it inverts the non-zero entries; the spectral estimate is not
    exercised by tables of fewer than 64 rows. *)

Module Sample.

Definition days_from_civil (y m d : Z) : Z :=
  (let y' := if m <=? 2 then y - 1 else y in
   let era := y' / 400 in
   let yoe := y' - era * 400 in
   let mp := if 2 <? m then m - 3 else m + 9 in
   let doy := (153 * mp + 2) / 5 + d - 1 in
   let doe := yoe * 365 + yoe / 4 - yoe / 100 + doy in
   era * 146097 + doe - 719468)%Z.

(** Year, month and day of a day count since 1970-01-01. *)
Definition civil_from_days (z : Z) : Z * Z * Z :=
  (let z := z + 719468 in
   let era := z / 146097 in
   let doe := z - era * 146097 in
   let yoe := (doe - doe / 1460 + doe / 36524 - doe / 146096) / 365 in
   let doy := doe - (365 * yoe + yoe / 4 - yoe / 100) in
   let mp := (5 * doy + 2) / 153 in
   let d := doy - (153 * mp + 2) / 5 + 1 in
   let m := if mp <? 10 then mp + 3 else mp - 9 in
   let y := yoe + era * 400 in
   ((if m <=? 2 then y + 1 else y), m, d))%Z.

Definition ns_per_day : Z := 86400000000000%Z.

Definition day_of_year (ns : Z) : Z :=
  (let days := ns / ns_per_day in
   let '(y, _, _) := civil_from_days days in
   days - days_from_civil y 1 1 + 1)%Z.

Definition str_of_Z (z : Z) : string := str_of_nat (Z.to_nat z).

Definition pad2 (z : Z) : string :=
  if (z <? 10)%Z then "0" ++ str_of_Z z else str_of_Z z.

Definition pad4 (z : Z) : string :=
  if (z <? 10)%Z then "000" ++ str_of_Z z
  else if (z <? 100)%Z then "00" ++ str_of_Z z
  else if (z <? 1000)%Z then "0" ++ str_of_Z z
  else str_of_Z z.

Definition format_stamp (ns : Z) : string :=
  (let days := ns / ns_per_day in
   let secs := (ns mod ns_per_day) / 1000000000 in
   let '(y, m, d) := civil_from_days days in
   pad4 y ++ pad2 m ++ pad2 d ++ "_"
     ++ pad2 (secs / 3600) ++ pad2 ((secs / 60) mod 60) ++ pad2 (secs mod 60))%Z%string.

Definition digit (c : ascii) : option Z :=
  let n := Z.of_nat (nat_of_ascii c) in
  if ((48 <=? n) && (n <=? 57))%Z then Some (n - 48)%Z else None.

Fixpoint digits (acc : Z) (cs : list ascii) : option Z :=
  match cs with
  | [] => Some acc
  | c :: cs' =>
      match digit c with
      | Some d => digits (acc * 10 + d)%Z cs'
      | None => None
      end
  end.

(** Timestamps written [YYYY-MM-DD HH:MM:SS]. *)
Definition parse_iso (s : string) : option Z :=
  match list_ascii_of_string s with
  | [y1; y2; y3; y4; "-"%char; m1; m2; "-"%char; d1; d2; " "%char;
     h1; h2; ":"%char; n1; n2; ":"%char; s1; s2] =>
      match digits 0 [y1; y2; y3; y4], digits 0 [m1; m2], digits 0 [d1; d2],
            digits 0 [h1; h2], digits 0 [n1; n2], digits 0 [s1; s2] with
      | Some y, Some m, Some d, Some h, Some n, Some sec =>
          Some ((days_from_civil y m d * 86400 + h * 3600 + n * 60 + sec)
                * 1000000000)%Z
      | _, _, _, _, _, _ => None
      end
  | _ => None
  end.

Definition sqrt_exact (q : Q) : Q :=
  Qred (Z.sqrt (Qnum q * Zpos (Qden q)) # Qden q)%Q.

(** A polynomial in place of the sine. *)
Definition sin_poly (x : Q) : Q := (x - x * x * x / 6)%Q.

Fixpoint insert_key (i : nat) (k : option Z) (l : list (nat * option Z))
  : list (nat * option Z) :=
  match l with
  | [] => [(i, k)]
  | (j, kj) :: l' =>
      let before :=
        match k, kj with
        | Some a, Some b => (a <? b)%Z
        | Some _, None => true
        | None, _ => false
        end in
      if before then (i, k) :: l else (j, kj) :: insert_key i k l'
  end.

(** A stable sort of the positions by key, missing keys last. *)
Definition argsort_stable (keys : list (option Z)) : list nat :=
  map fst (fold_right (fun ik acc => insert_key (fst ik) (snd ik) acc) []
                      (combine (seq 0 (length keys)) keys)).

Definition is_diagonal (M : list (list Q)) : bool :=
  forallb (fun ir =>
             forallb (fun jx => (fst ir =? fst jx) || Qeq_bool (snd jx) 0)
                     (combine (seq 0 (length (snd ir))) (snd ir)))
          (combine (seq 0 (length M)) M).

Definition pinv_diagonal (M : list (list Q)) : option (list (list Q)) :=
  if is_diagonal M
  then Some (map (map (fun x => if Qeq_bool x 0 then 0 else Qred (/ x))%Q) M)
  else None.

Definition welch_flat (xs : list float) (nperseg : nat) : list Q * list Q :=
  (map (fun k => inject_Z (Z.of_nat k) / inject_Z (Z.of_nat nperseg))%Q
       (seq 0 (nperseg / 2 + 1)),
   repeat 0%Q (nperseg / 2 + 1)).

Definition lib : NumLib :=
  {| fsqrt := sqrt_exact;
     fsin := sin_poly;
     fpi := (355 # 113)%Q;
     welch := welch_flat;
     pinv := pinv_diagonal;
     parse_datetime := parse_iso;
     epoch_to_ns := Qfloor;
     argsort := argsort_stable;
     dayofyear := day_of_year;
     strftime := format_stamp |}.

(** Scores that depend on the sample only through its distance from the
    origin of the scaled space, and class frequencies for the forest. *)
Definition estimators : Estimators :=
  {| iforest_decision := fun _ x => (- dot x x)%Q;
     svm_decision := fun _ x => (1 - dot x x)%Q;
     forest_proba := fun _ y _ k =>
       (inject_Z (Z.of_nat (length (filter (Qeq_bool (nth k (Qsort (distinct y)) 0%Q)) y)))
        / inject_Z (Z.of_nat (length y)))%Q |}.

(** A generator whose uniform draws are all 1/2 and normal draws all 0. *)
Definition rng : Rng :=
  {| random_sample := fun _ => (1 # 2)%Q;
     standard_normal := fun _ => 0%Q |}.

Definition nums (l : list Z) : column := map (fun z => CNum (inject_Z z)) l.

(** Five samples one minute apart, out of order, with a fast and
    proton-rich stream from the third minute on. *)
Definition telemetry : DataFrame :=
  [ ("timestamp", [ CStr "2024-01-01 00:01:00"; CStr "2024-01-01 00:00:00";
                    CStr "2024-01-01 00:02:00"; CStr "2024-01-01 00:03:00";
                    CStr "2024-01-01 00:04:00" ]);
    ("proton_flux", nums [1010; 1000; 2500; 2600; 1700]%Z);
    ("electron_flux", nums [800; 800; 800; 800; 800]%Z);
    ("alpha_flux", nums [300; 300; 300; 300; 300]%Z);
    ("velocity", nums [410; 400; 850; 900; 650]%Z);
    ("temperature", nums [150000; 150000; 210000; 220000; 160000]%Z);
    ("density", nums [5; 5; 6; 7; 5]%Z);
    ("magnetic_field_magnitude", nums [5; 5; 12; 13; 6]%Z) ].

(** The detector as [__init__] leaves it, with no threshold configured. *)
Definition untrained : CMEDetector := new_detector [] default_engineer.

(** A feature table reduced to what event building reads. *)
Definition features : DataFrame :=
  [ ("timestamp", [ CTime 1704067200000000000; CTime 1704067260000000000;
                    CTime 1704067320000000000; CTime 1704067380000000000;
                    CTime 1704067440000000000 ]);
    ("proton_flux", nums [1000; 1010; 2500; 2600; 1700]%Z);
    ("velocity", nums [400; 410; 850; 900; 650]%Z) ].

(** Scores with a tie for the maximum at rows 2 and 3. *)
Definition scores : list Q :=
  [(1 # 10); (2 # 10); (9 # 10); (9 # 10); (75 # 100)]%Q.

(** One score more than [features] has rows. *)
Definition long_scores : list Q :=
  [(1 # 10); (2 # 10); (9 # 10); (9 # 10); (75 # 100); (1 # 10)]%Q.

(** A feature table with two of the importance columns. *)
Definition training : DataFrame :=
  [ ("proton_flux", nums [1000; 1010; 2500; 2600; 1700]%Z);
    ("velocity", nums [400; 410; 850; 900; 650]%Z) ].

(** The same columns on another day. *)
Definition later_batch : DataFrame :=
  [ ("proton_flux", nums [3000; 3000; 3100]%Z);
    ("velocity", nums [700; 720; 740]%Z) ].

(** Rows 2 and 3 fall in the window of a known event. *)
Definition labels : list Q := [0; 0; 1; 1; 0]%Q.

(** Every row falls in the window of a known event. *)
Definition all_event_labels : list Q := [1; 1; 1; 1; 1]%Q.

(** No event is known. *)
Definition no_event_labels : list Q := [0; 0; 0; 0; 0]%Q.

(** The detector after training on [training] with [labels]. *)
Definition trained : CMEDetector :=
  fst (train_models lib training labels untrained).

(** Three samples whose proton flux varies alone. *)
Definition three_rows : DataFrame :=
  [ ("proton_flux", nums [0; 1; 2]%Z);
    ("electron_flux", nums [5; 5; 5]%Z);
    ("alpha_flux", nums [7; 7; 7]%Z) ].

(** Five such samples. *)
Definition five_rows : DataFrame :=
  [ ("proton_flux", nums [0; 0; 1; 2; 2]%Z);
    ("electron_flux", nums [5; 5; 5; 5; 5]%Z);
    ("alpha_flux", nums [7; 7; 7; 7; 7]%Z) ].

End Sample.

(** * Further operations and what they are expected to satisfy *)

(** ** Scores *)

Definition unit_interval (x : Q) : Prop := (0 <= x /\ x <= 1)%Q.

(** Row [i] of column [name] holds a number above [threshold]. *)
Definition exceeds (df : DataFrame) (name : string) (threshold : Q) (i : nat)
  : Prop :=
  exists c q,
    get_col name df = Some c /\ nth_error c i = Some (CNum q) /\ (threshold < q)%Q.

(** One of the four threshold rules of [apply_threshold_rules] holds at
    row [i]. *)
Definition some_rule_fires (self : CMEDetector) (df : DataFrame) (i : nat) : Prop :=
  exceeds df "velocity" (thresholds_get "velocity_threshold" 500 (thresholds self)) i
  \/ exceeds df "proton_flux" (thresholds_get "flux_threshold" 1200 (thresholds self)) i
  \/ exceeds df "temperature"
             (thresholds_get "temperature_threshold" 200000 (thresholds self)) i
  \/ exceeds df "magnetic_field_magnitude"
             (thresholds_get "magnetic_field_threshold" 10 (thresholds self)) i.

(** ** Events *)

(** The generator position after which the last three draws of an event
    are made: a halo draws no width. *)
Definition after_width (t : cme_type) (s : nat) : nat :=
  match t with
  | halo => s
  | _ => S s
  end.

Module Cases.

(** One score more than [Sample.features] has rows, the last one the
    highest. *)
Definition overlong_scores : list Q :=
  [(1 # 10); (2 # 10); (9 # 10); (9 # 10); (75 # 100); (95 # 100)]%Q.

(** [Sample.telemetry] after feature engineering. *)
Definition engineered : DataFrame :=
  match snd (engineer_features Sample.lib default_engineer Sample.telemetry) with
  | Ok df => df
  | Raise _ => []
  end.

(** A detector as [load_models] leaves it, from a file that holds
    models for the velocity alone. *)
Definition detector : CMEDetector :=
  {| thresholds := [];
     feature_engineer := default_engineer;
     isolation_forest := Some [[-2]; [-19 # 10]; [1 # 2]]%Q;
     svm := Some [[-2]; [-19 # 10]; [1 # 2]]%Q;
     random_forest :=
       Some ([[-2]; [-19 # 10]; [5 # 2]; [3]; [1 # 2]], [0; 0; 1; 1; 0])%Q;
     scaler := Some {| mean_ := [600]%Q; var_ := [10000]%Q |};
     is_trained := true;
     feature_columns := ["velocity"] |}.

(** A table whose timestamp cannot be read. *)
Definition bad_timestamp : DataFrame :=
  [ ("timestamp", [CStr "yesterday"; CStr "2024-01-01 00:00:00"]);
    ("proton_flux", Sample.nums [1010; 1000]%Z);
    ("velocity", Sample.nums [410; 400]%Z) ].

(** A table without proton flux. *)
Definition no_flux : DataFrame :=
  [ ("timestamp", [CStr "2024-01-01 00:01:00"; CStr "2024-01-01 00:00:00"]);
    ("velocity", Sample.nums [410; 400]%Z) ].

(** [Sample.features] with the time features added. *)
Definition time_features : DataFrame :=
  match create_time_features Sample.lib Sample.features with
  | Ok df => df
  | Raise _ => []
  end.

End Cases.

(** ** Tables *)

(** Every column has as many cells as the table has rows. *)
Definition rectangular (df : DataFrame) : Prop :=
  Forall (fun nc => length (snd nc) = nrows df) df.

Definition is_float (c : cell) : Prop :=
  match c with
  | CNum _ | CNaN => True
  | _ => False
  end.

Definition is_number (c : cell) : Prop :=
  match c with
  | CNum _ => True
  | _ => False
  end.

(** The table has a column of that name, and it holds floats. *)
Definition float_column (name : string) (df : DataFrame) : Prop :=
  exists c, get_col name df = Some c /\ Forall is_float c.

(** No cell of the table is missing ([not df.isnull().any().any()]). *)
Definition no_missing (df : DataFrame) : Prop :=
  Forall (fun nc => Forall (fun c => is_na c = false) (snd nc)) df.

(** [df'] is [df] after a sequence of assignments of float columns, each
    as long as the table. *)
Inductive derived : DataFrame -> DataFrame -> Prop :=
| derived_refl (df : DataFrame) : derived df df
| derived_set (df df' : DataFrame) (name : string) (l : list float) :
    derived df df' ->
    length l = nrows df' ->
    derived df (set_floats name l df').

(** The columns [create_anomaly_features] standardises. *)
Definition zscore_columns : list string :=
  ["proton_flux"; "electron_flux"; "alpha_flux"; "velocity"; "temperature"].

(** The fill chain of [engineer_features] on one column. *)
Definition fill_column (c : column) : column := fillna0 (ffill (bfill c)).

(** A cell that is not missing. *)
Definition valid (c : cell) : bool := negb (is_na c).

(** What a gap is filled with: the next valid value of the column, else
    the last valid value before it, else 0. *)
Definition filled_value (col : column) (i : nat) : cell :=
  match find valid (skipn i col) with
  | Some x => x
  | None =>
      match find valid (List.rev (firstn i col)) with
      | Some y => y
      | None => CNum 0
      end
  end.

(** ** Training data ([CMEDetector.prepare_training_data]) *)

(** [timedelta(minutes=30)], in nanoseconds. *)
Definition thirty_minutes : Z := 1800000000000%Z.

(** [(ts >= cme_time - 30 min) & (ts <= cme_time + 30 min)] on one cell
    of the timestamp column; a comparison with NaT is false, and a cell
    that is not a Timestamp cannot be compared with one. *)
Definition in_window (cme_time : cell) (c : cell) : result bool :=
  match c with
  | CTime ns =>
      Ok (match cme_time with
          | CTime t => ((t - thirty_minutes <=? ns) && (ns <=? t + thirty_minutes))%Z
          | _ => false
          end)
  | CNaT => Ok false
  | _ => Raise TypeError
  end.

(** [labels[mask] = 1] *)
Definition mark (labels : list Q) (mask : list bool) : result (list Q) :=
  if length mask =? length labels
  then Ok (map (fun p : Q * bool => if snd p then 1%Q else fst p)
               (combine labels mask))
  else Raise IndexError.

Section Preparation.

Variable L : NumLib.

(** One turn of the loop over the rows of the event table. *)
Definition label_event (features_df cme_events_df : DataFrame)
           (labels : list Q) (j : nat) : result (list Q) :=
  col <- getitem "timestamp" cme_events_df ;;
  cme_time <- to_datetime_cell L (nth j col CNaN) ;;
  ts <- getitem "timestamp" features_df ;;
  mask <- mapM (in_window cme_time) ts ;;
  mark labels mask.

(** [prepare_training_data]; the first component is the caller's
    particle table as [engineer_features] leaves it. *)
Definition prepare_training_data (self : CMEDetector)
           (particle_df cme_events_df : DataFrame)
  : DataFrame * result (DataFrame * list Q) :=
  let '(caller, r) := engineer_features L (feature_engineer self) particle_df in
  (caller,
   features_df <- r ;;
   labels <- foldM (label_event features_df cme_events_df)
                   (seq 0 (nrows cme_events_df))
                   (repeat 0%Q (nrows features_df)) ;;
   Ok (features_df, labels)).

(** Row [i] of the feature table lies within thirty minutes of an event
    of the event table. *)
Definition near_event (features_df cme_events_df : DataFrame) (i : nat) : Prop :=
  exists j ecol fcol t ns,
    j < nrows cme_events_df
    /\ get_col "timestamp" cme_events_df = Some ecol
    /\ to_datetime_cell L (nth j ecol CNaN) = Ok (CTime t)
    /\ get_col "timestamp" features_df = Some fcol
    /\ nth_error fcol i = Some (CTime ns)
    /\ (t - thirty_minutes <= ns <= t + thirty_minutes)%Z.

End Preparation.

Module Catalogue.

(** One catalogued event, half an hour after [Sample.telemetry] ends
    but for its last two minutes. *)
Definition events : DataFrame :=
  [ ("timestamp", [CStr "2024-01-01 00:33:00"]);
    ("type", [CStr "halo"]) ].

End Catalogue.

(** ** Model files ([save_models], [load_models])

    What [joblib.dump] writes is a copy of the dictionary [model_data];
    of [self.config] it holds the thresholds, the part of the
    configuration the detector reads. *)

Record model_data : Type :=
  { md_isolation_forest : option matrix;
    md_svm : option matrix;
    md_random_forest : option (matrix * list Q);
    md_scaler : option StandardScaler;
    md_feature_columns : list string;
    md_config : list (string * Q) }.

(** The model files on disk, by path. *)
Definition model_files : Type := string -> option model_data.

Definition write_file (filepath : string) (md : model_data) (fs : model_files)
  : model_files :=
  fun p => if String.eqb p filepath then Some md else fs p.

(** [save_models]: the files afterwards, or the exception. *)
Definition save_models (filepath : string) (self : CMEDetector) (fs : model_files)
  : result model_files :=
  if negb (is_trained self) then Raise (ValueError "No trained models to save")
  else
    let model_data :=
      {| md_isolation_forest := isolation_forest self;
         md_svm := svm self;
         md_random_forest := random_forest self;
         md_scaler := scaler self;
         md_feature_columns := feature_columns self;
         md_config := thresholds self |} in
    Ok (write_file filepath model_data fs).

(** [load_models]: the detector afterwards; [None] when [joblib.load]
    raises FileNotFoundError, which leaves the detector as it was. *)
Definition load_models (filepath : string) (fs : model_files) (self : CMEDetector)
  : option CMEDetector :=
  match fs filepath with
  | None => None
  | Some model_data =>
      Some (set_is_trained true
              (set_feature_columns (md_feature_columns model_data)
                 (set_scaler (md_scaler model_data)
                    (set_random_forest (md_random_forest model_data)
                       (set_svm (md_svm model_data)
                          (set_isolation_forest (md_isolation_forest model_data)
                                                self))))))
  end.

(** ** Alerts ([AlertManager]) and the event table

    The mail, SMS and HTTP transports are outside this development:
    [send_cme_alert] is followed up to the list of tasks it hands to
    [asyncio.gather]. *)

Inductive severity : Type := critical | high | medium | low.

(** [_determine_severity] *)
Definition _determine_severity (event : CMEEvent) : severity :=
  let confidence := ev_confidence event in
  let velocity := ev_velocity event in
  let event_type := ev_type event in
  if match event_type with halo => true | _ => false end
     && Qlt_bool (9 # 10) confidence
     && fgt velocity (Some 1000%Q)
  then critical
  else if match event_type with halo | partial_halo => true | non_halo => false end
          && Qlt_bool (8 # 10) confidence
  then high
  else if Qlt_bool (7 # 10) confidence then medium
  else low.

Inductive channel : Type := email | sms | webhook.

(** What [send_cme_alert] reads of the manager and the configuration:
    whether a Twilio client was created, and whether a webhook URL is
    configured and enabled. *)
Record AlertManager : Type :=
  { twilio_client : bool;
    webhook_configured : bool }.

(** [send_cme_alert]: the tasks, in the order they are appended. *)
Definition send_cme_alert (self : AlertManager) (event : CMEEvent) : list channel :=
  let severity := _determine_severity event in
  let tasks := [] in
  let tasks :=
    match severity with
    | high | critical =>
        let tasks := tasks ++ [email] in
        if match severity with critical => true | _ => false end
           && twilio_client self
        then tasks ++ [sms] else tasks
    | _ => tasks
    end in
  if webhook_configured self then tasks ++ [webhook] else tasks.

(** The table [cme_events] as a list of rows in insertion order, and
    the alerts sent so far. *)
Record backend : Type :=
  { cme_events : list CMEEvent;
    alerts : list (CMEEvent * list channel) }.

(** [CMESource(value)] and [CMEStatus(value)] accept the values of the
    enumeration only. *)
Definition valid_source (s : string) : bool :=
  existsb (String.eqb s) ["swis"; "cactus"; "combined"].

Definition valid_status (s : string) : bool :=
  existsb (String.eqb s) ["detected"; "validated"; "false_positive"].

(** [process_detected_event]: an identifier that is already stored ends
    the call; otherwise the row is built (its enumerations checked),
    added and committed, and an alert goes out for a confidence above
    0.8.  The session is followed through the table only: an exception
    of [session.execute] or [session.commit] is outside this definition,
    and what is stated of a call or of the loop is stated of one that
    returns. *)
Definition process_detected_event (am : AlertManager) (event : CMEEvent)
           (b : backend) : result backend :=
  if existsb (fun row => String.eqb (ev_id row) (ev_id event)) (cme_events b)
  then Ok b
  else if negb (valid_source (ev_source event))
  then Raise (ValueError ("'" ++ ev_source event ++ "' is not a valid CMESource"))
  else if negb (valid_status (ev_status event))
  then Raise (ValueError ("'" ++ ev_status event ++ "' is not a valid CMEStatus"))
  else
    let rows := cme_events b ++ [event] in
    if Qlt_bool (8 # 10) (ev_confidence event)
    then Ok {| cme_events := rows;
               alerts := alerts b ++ [(event, send_cme_alert am event)] |}
    else Ok {| cme_events := rows; alerts := alerts b |}.


Module Desk.

(** A manager with a Twilio client and no webhook. *)
Definition manager : AlertManager :=
  {| twilio_client := true; webhook_configured := false |}.

(** A fast halo detected with confidence 0.95. *)
Definition fast_halo : CMEEvent :=
  {| ev_id := "SWIS_20240101_000300";
     ev_timestamp := 1704067380000000000;
     ev_type := halo;
     ev_velocity := Some 1200%Q;
     ev_width := 360;
     ev_acceleration := 0;
     ev_confidence := (95 # 100)%Q;
     ev_source := "swis";
     ev_status := "detected";
     ev_latitude := 0;
     ev_longitude := 0;
     ev_magnitude := 10 |}.

(** An empty event table, nothing sent yet. *)
Definition empty : backend := {| cme_events := []; alerts := [] |}.

End Desk.

(** ** Configuration ([Config.get], and what the constructors read) *)

(** A YAML document as [yaml.safe_load] returns it; a mapping is given
    by its entries, with one entry per key. *)
#[warnings="-register-all"] Inductive yaml : Type :=
| YNull
| YBool (b : bool)
| YNum (q : Q)
| YStr (s : string)
| YList (l : list yaml)
| YDict (d : list (string * yaml)).

(** [d[k]] for a key that may be missing. *)
Fixpoint lookup (k : string) (d : list (string * yaml)) : option yaml :=
  match d with
  | [] => None
  | (k', v) :: d' => if String.eqb k' k then Some v else lookup k d'
  end.

(** [key.split('.')] *)
Fixpoint split_dots (key : string) : list string :=
  match key with
  | EmptyString => [EmptyString]
  | String c rest =>
      if Ascii.eqb c "."%char then EmptyString :: split_dots rest
      else match split_dots rest with
           | h :: t => String c h :: t
           | [] => [String c EmptyString]
           end
  end.

(** The loop of [Config.get]: [None] when it returns the default. *)
Fixpoint descend (keys : list string) (value : yaml) : option yaml :=
  match keys with
  | [] => Some value
  | k :: keys' =>
      match value with
      | YDict d =>
          match lookup k d with
          | Some v => descend keys' v
          | None => None
          end
      | _ => None
      end
  end.

(** [Config.get(key, default)] on the loaded document. *)
Definition config_get (_config : yaml) (key : string) (default : yaml) : yaml :=
  match descend (split_dots key) _config with
  | Some v => v
  | None => default
  end.

(** [dict.get(key, default)]; anything but a mapping has no [get]. *)
Definition dict_get (d : yaml) (key : string) (default : yaml) : result yaml :=
  match d with
  | YDict entries =>
      Ok (match lookup key entries with Some v => v | None => default end)
  | _ => Raise AttributeError
  end.

(** A list of window lengths, when the value is one. *)
Definition window_of (v : yaml) : option nat :=
  match v with
  | YNum q => if is_integer q && (0 <=? Qnum q)%Z
              then Some (Z.to_nat (Qnum q / Zpos (Qden q))) else None
  | _ => None
  end.

Fixpoint windows_of_list (l : list yaml) : option (list nat) :=
  match l with
  | [] => Some []
  | v :: l' =>
      match window_of v, windows_of_list l' with
      | Some w, Some ws => Some (w :: ws)
      | _, _ => None
      end
  end.

Definition windows_of (v : yaml) : option (list nat) :=
  match v with
  | YList l => windows_of_list l
  | _ => None
  end.

Definition yaml_windows (l : list nat) : yaml :=
  YList (map (fun w => YNum (inject_Z (Z.of_nat w))) l).

(** [FeatureEngineer.__init__(config)], called with the loaded document
    itself ([config._config]), so that [config.get] is [dict.get].  The
    result is [Ok None] when a setting is not a list of window lengths:
    the object is built, but feature engineering with it is not
    followed here. *)
Definition FeatureEngineer_init (config : yaml) : result (option FeatureEngineer) :=
  ma <- dict_get config "detection.features.moving_average_windows"
                 (yaml_windows [5; 10; 30; 60]) ;;
  gr <- dict_get config "detection.features.gradient_windows"
                 (yaml_windows [1; 5; 15]) ;;
  st <- dict_get config "detection.features.statistical_windows"
                 (yaml_windows [60; 180; 360]) ;;
  Ok (match windows_of ma, windows_of gr, windows_of st with
      | Some m, Some g, Some s =>
          Some {| moving_avg_windows := m;
                  gradient_windows := g;
                  statistical_windows := s |}
      | _, _, _ => None
      end).

(** A key without a dot. *)
Fixpoint dotless (key : string) : bool :=
  match key with
  | EmptyString => true
  | String c rest => negb (Ascii.eqb c "."%char) && dotless rest
  end.

Module Settings.

(** A document that configures a velocity threshold and, nested as the
    keys of [FeatureEngineer.__init__] suggest, two moving-average
    windows. *)
Definition document : yaml :=
  YDict [ ("detection",
           YDict [ ("thresholds", YDict [("velocity_threshold", YNum 450)]);
                   ("features",
                    YDict [("moving_average_windows",
                            YList [YNum 2; YNum 4])]) ]) ].

End Settings.

(** * Theorems *)

Lemma chain_snoc {A : Type} (R : A -> A -> Prop) (l : list A) (d x : A) :
  chain R l -> (l = [] \/ R (last l d) x) -> chain R (l ++ [x]).
Proof.
  induction l as [|a [|b t] IH]; intros Hc Hl; simpl in *.
  - exact I.
  - destruct Hl as [Hl|Hl]; [discriminate|]. split; [exact Hl|exact I].
  - destruct Hc as [Hab Hc]. split; [exact Hab|].
    apply IH; [exact Hc|]. right.
    destruct Hl as [Hl|Hl]; [discriminate|exact Hl].
Qed.

Section Grouping.

Variable g : Z.

Lemma fold_group_step (rest : list nat) (groups : list (list nat))
      (cur : list nat) (prev : nat) :
  (let '(gs, c, _) := fold_left (group_step g) rest (groups, cur, prev) in
   gs ++ [c]) = groups ++ runs_from g cur prev rest.
Proof.
  revert groups cur prev.
  induction rest as [|x rest IH]; intros groups cur prev; simpl.
  - reflexivity.
  - destruct (Z.of_nat x - Z.of_nat prev <=? g)%Z.
    + apply IH.
    + rewrite IH. rewrite <- app_assoc. reflexivity.
Qed.

Lemma runs_from_head (l : list nat) (cur : list nat) (prev : nat) :
  cur <> [] ->
  exists h t, runs_from g cur prev l = h :: t /\ hd 0 h = hd 0 cur.
Proof.
  revert cur prev.
  induction l as [|x l IH]; intros cur prev Hne; simpl.
  - exists cur, []. split; reflexivity.
  - destruct (Z.of_nat x - Z.of_nat prev <=? g)%Z.
    + destruct (IH (cur ++ [x]) x) as (h & t & E & Hh).
      { destruct cur; discriminate. }
      exists h, t. split; [exact E|].
      rewrite Hh. destruct cur; [contradiction|reflexivity].
    + exists cur, (runs_from g [x] x l). split; reflexivity.
Qed.

Lemma runs_from_spec (l : list nat) (cur : list nat) (prev : nat) :
  cur <> [] -> last cur 0 = prev -> chain (within_gap g) cur ->
  maximal_runs g (cur ++ l) (runs_from g cur prev l).
Proof.
  revert cur prev.
  induction l as [|x l IH]; intros cur prev Hne Hlast Hc; simpl.
  - constructor; simpl; auto. 
  - destruct (Z.of_nat x - Z.of_nat prev <=? g)%Z eqn:E.
    + replace (cur ++ x :: l) with ((cur ++ [x]) ++ l)
        by (rewrite <- app_assoc; reflexivity).
      apply IH.
      * destruct cur; discriminate.
      * apply last_last.
      * apply chain_snoc with (d := 0); [exact Hc|].
        right. rewrite Hlast. apply Z.leb_le in E. exact E.
    + assert (Hx : maximal_runs g ([x] ++ l) (runs_from g [x] x l)).
      { apply IH; [discriminate|reflexivity|exact I]. }
      destruct Hx as [Hcov Hnon Hclose Hmax].
      destruct (runs_from_head l [x] x) as (h & t & Eh & Hh); [discriminate|].
      constructor.
      * simpl. rewrite Hcov. reflexivity.
      * constructor; assumption.
      * constructor; assumption.
      * rewrite Eh in *. simpl. split; [|exact Hmax].
        unfold gap_between. rewrite Hh, Hlast. simpl.
        apply Z.leb_gt in E. lia.
Qed.

End Grouping.

Lemma grouping_maximal_runs (indices : list nat) (g : Z) :
  maximal_runs g indices (_group_consecutive_detections indices g).
Proof.
  destruct indices as [|i0 rest].
  - constructor; simpl; auto.
  - unfold _group_consecutive_detections.
    pose proof (fold_group_step g rest [] [i0] i0) as H.
    destruct (fold_left (group_step g) rest ([], [i0], i0)) as [[gs c] p].
    rewrite H. simpl.
    apply (runs_from_spec g rest [i0] i0); [discriminate|reflexivity|exact I].
Qed.

(** C7.  The grouping splits any list of selected row positions into
    maximal runs: the groups concatenate back to the input, none is
    empty, neighbours inside a group differ by at most the gap, and a
    new group starts exactly where the difference exceeds the gap.  The
    empty list gives no group, and the three sample groupings hold. *)
Theorem group_consecutive_detections_maximal_runs :
  (forall (indices : list nat) (g : Z),
      maximal_runs g indices (_group_consecutive_detections indices g))
  /\ (forall g : Z, _group_consecutive_detections [] g = [])
  /\ _group_consecutive_detections [1; 2; 3; 5; 6; 10] 1 = [[1; 2; 3]; [5; 6]; [10]]
  /\ _group_consecutive_detections [1; 2; 3; 4; 5] 1 = [[1; 2; 3; 4; 5]].
Proof.
  split; [|split; [|split]]; try reflexivity.
  exact grouping_maximal_runs.
Qed.

(** The remaining case of the repository's own test of the grouping
    ([test_group_consecutive_detections]): no two indices are close. *)
Example group_no_consecutive :
  _group_consecutive_detections [1; 5; 10] 1 = [[1]; [5]; [10]].
Proof. reflexivity. Qed.

(** ** Comparisons and the first maximum *)

Lemma Qlt_bool_iff (x y : Q) : Qlt_bool x y = true <-> (x < y)%Q.
Proof.
  unfold Qlt_bool. rewrite negb_true_iff. split.
  - intros H. apply Qnot_le_lt. intros Hle.
    apply Qle_bool_iff in Hle. congruence.
  - intros H. destruct (Qle_bool y x) eqn:Hb; [|reflexivity].
    apply Qle_bool_iff in Hb. exfalso. exact (Qlt_not_le _ _ H Hb).
Qed.

Lemma Qlt_bool_false_iff (x y : Q) : Qlt_bool x y = false <-> (y <= x)%Q.
Proof.
  unfold Qlt_bool. rewrite negb_false_iff. apply Qle_bool_iff.
Qed.

Lemma argmax_from_first_max (l pre : list Q) (best_i : nat) (best : Q) :
  first_max pre best_i best ->
  exists m, first_max (pre ++ l) (argmax_from best_i best (length pre) l) m.
Proof.
  revert pre best_i best.
  induction l as [|x l IH]; intros pre best_i best (Hn & Hall & Hbefore); simpl.
  - rewrite app_nil_r. exists best. repeat split; assumption.
  - assert (Hlt : best_i < length pre).
    { apply nth_error_Some. rewrite Hn. discriminate. }
    replace (pre ++ x :: l) with ((pre ++ [x]) ++ l)
      by (rewrite <- app_assoc; reflexivity).
    replace (S (length pre)) with (length (pre ++ [x]))
      by (rewrite length_app; simpl; lia).
    destruct (Qlt_bool best x) eqn:Hc.
    + apply Qlt_bool_iff in Hc.
      apply IH. repeat split.
      * rewrite nth_error_app2 by lia. rewrite Nat.sub_diag. reflexivity.
      * intros j y Hj.
        destruct (Nat.lt_ge_cases j (length pre)) as [Hjl|Hjl].
        -- rewrite nth_error_app1 in Hj by exact Hjl.
           apply Qlt_le_weak. eapply Qle_lt_trans; [eapply Hall; exact Hj|exact Hc].
        -- rewrite nth_error_app2 in Hj by exact Hjl.
           destruct (j - length pre) as [|n]; simpl in Hj.
           ++ injection Hj as <-. apply Qle_refl.
           ++ destruct n; discriminate.
      * intros j y Hjl Hj.
        rewrite nth_error_app1 in Hj by exact Hjl.
        eapply Qle_lt_trans; [eapply Hall; exact Hj|exact Hc].
    + apply Qlt_bool_false_iff in Hc.
      apply IH. repeat split.
      * rewrite nth_error_app1 by exact Hlt. exact Hn.
      * intros j y Hj.
        destruct (Nat.lt_ge_cases j (length pre)) as [Hjl|Hjl].
        -- rewrite nth_error_app1 in Hj by exact Hjl. eapply Hall; exact Hj.
        -- rewrite nth_error_app2 in Hj by exact Hjl.
           destruct (j - length pre) as [|n]; simpl in Hj.
           ++ injection Hj as <-. exact Hc.
           ++ destruct n; discriminate.
      * intros j y Hjl Hj.
        rewrite nth_error_app1 in Hj by lia.
        eapply Hbefore; [exact Hjl|exact Hj].
Qed.

Lemma argmax_first_max (l : list Q) :
  l <> [] -> exists k m, argmax l = Ok k /\ first_max l k m.
Proof.
  destruct l as [|x l]; [congruence|]. intros _.
  destruct (argmax_from_first_max l [x] 0 x) as (m & Hm).
  - repeat split.
    + intros [|j] y Hj; simpl in Hj.
      * injection Hj as <-. apply Qle_refl.
      * destruct j; discriminate.
    + intros j y Hj. lia.
  - exists (argmax_from 0 x 1 l), m. split; [reflexivity|exact Hm].
Qed.

Lemma mapM_Forall2 {A B : Type} (f : A -> result B) (l : list A) (r : list B) :
  mapM f l = Ok r -> Forall2 (fun a b => f a = Ok b) l r.
Proof.
  revert r. induction l as [|a l IH]; intros r H; simpl in H.
  - injection H as <-. constructor.
  - destruct (f a) eqn:Ha; simpl in H; [|discriminate].
    destruct (mapM f l) eqn:Hl; simpl in H; [|discriminate].
    injection H as <-. constructor; [exact Ha|apply IH; reflexivity].
Qed.

Lemma mapM_ok {A B : Type} (f : A -> result B) (l : list A) :
  Forall (fun a => exists b, f a = Ok b) l -> exists r, mapM f l = Ok r.
Proof.
  induction 1 as [|a l (b & Hb) _ (r & Hr)]; simpl.
  - exists []. reflexivity.
  - rewrite Hb. simpl. rewrite Hr. simpl. exists (b :: r). reflexivity.
Qed.

Lemma Forall2_nth_error {A B : Type} (R : A -> B -> Prop) (l : list A) (r : list B) :
  Forall2 R l r ->
  forall k, match nth_error l k, nth_error r k with
            | Some a, Some b => R a b
            | None, None => True
            | _, _ => False
            end.
Proof.
  induction 1 as [|a b l r Hab _ IH]; intros [|k]; simpl; auto.
  apply IH.
Qed.




(** ** The groups handed to the event builder are ascending *)

Lemma where_true_from (mask : list bool) (start i : nat) :
  In i (map fst (filter snd (combine (seq start (length mask)) mask))) ->
  start <= i /\ nth_error mask (i - start) = Some true.
Proof.
  revert start. induction mask as [|b mask IH]; intros start H; simpl in H.
  - contradiction.
  - destruct b; simpl in H.
    + destruct H as [<-|H].
      * rewrite Nat.sub_diag. split; [lia|reflexivity].
      * apply IH in H. destruct H as [Hle Hn].
        split; [lia|]. replace (i - start) with (S (i - S start)) by lia.
        exact Hn.
    + apply IH in H. destruct H as [Hle Hn].
      split; [lia|]. replace (i - start) with (S (i - S start)) by lia.
      exact Hn.
Qed.

Lemma where_true_spec (mask : list bool) (i : nat) :
  In i (where_true mask) -> nth_error mask i = Some true.
Proof.
  intros H. apply where_true_from in H. rewrite Nat.sub_0_r in H. apply H.
Qed.



Lemma chain_app_inv {A : Type} (R : A -> A -> Prop) (l1 l2 : list A) :
  chain R (l1 ++ l2) -> chain R l1 /\ chain R l2.
Proof.
  induction l1 as [|a [|b t] IH]; simpl; intros H.
  - split; [exact I|exact H].
  - split; [exact I|]. destruct l2; [exact I|apply H].
  - destruct H as [Hab H]. destruct (IH H) as [H1 H2].
    split; [split; assumption|exact H2].
Qed.

Lemma chain_concat {A : Type} (R : A -> A -> Prop) (groups : list (list A)) :
  chain R (concat groups) -> Forall (chain R) groups.
Proof.
  induction groups as [|G groups IH]; simpl; intros H; constructor.
  - apply (chain_app_inv R G (concat groups) H).
  - apply IH. apply (chain_app_inv R G (concat groups) H).
Qed.

Lemma where_true_from_chain (mask : list bool) (start : nat) :
  chain lt (map fst (filter snd (combine (seq start (length mask)) mask))).
Proof.
  revert start. induction mask as [|b mask IH]; intros start; simpl; [exact I|].
  destruct b; simpl; [|apply IH].
  pose proof (IH (S start)) as Hc.
  destruct (map fst (filter snd (combine (seq (S start) (length mask)) mask)))
    as [|x t] eqn:E; [exact I|].
  split; [|exact Hc].
  assert (Hx : In x (map fst (filter snd (combine (seq (S start) (length mask)) mask))))
    by (rewrite E; left; reflexivity).
  apply where_true_from in Hx. lia.
Qed.

Lemma segmenter_groups_ascending (mask : list bool) (g : Z) :
  Forall (chain lt) (_group_consecutive_detections (where_true mask) g).
Proof.
  apply chain_concat.
  destruct (grouping_maximal_runs (where_true mask) g) as [Hcover _ _ _].
  rewrite Hcover. apply where_true_from_chain.
Qed.

(** ** Event characterisation *)

Section EventFacts.

Variable L : NumLib.
Variable G : Rng.

Lemma take_scores_ok (scores : list Q) (indices : list nat) :
  Forall (fun i => i < length scores) indices ->
  exists gs, take_scores scores indices = Ok gs.
Proof.
  intros H. apply mapM_ok.
  eapply Forall_impl; [|exact H]. intros i Hi. simpl in Hi.
  destruct (nth_error scores i) eqn:E; [eauto|].
  apply nth_error_None in E. lia.
Qed.

Lemma take_scores_nth (scores : list Q) (indices : list nat) (gs : list Q) :
  take_scores scores indices = Ok gs ->
  forall k, match nth_error indices k, nth_error gs k with
            | Some i, Some x => nth_error scores i = Some x
            | None, None => True
            | _, _ => False
            end.
Proof.
  intros H k. apply mapM_Forall2 in H.
  pose proof (Forall2_nth_error _ _ _ H k) as Hk.
  destruct (nth_error indices k) as [i|], (nth_error gs k) as [x|]; auto.
  destruct (nth_error scores i); [congruence|discriminate].
Qed.






Lemma create_cme_event_confidence (features_df : DataFrame) (scores : list Q)
      (indices : list nat) (s s' : nat) (e : CMEEvent) :
  _create_cme_event L G features_df scores indices s = (s', Ok e) ->
  In (ev_confidence e) scores.
Proof.
  unfold _create_cme_event, mbind, lift, raise, ret.
  destruct (take_scores scores indices) as [gs|]; [|discriminate].
  destruct (argmax gs) as [k|]; [|discriminate].
  destruct (nrows features_df <=? nth k indices 0); [discriminate|].
  destruct (nth_error scores (nth k indices 0)) as [c|] eqn:Hc; [|discriminate].
  destruct (classify _ _) as [t|]; [|discriminate].
  destruct (draw_width G t s) as [s1 [w|]]; [|discriminate].
  destruct (peak_timestamp _ _) as [ts|]; [|discriminate].
  destruct (float_of_cell _) as [v|]; [|discriminate].
  unfold normal, uniform. intros H. injection H as _ <-. simpl.
  eapply nth_error_In. exact Hc.
Qed.

Lemma create_events_confidence (features_df : DataFrame) (scores : list Q)
      (groups : list (list nat)) :
  forall s s' es,
    create_events L G features_df scores groups s = (s', Ok es) ->
    Forall (fun e => In (ev_confidence e) scores) es.
Proof.
  induction groups as [|g groups IH]; intros s s' es H; simpl in H.
  - unfold ret in H. injection H as _ <-. constructor.
  - unfold mbind in H.
    destruct (_create_cme_event L G features_df scores g s) as [s1 [e|]] eqn:He;
      [|discriminate].
    destruct (create_events L G features_df scores groups s1) as [s2 [es'|]] eqn:Hes;
      [|discriminate].
    unfold ret in H. injection H as _ <-.
    constructor.
    + eapply create_cme_event_confidence. exact He.
    + eapply IH. exact Hes.
Qed.

Lemma extract_events_confidence (features_df : DataFrame) (scores : list Q)
      (mask : list bool) (s s' : nat) (es : list CMEEvent) :
  extract_events L G features_df scores mask s = (s', Ok es) ->
  Forall (fun e => In (ev_confidence e) scores) es.
Proof.
  unfold extract_events.
  destruct (existsb (fun b => b) mask).
  - apply create_events_confidence.
  - unfold ret. intros H. injection H as _ <-. constructor.
Qed.

(** C10.  While the detector is untrained, every event the detection
    operation returns has confidence 0.8, whatever the telemetry holds. *)
Theorem untrained_detection_confidence
        (E : Estimators) (self : CMEDetector) (particle_df : DataFrame) :
  is_trained self = false ->
  forall caller run s s' events,
    detect_cme_events L G E self particle_df = (caller, run) ->
    run s = (s', Ok events) ->
    Forall (fun e => ev_confidence e = (8 # 10)%Q) events.
Proof.
  intros Hun caller run s s' events Hdet Hrun.
  unfold detect_cme_events in Hdet. rewrite Hun in Hdet. simpl in Hdet.
  unfold rule_based_detection in Hdet.
  destruct (engineer_features L (feature_engineer self) particle_df) as [c r].
  injection Hdet as _ <-.
  unfold mbind, lift in Hrun.
  destruct r as [features_df|]; [|discriminate].
  destruct (gt_mask features_df "velocity" 0 _) as [mv|]; [|discriminate].
  destruct (gt_mask features_df "proton_flux" 0 _) as [mf|]; [|discriminate].
  apply extract_events_confidence in Hrun.
  eapply Forall_impl; [|exact Hrun].
  intros e He. simpl in He. apply repeat_spec in He. exact He.
Qed.


(** ** The segmenter and the length of the score series *)

Lemma create_cme_event_returns (features_df : DataFrame) (scores : list Q)
      (indices : list nat) (s : nat) :
  indices <> [] ->
  Forall (fun i => i < length scores) indices ->
  Forall (fun i => i < nrows features_df) indices ->
  Forall (row_ready features_df) indices ->
  exists e s', _create_cme_event L G features_df scores indices s = (s', Ok e).
Proof.
  intros Hne Hin Hrows Hready.
  destruct (take_scores_ok scores indices Hin) as (gs & Hgs).
  assert (Hgne : gs <> []).
  { intros ->. apply mapM_Forall2 in Hgs. inversion Hgs; subst. congruence. }
  destruct (argmax_first_max gs Hgne) as (k & m & Hk & (Hkm & _)).
  pose proof (take_scores_nth _ _ _ Hgs k) as Hnth. rewrite Hkm in Hnth.
  destruct (nth_error indices k) as [peak|] eqn:Ek; [|contradiction].
  assert (Hpin : In peak indices) by (eapply nth_error_In; exact Ek).
  rewrite Forall_forall in Hrows, Hready.
  destruct (Hready peak Hpin) as ((ns & Hns) & (v & Hv) & (p & Hp)).
  pose proof (Hrows peak Hpin) as Hplt.
  unfold _create_cme_event, mbind, lift.
  rewrite Hgs, Hk. rewrite (nth_error_nth _ _ 0 Ek).
  replace (nrows features_df <=? peak) with false
    by (symmetry; apply Nat.leb_gt; lia).
  rewrite Hnth. unfold classify. rewrite Hv, Hp, Hns. simpl bind.
  destruct (fgt v (Some 800%Q)), (fgt p (Some 2000%Q)),
           (fgt v (Some 600%Q)), (fgt p (Some 1500%Q));
    simpl; eexists _, _; reflexivity.
Qed.

Lemma create_events_returns (features_df : DataFrame) (scores : list Q)
      (groups : list (list nat)) :
  Forall (fun g => g <> []) groups ->
  Forall (fun i => i < length scores /\ i < nrows features_df
                   /\ row_ready features_df i) (concat groups) ->
  forall s, exists es s',
    create_events L G features_df scores groups s = (s', Ok es).
Proof.
  induction groups as [|g groups IH]; intros Hne Hall s; simpl.
  - exists [], s. reflexivity.
  - simpl in Hall. apply Forall_app in Hall. destruct Hall as [Hg Hrest].
    inversion Hne as [|? ? Hgne Hne']; subst.
    destruct (create_cme_event_returns features_df scores g s) as (e & s1 & He).
    + exact Hgne.
    + eapply Forall_impl; [|exact Hg]. intros i Hi. apply Hi.
    + eapply Forall_impl; [|exact Hg]. intros i Hi. apply Hi.
    + eapply Forall_impl; [|exact Hg]. intros i Hi. apply Hi.
    + destruct (IH Hne' Hrest s1) as (es & s2 & Hes).
      unfold mbind. rewrite He, Hes. exists (e :: es), s2. reflexivity.
Qed.

Lemma existsb_all_false {A : Type} (f : A -> bool) (l : list A) :
  (forall x, In x l -> f x = false) -> existsb (fun b => b) (map f l) = false.
Proof.
  induction l as [|a l IH]; intros H; simpl; [reflexivity|].
  rewrite (H a) by (left; reflexivity). simpl.
  apply IH. intros x Hx. apply H. right. exact Hx.
Qed.

(** C5, as the code has it.  A score series that selects no row yields
    the empty event list without raising, whatever its length.  The
    length of the score series is never compared with the number of
    rows: when every selected position is a row of the table (and the
    rows can be characterised) the segmenter returns a list of events. *)
Theorem segment_events_no_length_check
        (features_df : DataFrame) (scores : list Q) (threshold : Q) (s : nat) :
  ((forall x, In x scores -> (x <= threshold)%Q) ->
   segment_events L G features_df scores threshold s = (s, Ok []))
  /\ ((forall i, i < nrows features_df -> row_ready features_df i) ->
      (forall i x, nth_error scores i = Some x -> (threshold < x)%Q ->
                   i < nrows features_df) ->
      exists events s',
        segment_events L G features_df scores threshold s = (s', Ok events)).
Proof.
  split.
  - intros Hlow. unfold segment_events, extract_events.
    rewrite existsb_all_false; [reflexivity|].
    intros x Hx. apply Qlt_bool_false_iff. apply Hlow. exact Hx.
  - intros Hready Hsel. unfold segment_events, extract_events.
    set (mask := map (fun x => Qlt_bool threshold x) scores).
    destruct (existsb (fun b => b) mask); [|exists [], s; reflexivity].
    destruct (grouping_maximal_runs (where_true mask) default_max_gap)
      as [Hcover Hnonempty _ _].
    apply create_events_returns; [exact Hnonempty|].
    rewrite Hcover. apply Forall_forall. intros i Hi.
    apply where_true_spec in Hi. unfold mask in Hi.
    rewrite nth_error_map in Hi.
    destruct (nth_error scores i) as [x|] eqn:Ex; [|discriminate].
    simpl in Hi. injection Hi as Hi. apply Qlt_bool_iff in Hi.
    assert (Hrow : i < nrows features_df) by (eapply Hsel; eassumption).
    split; [|split; [exact Hrow|apply Hready; exact Hrow]].
    apply nth_error_Some. rewrite Ex. discriminate.
Qed.

End EventFacts.


(** On the sample telemetry the untrained detector returns an event, and
    its confidence is 0.8. *)
Lemma untrained_detection_confidence_witness :
  exists events,
    snd (snd (detect_cme_events Sample.lib Sample.rng Sample.estimators
                                Sample.untrained Sample.telemetry) 0)
    = Ok events
    /\ events <> []
    /\ Forall (fun e => ev_confidence e = (8 # 10)%Q) events.
Proof.
  eexists. split; [vm_compute; reflexivity|]. split; [discriminate|].
  eapply (untrained_detection_confidence Sample.lib Sample.rng Sample.estimators
            Sample.untrained Sample.telemetry eq_refl _ _ 0 _ _).
  - apply surjective_pairing.
  - vm_compute. reflexivity.
Defined.

(** C5, as stated, fails: a score series one entry longer than the
    table has rows is segmented into events without any exception. *)
Lemma segment_events_mismatch_returns :
  length Sample.long_scores <> nrows Sample.features
  /\ exists e,
       snd (segment_events Sample.lib Sample.rng Sample.features
                           Sample.long_scores (7 # 10) 0) = Ok [e].
Proof.
  split; [discriminate|]. eexists. vm_compute. reflexivity.
Qed.

(** Both halves on sample scores: nothing selected, and a series one
    entry longer than the table. *)
Lemma segment_events_no_length_check_witness :
  segment_events Sample.lib Sample.rng Sample.features [(1 # 10); (2 # 10)]%Q (7 # 10) 0
  = (0, Ok [])
  /\ exists events s',
       segment_events Sample.lib Sample.rng Sample.features Sample.long_scores
                      (7 # 10) 0 = (s', Ok events).
Proof.
  split.
  - apply (segment_events_no_length_check Sample.lib Sample.rng
             Sample.features [(1 # 10); (2 # 10)]%Q (7 # 10) 0).
    intros x [<-|[<-|[]]]; discriminate.
  - apply (segment_events_no_length_check Sample.lib Sample.rng
             Sample.features Sample.long_scores (7 # 10) 0).
    + intros i Hi. simpl in Hi.
      do 5 (destruct i as [|i]; [repeat split; eexists; reflexivity|]).
      lia.
    + intros i x Hx Hlt. simpl.
      do 5 (destruct i as [|i]; [lia|]).
      destruct i as [|i]; simpl in Hx.
      * injection Hx as <-. exfalso. revert Hlt. apply Qle_not_lt. discriminate.
      * destruct i; discriminate.
Defined.

(** ** Training and prediction *)

Section DetectorFacts.

Variable L : NumLib.
Variable E : Estimators.

Lemma scaler_fit_transform_cases (X : list (list cell)) (d : CMEDetector) :
  (exists Xf,
      check_array X = Ok Xf
      /\ scaler_fit_transform L X d
         = (set_scaler (Some (scaler_fit Xf)) (set_scaler None d),
            Ok (map (scaler_transform_row L (scaler_fit Xf)) Xf)))
  \/ (exists e,
         check_array X = Raise e
         /\ scaler_fit_transform L X d = (set_scaler None d, Raise e)).
Proof.
  unfold scaler_fit_transform, mbind, write, lift, ret.
  destruct (check_array X) as [Xf|e].
  - left. exists Xf. split; reflexivity.
  - right. exists e. split; reflexivity.
Qed.

Lemma fit_novelty_cases (assign : option matrix -> CMEDetector -> CMEDetector)
      (X : matrix) (labels : list Q) (d : CMEDetector) :
  (exists normal_data,
      mask_rows X (normal_mask labels) = Ok normal_data
      /\ length X = length labels
      /\ fit_novelty assign X labels d
         = ((if 0 <? length normal_data then assign (Some normal_data) d else d),
            Ok tt))
  \/ (length X <> length labels
      /\ fit_novelty assign X labels d = (d, Raise IndexError)).
Proof.
  unfold fit_novelty, mbind, lift, mask_rows, normal_mask.
  rewrite length_map.
  destruct (length X =? length labels) eqn:Hlen.
  - left. apply Nat.eqb_eq in Hlen. eexists. split; [reflexivity|].
    split; [exact Hlen|].
    destruct (0 <? _); reflexivity.
  - right. apply Nat.eqb_neq in Hlen. split; [exact Hlen|reflexivity].
Qed.

Lemma train_models_run (features_df : DataFrame) (labels : list Q)
      (d : CMEDetector) :
  exists d' r,
    train_models L features_df labels d = (d', r)
    /\ trained_to L features_df labels d d' r.
Proof.
  unfold train_models.
  unfold mbind at 1. unfold write at 1. unfold mbind at 1. unfold read at 1.
  cbn [feature_columns set_feature_columns].
  destruct (columns_present get_feature_importance_columns features_df) as [|c0 cs] eqn:Hav.
  - eexists _, _. split; [reflexivity|]. apply stop_no_columns. exact Hav.
  - assert (Hne : columns_present get_feature_importance_columns features_df <> [])
      by (rewrite Hav; discriminate).
    rewrite <- Hav in *. clear Hav.
    set (d0 := set_feature_columns get_feature_importance_columns d).
    change (values features_df
              (columns_present get_feature_importance_columns features_df))
      with (importance_values features_df).
    set (X := importance_values features_df).
    unfold mbind at 1.
    destruct (scaler_fit_transform_cases X d0) as [(Xf & HXf & Hs)|(e & He & Hs)];
      rewrite Hs.
    + set (X_scaled := map (scaler_transform_row L (scaler_fit Xf)) Xf).
      set (d1 := set_scaler (Some (scaler_fit Xf)) (set_scaler None d0)).
      assert (HlenX : length X_scaled = length Xf)
        by (unfold X_scaled; apply length_map).
      unfold mbind at 1.
      destruct (fit_novelty_cases set_isolation_forest X_scaled labels d1)
        as [(nd & Hnd & Hlen & Hf)|(Hlen & Hf)]; rewrite Hf.
      * unfold mbind at 1.
        set (d2 := if 0 <? length nd then set_isolation_forest (Some nd) d1 else d1).
        destruct (fit_novelty_cases set_svm X_scaled labels d2)
          as [(nd' & Hnd' & _ & Hf')|(Hlen' & _)]; [|congruence].
        rewrite Hf'. assert (nd' = nd) by congruence. subst nd'.
        set (d3 := if 0 <? length nd then set_svm (Some nd) d2 else d2).
        unfold mbind, fit_forest.
        rewrite Hlen, Nat.eqb_refl. simpl negb.
        destruct (forallb is_integer labels) eqn:Hint; simpl;
          eexists _, _; (split; [reflexivity|]).
        -- apply (stop_done L features_df labels d Xf nd Hne HXf Hnd). congruence.
        -- apply (stop_forest L features_df labels d Xf nd Hne HXf Hnd Hint).
      * eexists _, _. split; [reflexivity|].
        apply (stop_mask L features_df labels d Xf Hne HXf). congruence.
    + eexists _, _. split; [reflexivity|].
      apply (stop_scaler L features_df labels d e Hne He).
Qed.

Lemma train_models_trained_to (features_df : DataFrame) (labels : list Q)
      (d d' : CMEDetector) (r : result unit) :
  train_models L features_df labels d = (d', r) ->
  trained_to L features_df labels d d' r.
Proof.
  intros H. destruct (train_models_run features_df labels d) as (d1 & r1 & H1 & Ht).
  rewrite H in H1. injection H1 as <- <-. exact Ht.
Qed.

Lemma train_models_success (features_df : DataFrame) (labels : list Q)
      (d d' : CMEDetector) :
  train_models L features_df labels d = (d', Ok tt) ->
  exists Xf nd,
    check_array (importance_values features_df) = Ok Xf
    /\ mask_rows (map (scaler_transform_row L (scaler_fit Xf)) Xf)
                 (normal_mask labels) = Ok nd
    /\ length Xf = length labels
    /\ is_trained d' = true
    /\ feature_columns d' = get_feature_importance_columns
    /\ scaler d' = Some (scaler_fit Xf)
    /\ random_forest d'
       = Some (map (scaler_transform_row L (scaler_fit Xf)) Xf, labels)
    /\ isolation_forest d'
       = (if 0 <? length nd then Some nd else isolation_forest d)
    /\ svm d' = (if 0 <? length nd then Some nd else svm d).
Proof.
  intros Hrun. apply train_models_trained_to in Hrun.
  inversion Hrun as [| | | |Xf nd Hne Hchk Hmask Hlen]; subst; clear Hrun.
  exists Xf, nd.
  split; [exact Hchk|]. split; [exact Hmask|]. split; [exact Hlen|].
  destruct (0 <? length nd); repeat split; reflexivity.
Qed.

Lemma mapM_raise {A B : Type} (f : A -> result B) (l : list A) (e : exception) :
  mapM f l = Raise e -> exists a, In a l /\ f a = Raise e.
Proof.
  induction l as [|a l IH]; simpl; [discriminate|].
  destruct (f a) eqn:Ha; simpl.
  - destruct (mapM f l); simpl; [discriminate|].
    intros H. injection H as <-.
    destruct IH as (x & Hx & Hfx); [reflexivity|]. exists x. auto.
  - intros H. injection H as <-. exists a. auto.
Qed.

Lemma check_array_raise (X : list (list cell)) (e : exception) :
  check_array X = Raise e ->
  e <> ValueError "No feature columns available for training".
Proof.
  unfold check_array. destruct X as [|r X].
  - intros H. injection H as <-. discriminate.
  - intros H. apply mapM_raise in H. destruct H as (row & _ & H).
    apply mapM_raise in H. destruct H as (c & _ & H).
    destruct c; simpl in H; try discriminate; injection H as <-; discriminate.
Qed.

(** C2, as the code has it.  When a training call on a trained
    detector raises, the trained flag stays set, the column list is the
    fixed importance list as before, and the supervised classifier is
    the one fitted before; if the call stopped because no usable
    feature column is present, the whole state is as before.  A call
    that stops later has already reset the Scaler, or refitted it on
    the new table. *)
Theorem failed_training_effects
        (features_df : DataFrame) (labels : list Q) (d d' : CMEDetector)
        (e : exception) :
  is_trained d = true ->
  feature_columns d = get_feature_importance_columns ->
  train_models L features_df labels d = (d', Raise e) ->
  is_trained d' = true
  /\ feature_columns d' = feature_columns d
  /\ random_forest d' = random_forest d
  /\ (e = ValueError "No feature columns available for training" -> d' = d)
  /\ (e <> ValueError "No feature columns available for training" ->
      scaler d' = None
      \/ exists Xf,
           check_array (importance_values features_df) = Ok Xf
           /\ scaler d' = Some (scaler_fit Xf)).
Proof.
  intros Htr Hcols Hrun.
  apply train_models_trained_to in Hrun.
  inversion Hrun as [Hav|e0 Hne Hchk|Xf Hne Hchk Hlen
                     |Xf nd Hne Hchk Hmask Hint|]; subst; clear Hrun.
  - repeat split; simpl; try congruence.
    intros _. unfold set_feature_columns. rewrite <- Hcols.
    destruct d; reflexivity.
  - split; [exact Htr|]. split; [simpl; congruence|]. split; [reflexivity|].
    split.
    + intros ->. exfalso. exact (check_array_raise _ _ Hchk eq_refl).
    + intros _. left. reflexivity.
  - split; [exact Htr|]. split; [simpl; congruence|]. split; [reflexivity|].
    split; [discriminate|].
    intros _. right. exists Xf. split; [exact Hchk|reflexivity].
  - destruct (0 <? length nd);
      (split; [exact Htr|]; split; [simpl; congruence|]; split; [reflexivity|];
       split; [discriminate|];
       intros _; right; exists Xf; split; [exact Hchk|reflexivity]).
Qed.

Lemma filter_mask_all_false {A : Type} (X : list A) (mask : list bool) :
  (forall b, In b mask -> b = false) ->
  filter snd (combine X mask) = [].
Proof.
  revert mask. induction X as [|x X IH]; intros [|b mask] H; simpl; try reflexivity.
  rewrite (H b) by (left; reflexivity). apply IH.
  intros b' Hb'. apply H. right. exact Hb'.
Qed.

Lemma mask_rows_no_normal (X : matrix) (labels : list Q) (nd : matrix) :
  (forall y, In y labels -> Qeq_bool y 0 = false) ->
  mask_rows X (normal_mask labels) = Ok nd -> nd = [].
Proof.
  intros Hno. unfold mask_rows.
  destruct (length X =? length (normal_mask labels)); [|discriminate].
  intros H. injection H as <-.
  rewrite filter_mask_all_false; [reflexivity|].
  intros b Hb. unfold normal_mask in Hb. apply in_map_iff in Hb.
  destruct Hb as (y & <- & Hy). apply Hno. exact Hy.
Qed.

(** C1, what the code does.  When no row is labelled 0, a first
    training call that returns leaves both novelty detectors unfitted
    and marks the detector trained; every later prediction then raises,
    on every feature table, instead of averaging the fitted models. *)
Theorem prediction_raises_after_skipped_detector
        (th : list (string * Q)) (fe : FeatureEngineer)
        (features_df : DataFrame) (labels : list Q) (d' : CMEDetector) :
  (forall y, In y labels -> Qeq_bool y 0 = false) ->
  train_models L features_df labels (new_detector th fe) = (d', Ok tt) ->
  is_trained d' = true
  /\ isolation_forest d' = None
  /\ svm d' = None
  /\ forall ft, exists e, predict_cme_probability L E d' ft = Raise e.
Proof.
  intros Hno Hrun.
  destruct (train_models_success _ _ _ _ Hrun)
    as (Xf & nd & _ & Hmask & _ & Htr & _ & _ & _ & Hif & Hsvm).
  apply (mask_rows_no_normal _ _ _ Hno) in Hmask. subst nd.
  simpl in Hif, Hsvm.
  split; [exact Htr|]. split; [exact Hif|]. split; [exact Hsvm|].
  intros ft. unfold predict_cme_probability. rewrite Htr. cbn [negb].
  destruct (scaler_transform L _ _) as [Xs|e]; cbn [bind].
  - rewrite Hif. exists NotFittedError. reflexivity.
  - exists e. reflexivity.
Qed.

(** *** Shapes of the arrays *)

Lemma mapM_length {A B : Type} (f : A -> result B) (l : list A) (r : list B) :
  mapM f l = Ok r -> length r = length l.
Proof.
  intros H. apply mapM_Forall2 in H. symmetry. eapply Forall2_length. exact H.
Qed.

Lemma values_length (df : DataFrame) (cols : list string) :
  length (values df cols) = nrows df.
Proof. unfold values. rewrite length_map, length_seq. reflexivity. Qed.

Lemma values_rows (df : DataFrame) (cols : list string) :
  Forall (fun r => length r = length cols) (values df cols).
Proof.
  unfold values. apply Forall_forall. intros r Hr.
  apply in_map_iff in Hr. destruct Hr as (i & <- & _). apply length_map.
Qed.

Lemma check_array_shape (X : list (list cell)) (Xf : matrix) (k : nat) :
  check_array X = Ok Xf ->
  Forall (fun r => length r = k) X ->
  Xf <> [] /\ length Xf = length X /\ Forall (fun r => length r = k) Xf.
Proof.
  unfold check_array. destruct X as [|r0 X]; [discriminate|].
  intros H Hk. pose proof (mapM_length _ _ _ H) as Hlen.
  split; [destruct Xf; [discriminate|discriminate]|].
  split; [exact Hlen|].
  apply mapM_Forall2 in H. clear Hlen.
  induction H as [|r r' l l' Hr _ IH]; [constructor|].
  inversion Hk; subst. constructor; [|apply IH; assumption].
  apply mapM_length in Hr. congruence.
Qed.

Lemma n_features_rows (X : matrix) (k : nat) :
  X <> [] -> Forall (fun r => length r = k) X -> n_features X = k.
Proof.
  destruct X as [|r X]; [congruence|]. intros _ H. inversion H; subst.
  reflexivity.
Qed.

Lemma scaler_fit_shape (Xf : matrix) :
  length (mean_ (scaler_fit Xf)) = n_features Xf
  /\ length (var_ (scaler_fit Xf)) = n_features Xf.
Proof.
  unfold scaler_fit. simpl. rewrite !length_map, !length_seq. split; reflexivity.
Qed.

Lemma scaled_rows (sc : StandardScaler) (X : matrix) (k : nat) :
  length (mean_ sc) = k -> length (var_ sc) = k ->
  Forall (fun r => length r = k) X ->
  Forall (fun r => length r = k) (map (scaler_transform_row L sc) X).
Proof.
  intros Hm Hv H. apply Forall_map. eapply Forall_impl; [|exact H].
  intros r Hr. simpl in Hr. unfold scaler_transform_row.
  rewrite length_map, !length_combine. lia.
Qed.

Lemma mask_rows_subset (X : matrix) (mask : list bool) (nd : matrix) (P : list Q -> Prop) :
  mask_rows X mask = Ok nd -> Forall P X -> Forall P nd.
Proof.
  unfold mask_rows. destruct (length X =? length mask); [|discriminate].
  intros H HX. injection H as <-.
  apply Forall_forall. intros r Hr.
  apply in_map_iff in Hr. destruct Hr as ((r' & b) & <- & Hin).
  apply filter_In in Hin. destruct Hin as [Hin _].
  apply in_combine_l in Hin. rewrite Forall_forall in HX. apply HX. exact Hin.
Qed.

Lemma filter_mask_some_true {A : Type} (X : list A) (mask : list bool) :
  length X = length mask -> In true mask ->
  filter snd (combine X mask) <> [].
Proof.
  revert mask. induction X as [|x X IH]; intros [|b mask] Hlen Hin;
    simpl in *; try contradiction; try discriminate.
  destruct b; simpl; [discriminate|].
  destruct Hin as [Hin|Hin]; [discriminate|].
  apply IH; [lia|exact Hin].
Qed.

Lemma mask_rows_some_normal (X : matrix) (labels : list Q) (nd : matrix) :
  (exists y, In y labels /\ Qeq_bool y 0 = true) ->
  mask_rows X (normal_mask labels) = Ok nd -> (0 <? length nd) = true.
Proof.
  intros (y & Hy & Hy0). unfold mask_rows.
  destruct (length X =? length (normal_mask labels)) eqn:Hlen; [|discriminate].
  apply Nat.eqb_eq in Hlen.
  intros H. injection H as <-. apply Nat.ltb_lt.
  rewrite length_map.
  assert (Hne : filter snd (combine X (normal_mask labels)) <> []).
  { apply filter_mask_some_true; [exact Hlen|].
    unfold normal_mask. apply in_map_iff. exists y. auto. }
  destruct (filter snd (combine X (normal_mask labels))); [congruence|simpl; lia].
Qed.

Lemma mean_axis0_length (p : list Q) (ps : list (list Q)) :
  length (mean_axis0 (p :: ps)) = length p.
Proof. unfold mean_axis0. simpl. rewrite length_map, length_seq. reflexivity. Qed.

(** C3, as the code has it.  On an untrained detector prediction
    raises the not-trained error, for every feature table.  After a
    training call that returned, the same prediction call returns a
    probability per row provided all three models were fitted (some row
    was labelled 0 and the labels hold at least two classes) and the
    table offers the usable feature columns of the training table, with
    finite numbers in at least one row. *)
Theorem prediction_needs_training :
  (forall (d : CMEDetector) (features_df : DataFrame),
      is_trained d = false ->
      predict_cme_probability L E d features_df
      = Raise (ValueError "Models must be trained before prediction"))
  /\ (forall (d d' : CMEDetector) (training_df features_df : DataFrame)
             (labels : list Q),
         train_models L training_df labels d = (d', Ok tt) ->
         (exists y, In y labels /\ Qeq_bool y 0 = true) ->
         2 <= length (distinct labels) ->
         columns_present get_feature_importance_columns features_df
         = columns_present get_feature_importance_columns training_df ->
         is_ok (check_array (importance_values features_df))
         = true ->
         exists p,
           predict_cme_probability L E d' features_df = Ok p
           /\ length p = nrows features_df).
Proof.
  split.
  - intros d ft Hun. unfold predict_cme_probability. rewrite Hun. reflexivity.
  - intros d d' tr ft labels Hrun Hzero Hclasses Hcols Hfin.
    destruct (train_models_success _ _ _ _ Hrun)
      as (Xf & nd & Hchk & Hmask & Hlen & Htr & Hfc & Hsc & Hrf & Hif & Hsvm).
    rewrite (mask_rows_some_normal _ _ _ Hzero Hmask) in Hif, Hsvm.
    set (k := length (columns_present get_feature_importance_columns tr)).
    unfold importance_values in Hchk, Hfin |- *.
    destruct (check_array_shape _ _ k Hchk (values_rows _ _))
      as (HXf & _ & HXfrows).
    pose proof (n_features_rows _ _ HXf HXfrows) as Hk.
    destruct (scaler_fit_shape Xf) as [Hm Hv]. rewrite Hk in Hm, Hv.
    pose proof (scaled_rows _ _ _ Hm Hv HXfrows) as Hscaled.
    assert (Hscaled_ne : map (scaler_transform_row L (scaler_fit Xf)) Xf <> []).
    { destruct Xf; [congruence|discriminate]. }
    pose proof (mask_rows_subset _ _ _ _ Hmask Hscaled) as Hnd.
    assert (Hnd_ne : nd <> []).
    { pose proof (mask_rows_some_normal _ _ _ Hzero Hmask) as Hpos.
      apply Nat.ltb_lt in Hpos. destruct nd; [simpl in Hpos; lia|discriminate]. }
    destruct (check_array
                (values ft (columns_present get_feature_importance_columns ft)))
      as [Xp|] eqn:Hp; [|discriminate].
    assert (Hprows : Forall (fun r => length r = k)
                       (values ft (columns_present get_feature_importance_columns ft))).
    { unfold k. rewrite <- Hcols. apply values_rows. }
    destruct (check_array_shape _ _ k Hp Hprows) as (HXp & HXplen & HXprows).
    pose proof (scaled_rows _ _ _ Hm Hv HXprows) as Hpscaled.
    assert (Hpscaled_ne : map (scaler_transform_row L (scaler_fit Xf)) Xp <> []).
    { destruct Xp; [congruence|discriminate]. }
    unfold predict_cme_probability. rewrite Htr, Hfc, Hsc, Hif, Hsvm, Hrf.
    cbn [negb].
    unfold scaler_transform. rewrite Hp.
    cbn [bind].
    rewrite (n_features_rows _ _ HXp HXprows), Hm, Nat.eqb_refl.
    cbn [bind].
    unfold novelty_predict, forest_predict.
    rewrite (n_features_rows _ _ Hpscaled_ne Hpscaled).
    rewrite (n_features_rows _ _ Hnd_ne Hnd).
    rewrite (n_features_rows _ _ Hscaled_ne Hscaled).
    rewrite Nat.eqb_refl. cbn [bind].
    replace (2 <=? length (distinct labels)) with true
      by (symmetry; apply Nat.leb_le; exact Hclasses).
    cbn [bind].
    eexists. split; [reflexivity|].
    rewrite mean_axis0_length. unfold normalise_inverted.
    rewrite !length_map. rewrite HXplen. apply values_length.
Qed.

End DetectorFacts.

(** A training call on a table without a usable column raises and
    leaves the trained sample detector as it was. *)
Lemma failed_training_effects_witness :
  snd (train_models Sample.lib [("density", Sample.nums [5; 5]%Z)] [0; 1]%Q
                    Sample.trained)
  = Raise (ValueError "No feature columns available for training")
  /\ fst (train_models Sample.lib [("density", Sample.nums [5; 5]%Z)] [0; 1]%Q
                       Sample.trained)
     = Sample.trained.
Proof.
  split; [vm_compute; reflexivity|].
  apply (failed_training_effects Sample.lib
           [("density", Sample.nums [5; 5]%Z)] [0; 1]%Q Sample.trained
           (fst (train_models Sample.lib [("density", Sample.nums [5; 5]%Z)]
                              [0; 1]%Q Sample.trained))
           (ValueError "No feature columns available for training")).
  - vm_compute. reflexivity.
  - vm_compute. reflexivity.
  - vm_compute. reflexivity.
  - reflexivity.
Defined.

(** C2, as stated, fails: a training call on a trained detector that
    raises (one label for three rows) has already refitted the Scaler. *)
Lemma failed_training_overwrites_scaler :
  is_trained Sample.trained = true
  /\ snd (train_models Sample.lib Sample.later_batch [0%Q] Sample.trained)
     = Raise IndexError
  /\ scaler (fst (train_models Sample.lib Sample.later_batch [0%Q] Sample.trained))
     <> scaler Sample.trained.
Proof.
  split; [vm_compute; reflexivity|]. split; [vm_compute; reflexivity|].
  intros H. vm_compute in H. discriminate H.
Qed.

(** Training on the sample table with every row labelled 1 returns;
    prediction on that table then raises. *)
Lemma prediction_raises_after_skipped_detector_witness :
  is_trained (fst (train_models Sample.lib Sample.training Sample.all_event_labels
                                Sample.untrained)) = true
  /\ predict_cme_probability Sample.lib Sample.estimators
       (fst (train_models Sample.lib Sample.training Sample.all_event_labels
                          Sample.untrained))
       Sample.training
     = Raise NotFittedError.
Proof.
  destruct (prediction_raises_after_skipped_detector
              Sample.lib Sample.estimators [] default_engineer
              Sample.training Sample.all_event_labels
              (fst (train_models Sample.lib Sample.training Sample.all_event_labels
                                 Sample.untrained)))
    as (Htr & _ & _ & _).
  - intros y Hy. simpl in Hy.
    repeat (destruct Hy as [<-|Hy]; [reflexivity|]). contradiction.
  - vm_compute. reflexivity.
  - split; [exact Htr|]. vm_compute. reflexivity.
Defined.

(** The sample detector before and after training, on a later batch. *)
Lemma prediction_needs_training_witness :
  predict_cme_probability Sample.lib Sample.estimators Sample.untrained
                          Sample.later_batch
  = Raise (ValueError "Models must be trained before prediction")
  /\ exists p,
       predict_cme_probability Sample.lib Sample.estimators Sample.trained
                               Sample.later_batch = Ok p
       /\ length p = nrows Sample.later_batch.
Proof.
  destruct (prediction_needs_training Sample.lib Sample.estimators) as [Hun Htr].
  split.
  - apply Hun. reflexivity.
  - apply (Htr Sample.untrained Sample.trained Sample.training Sample.later_batch
               Sample.labels).
    + vm_compute. reflexivity.
    + exists 0%Q. split; [left; reflexivity|reflexivity].
    + vm_compute. lia.
    + vm_compute. reflexivity.
    + vm_compute. reflexivity.
Defined.

(** C3, as stated, fails in its second half.  The call that raised the
    not-trained error before training still raises after a training
    call that returned: on a table that offers none of the feature
    columns; on the training table itself when every training row was
    labelled 1 (a novelty detector was never fitted); and on the
    training table itself when every training row was labelled 0 (the
    classifier knows one class and has no column 1). *)
Lemma prediction_after_training_raises :
  (predict_cme_probability Sample.lib Sample.estimators Sample.untrained
                           [("density", Sample.nums [5; 5]%Z)]
   = Raise (ValueError "Models must be trained before prediction")
   /\ train_models Sample.lib Sample.training Sample.labels Sample.untrained
      = (Sample.trained, Ok tt)
   /\ is_ok (predict_cme_probability Sample.lib Sample.estimators Sample.trained
                                     [("density", Sample.nums [5; 5]%Z)])
      = false)
  /\ (predict_cme_probability Sample.lib Sample.estimators Sample.untrained
                              Sample.training
      = Raise (ValueError "Models must be trained before prediction")
      /\ snd (train_models Sample.lib Sample.training Sample.all_event_labels
                           Sample.untrained) = Ok tt
      /\ predict_cme_probability Sample.lib Sample.estimators
           (fst (train_models Sample.lib Sample.training Sample.all_event_labels
                              Sample.untrained))
           Sample.training
         = Raise NotFittedError)
  /\ (snd (train_models Sample.lib Sample.training Sample.no_event_labels
                        Sample.untrained) = Ok tt
      /\ predict_cme_probability Sample.lib Sample.estimators
           (fst (train_models Sample.lib Sample.training Sample.no_event_labels
                              Sample.untrained))
           Sample.training
         = Raise IndexError).
Proof.
  repeat split; vm_compute; reflexivity.
Qed.

(** ** Feature engineering *)

Lemma get_col_set_col (name : string) (c : column) (df : DataFrame) :
  get_col name (set_col name c df) = Some c.
Proof.
  induction df as [|[n c0] df IH]; simpl.
  - rewrite String.eqb_refl. reflexivity.
  - destruct (String.eqb n name) eqn:E; simpl; rewrite E; [reflexivity|exact IH].
Qed.

Lemma set_col_set_col (name : string) (c1 c2 : column) (df : DataFrame) :
  set_col name c2 (set_col name c1 df) = set_col name c2 df.
Proof.
  induction df as [|[n c0] df IH]; simpl.
  - rewrite String.eqb_refl. reflexivity.
  - destruct (String.eqb n name) eqn:E; simpl; rewrite E; [reflexivity|].
    rewrite IH. reflexivity.
Qed.

Section FeatureFacts.

Variable L : NumLib.
Variable fe : FeatureEngineer.

Lemma to_datetime_cell_fixed (c c' : cell) :
  to_datetime_cell L c = Ok c' -> to_datetime_cell L c' = Ok c'.
Proof.
  destruct c; simpl; try (intros H; injection H as <-; reflexivity).
  destruct (parse_datetime L s); [|discriminate].
  intros H. injection H as <-. reflexivity.
Qed.

Lemma to_datetime_fixed (c ts : column) :
  mapM (to_datetime_cell L) c = Ok ts -> mapM (to_datetime_cell L) ts = Ok ts.
Proof.
  intros H. apply mapM_Forall2 in H.
  induction H as [|x y l l' Hxy _ IH]; [reflexivity|].
  simpl. rewrite (to_datetime_cell_fixed _ _ Hxy). simpl. rewrite IH. reflexivity.
Qed.

(** What a call does to the frame it was given. *)
Lemma engineer_features_caller (df : DataFrame) (c ts : column) :
  get_col "timestamp" df = Some c ->
  mapM (to_datetime_cell L) c = Ok ts ->
  engineer_features L fe df
  = (set_col "timestamp" ts df,
     derive_features L fe
       (take_rows (argsort L (map time_key ts)) (set_col "timestamp" ts df))).
Proof.
  intros Hc Hts. unfold engineer_features, has_col, getitem.
  rewrite Hc. cbn [bind]. rewrite Hts. reflexivity.
Qed.

(** C4, what the code does.  When the table has a timestamp column
    that converts, the caller's table comes back with that column
    replaced by the converted one; it is changed as soon as one cell
    was not a Timestamp already. *)
Theorem engineer_features_rewrites_caller_timestamps
        (df : DataFrame) (c ts : column) :
  get_col "timestamp" df = Some c ->
  mapM (to_datetime_cell L) c = Ok ts ->
  fst (engineer_features L fe df) = set_col "timestamp" ts df
  /\ (ts <> c -> fst (engineer_features L fe df) <> df).
Proof.
  intros Hc Hts. rewrite (engineer_features_caller df c ts Hc Hts). cbn [fst].
  split; [reflexivity|].
  intros Hne Heq. apply Hne.
  pose proof (get_col_set_col "timestamp" ts df) as H.
  rewrite Heq, Hc in H. congruence.
Qed.

(** C6, as the code has it.  The feature is zero-filled when the table
    has at most three rows (no more rows than flux columns) and when
    anything fails inside the guarded block; with more than three rows,
    numeric flux data and a pseudo-inverse [P] of their sample
    covariance, it is the Mahalanobis distance of each row's flux
    vector from the sample mean under [P].  A column is produced in
    every case. *)
Theorem mahalanobis_feature_cases (df : DataFrame) :
  (nrows df <= 3 ->
   get_col "flux_mahalanobis_distance" (mahalanobis_feature L df)
   = Some (zero_column df))
  /\ (3 < nrows df -> mahal_distances L df = None ->
      get_col "flux_mahalanobis_distance" (mahalanobis_feature L df)
      = Some (zero_column df))
  /\ (3 < nrows df ->
      forall X P, flux_data df = Some X -> pinv L (np_cov X) = Some P ->
      get_col "flux_mahalanobis_distance" (mahalanobis_feature L df)
      = Some (map (fun i => cell_of_float
                              (mahalanobis_distance L P (map Qmean X) (row_of X i)))
                  (seq 0 (nrows df)))).
Proof.
  unfold mahalanobis_feature, set_scalar, set_floats, zero_column.
  change (length flux_columns) with 3.
  split; [|split].
  - intros Hle.
    replace (3 <? nrows df) with false by (symmetry; apply Nat.ltb_ge; exact Hle).
    apply get_col_set_col.
  - intros Hlt Hnone.
    replace (3 <? nrows df) with true by (symmetry; apply Nat.ltb_lt; exact Hlt).
    rewrite Hnone. apply get_col_set_col.
  - intros Hlt X P HX HP.
    replace (3 <? nrows df) with true by (symmetry; apply Nat.ltb_lt; exact Hlt).
    unfold mahal_distances. rewrite HX, HP.
    rewrite get_col_set_col. rewrite map_map. reflexivity.
Qed.

End FeatureFacts.

(** The sample telemetry holds its timestamps as strings: the caller's
    table is not what it was. *)
Lemma engineer_features_rewrites_caller_timestamps_witness :
  fst (engineer_features Sample.lib default_engineer Sample.telemetry)
  <> Sample.telemetry.
Proof.
  eapply (engineer_features_rewrites_caller_timestamps
            Sample.lib default_engineer Sample.telemetry).
  - reflexivity.
  - vm_compute. reflexivity.
  - discriminate.
Defined.

(** Three rows are zero-filled; five rows get their distances. *)
Lemma mahalanobis_feature_cases_witness :
  get_col "flux_mahalanobis_distance"
          (mahalanobis_feature Sample.lib Sample.three_rows)
  = Some [CNum 0; CNum 0; CNum 0]
  /\ get_col "flux_mahalanobis_distance"
             (mahalanobis_feature Sample.lib Sample.five_rows)
     = Some [CNum 1; CNum 1; CNum 0; CNum 1; CNum 1].
Proof.
  destruct (mahalanobis_feature_cases Sample.lib Sample.three_rows) as (H3 & _ & _).
  destruct (mahalanobis_feature_cases Sample.lib Sample.five_rows) as (_ & _ & H5).
  split.
  - apply H3. simpl. lia.
  - eapply eq_trans.
    + apply (H5 ltac:(simpl; lia)
                [[0; 0; 1; 2; 2]; [5; 5; 5; 5; 5]; [7; 7; 7; 7; 7]]%Q
                [[1; 0; 0]; [0; 0; 0]; [0; 0; 0]]%Q).
      * vm_compute. reflexivity.
      * vm_compute. reflexivity.
    + vm_compute. reflexivity.
Defined.

(** C6, as stated, fails at three rows.  The table has as many rows as
    flux columns; the covariance of its flux data has a pseudo-inverse
    [P] (the four Moore-Penrose conditions hold), which the library
    returns; the squared distances of the rows under [P] are 1, 0 and
    1, so the stated feature is 1, 0, 1.  The code zero-fills. *)
Lemma mahalanobis_three_rows_zero_filled :
  length flux_columns <= nrows Sample.three_rows
  /\ (exists X P,
         flux_data Sample.three_rows = Some X
         /\ pinv Sample.lib (np_cov X) = Some P
         /\ is_pseudo_inverse (np_cov X) P = true
         /\ map (fun i => Qred (quadratic_form P (vsub (row_of X i) (map Qmean X))))
                [0; 1; 2]
            = [1; 0; 1]%Q)
  /\ flux_mahalanobis_as_specified Sample.lib Sample.three_rows
     = [CNum 1; CNum 0; CNum 1]
  /\ get_col "flux_mahalanobis_distance"
             (mahalanobis_feature Sample.lib Sample.three_rows)
     = Some [CNum 0; CNum 0; CNum 0]
  /\ get_col "flux_mahalanobis_distance"
             (mahalanobis_feature Sample.lib Sample.three_rows)
     <> Some (flux_mahalanobis_as_specified Sample.lib Sample.three_rows).
Proof.
  split; [simpl; lia|].
  split; [eexists _, _; repeat split; vm_compute; reflexivity|].
  split; [vm_compute; reflexivity|].
  split; [vm_compute; reflexivity|].
  intros H. vm_compute in H. discriminate H.
Qed.

(** * Further properties *)

(** ** Rule scores and score fusion *)

Lemma nth_error_combine {A B : Type} (l1 : list A) (l2 : list B) (i : nat)
      (a : A) (b : B) :
  nth_error (combine l1 l2) i = Some (a, b) <->
  nth_error l1 i = Some a /\ nth_error l2 i = Some b.
Proof.
  revert l2 i. induction l1 as [|x l1 IH]; intros [|y l2] [|i]; simpl;
    try (split; [discriminate|intros [H1 H2]; discriminate]).
  - split; [intros H; injection H as <- <-; auto|].
    intros [H1 H2]. congruence.
  - apply IH.
Qed.

Lemma get_col_In (name : string) (df : DataFrame) (c : column) :
  get_col name df = Some c -> exists n, In (n, c) df.
Proof.
  induction df as [|[n c0] df IH]; simpl; [discriminate|].
  destruct (String.eqb n name).
  - intros H. injection H as <-. exists n. left. reflexivity.
  - intros H. destruct (IH H) as (n' & Hin). exists n'. right. exact Hin.
Qed.

Lemma rectangular_get_col (name : string) (df : DataFrame) (c : column) :
  rectangular df -> get_col name df = Some c -> length c = nrows df.
Proof.
  intros Hr Hc. destruct (get_col_In _ _ _ Hc) as (n & Hin).
  unfold rectangular in Hr. rewrite Forall_forall in Hr.
  exact (Hr _ Hin).
Qed.

Lemma Qclip_unit (x : Q) : unit_interval (Qclip 0 1 x).
Proof.
  unfold Qclip, unit_interval. split.
  - apply Q.min_glb; [apply Q.le_max_r|discriminate].
  - apply Q.le_min_r.
Qed.

Lemma Qclip_le_max (x : Q) : (Qclip 0 1 x <= Qmax x 0)%Q.
Proof. unfold Qclip. apply Q.le_min_l. Qed.

(** What one rule adds to the score of a row. *)
Lemma add_rule_spec (df : DataFrame) (name : string) (threshold weight : Q)
      (acc acc' : list Q) :
  add_rule df name threshold weight acc = Ok acc' ->
  forall i a', nth_error acc' i = Some a' ->
    exists a t,
      nth_error acc i = Some a /\ (a' == a + t)%Q
      /\ ((t == 0)%Q \/ (t = weight /\ exceeds df name threshold i)).
Proof.
  unfold add_rule. destruct (get_col name df) as [c|] eqn:Hc.
  - destruct (rule_term threshold weight c) as [t|] eqn:Ht; [|discriminate].
    cbn [bind]. intros H. injection H as <-. intros i a' Hi.
    rewrite nth_error_map in Hi.
    destruct (nth_error (combine acc t) i) as [[a ti]|] eqn:Hp; [|discriminate].
    simpl in Hi. injection Hi as <-.
    apply nth_error_combine in Hp. destruct Hp as [Ha Hti].
    exists a, ti. split; [exact Ha|]. split; [reflexivity|].
    unfold rule_term in Ht. apply mapM_Forall2 in Ht.
    pose proof (Forall2_nth_error _ _ _ Ht i) as Hf. rewrite Hti in Hf.
    destruct (nth_error c i) as [x|] eqn:Hx; [|contradiction].
    destruct x as [q| | | |]; simpl in Hf; try discriminate.
    + destruct (Qlt_bool threshold q) eqn:Hq; injection Hf as <-.
      * right. split; [reflexivity|]. exists c, q.
        apply Qlt_bool_iff in Hq. auto.
      * left. reflexivity.
    + injection Hf as <-. left. reflexivity.
  - intros H. injection H as <-. intros i a' Hi.
    exists a', 0%Q. split; [exact Hi|]. split; [ring|left; reflexivity].
Qed.

(** The rule scores of a table, one per row: each is a sum of the
    weights of the rules that fire on the row. *)
Lemma add_rule_length (df : DataFrame) (name : string) (threshold weight : Q)
      (acc acc' : list Q) :
  rectangular df ->
  add_rule df name threshold weight acc = Ok acc' ->
  length acc = nrows df -> length acc' = nrows df.
Proof.
  intros Hr. unfold add_rule. destruct (get_col name df) as [c|] eqn:Hc.
  - destruct (rule_term threshold weight c) as [t|] eqn:Ht; [|discriminate].
    cbn [bind]. intros H Hacc. injection H as <-.
    rewrite length_map, length_combine, Hacc.
    unfold rule_term in Ht. rewrite (mapM_length _ _ _ Ht).
    rewrite (rectangular_get_col _ _ _ Hr Hc). apply Nat.min_id.
  - intros H Hacc. injection H as <-. exact Hacc.
Qed.

Lemma rule_scores_row (self : CMEDetector) (df : DataFrame) (s1 s2 s3 s4 : list Q) :
  add_rule df "velocity"
           (thresholds_get "velocity_threshold" 500 (thresholds self)) (3 # 10)
           (repeat 0%Q (nrows df)) = Ok s1 ->
  add_rule df "proton_flux"
           (thresholds_get "flux_threshold" 1200 (thresholds self)) (3 # 10) s1
  = Ok s2 ->
  add_rule df "temperature"
           (thresholds_get "temperature_threshold" 200000 (thresholds self))
           (2 # 10) s2 = Ok s3 ->
  add_rule df "magnetic_field_magnitude"
           (thresholds_get "magnetic_field_threshold" 10 (thresholds self))
           (2 # 10) s3 = Ok s4 ->
  forall i r, nth_error s4 i = Some r ->
    (0 <= r /\ r <= 1)%Q /\ ((r == 0)%Q \/ some_rule_fires self df i).
Proof.
  intros H1 H2 H3 H4 i r Hr.
  destruct (add_rule_spec _ _ _ _ _ _ H4 i r Hr) as (a3 & t4 & Ha3 & E4 & C4).
  destruct (add_rule_spec _ _ _ _ _ _ H3 i a3 Ha3) as (a2 & t3 & Ha2 & E3 & C3).
  destruct (add_rule_spec _ _ _ _ _ _ H2 i a2 Ha2) as (a1 & t2 & Ha1 & E2 & C2).
  destruct (add_rule_spec _ _ _ _ _ _ H1 i a1 Ha1) as (a0 & t1 & Ha0 & E1 & C1).
  assert (a0 = 0%Q).
  { apply nth_error_In in Ha0. apply repeat_spec in Ha0. exact Ha0. }
  subst a0.
  assert (Hsum : (r == t1 + t2 + t3 + t4)%Q).
  { rewrite E4, E3, E2, E1. ring. }
  assert (B1 : (0 <= t1 /\ t1 <= 3 # 10)%Q).
  { destruct C1 as [C|[-> _]]; [rewrite C|]; split; discriminate. }
  assert (B2 : (0 <= t2 /\ t2 <= 3 # 10)%Q).
  { destruct C2 as [C|[-> _]]; [rewrite C|]; split; discriminate. }
  assert (B3 : (0 <= t3 /\ t3 <= 2 # 10)%Q).
  { destruct C3 as [C|[-> _]]; [rewrite C|]; split; discriminate. }
  assert (B4 : (0 <= t4 /\ t4 <= 2 # 10)%Q).
  { destruct C4 as [C|[-> _]]; [rewrite C|]; split; discriminate. }
  split; [split; lra|].
  unfold some_rule_fires.
  destruct C1 as [C1|[_ F]]; [|right; left; exact F].
  destruct C2 as [C2|[_ F]]; [|right; right; left; exact F].
  destruct C3 as [C3|[_ F]]; [|right; right; right; left; exact F].
  destruct C4 as [C4|[_ F]]; [|right; right; right; right; exact F].
  left. lra.
Qed.

(** An entry of a broadcast result comes from an entry of each
    operand, at the same position unless the operand was stretched. *)
Lemma broadcast_nth (op : Q -> Q -> Q) (a b c : list Q) (i : nat) (x : Q) :
  broadcast op a b = Ok c ->
  nth_error c i = Some x ->
  exists ia ib m r,
    nth_error a ia = Some m /\ nth_error b ib = Some r /\ x = op m r
    /\ (length a = length b -> ia = i /\ ib = i).
Proof.
  unfold broadcast. destruct (length a =? length b) eqn:E.
  - intros H Hx. injection H as <-. rewrite nth_error_map in Hx.
    destruct (nth_error (combine a b) i) as [[m r]|] eqn:Hp; [|discriminate].
    simpl in Hx. injection Hx as <-.
    apply nth_error_combine in Hp. destruct Hp as [Hm Hr].
    exists i, i, m, r. auto.
  - apply Nat.eqb_neq in E.
    destruct a as [|m [|m' a']].
    + destruct b as [|r [|r' b']]; try discriminate.
      intros H Hx. injection H as <-. destruct i; discriminate.
    + intros H Hx. injection H as <-. rewrite nth_error_map in Hx.
      destruct (nth_error b i) as [r|] eqn:Hr; [|discriminate].
      simpl in Hx. injection Hx as <-.
      exists 0, i, m, r. split; [reflexivity|]. split; [exact Hr|].
      split; [reflexivity|]. intros Hl. contradiction.
    + destruct b as [|r [|r' b']]; try discriminate.
      intros H Hx. injection H as <-.
      change (nth_error (map (fun x0 => op x0 r) (m :: m' :: a')) i = Some x) in Hx.
      rewrite nth_error_map in Hx.
      destruct (nth_error (m :: m' :: a') i) as [mi|] eqn:Hm; [|discriminate].
      simpl in Hx. injection Hx as <-.
      exists i, 0, mi, r. split; [exact Hm|]. split; [reflexivity|].
      split; [reflexivity|]. intros Hl. contradiction.
Qed.

Lemma broadcast_length (op : Q -> Q -> Q) (a b c : list Q) :
  broadcast op a b = Ok c ->
  length c = if length a =? 1 then length b else length a.
Proof.
  unfold broadcast. destruct (length a =? length b) eqn:E.
  - apply Nat.eqb_eq in E. intros H. injection H as <-.
    rewrite length_map, length_combine, <- E, Nat.min_id.
    destruct (length a =? 1) eqn:E1; [|reflexivity].
    apply Nat.eqb_eq in E1. lia.
  - destruct a as [|m [|m' a']].
    + destruct b as [|r [|r' b']]; try discriminate.
      intros H. injection H as <-. reflexivity.
    + intros H. injection H as <-. rewrite length_map. reflexivity.
    + destruct b as [|r [|r' b']]; try discriminate.
      intros H. injection H as <-. simpl. rewrite length_map. reflexivity.
Qed.

(** The fused score of an entry, as [apply_threshold_rules] computes
    it. *)
Lemma apply_threshold_rules_row (self : CMEDetector) (df : DataFrame)
      (ml s : list Q) (i : nat) (x : Q) :
  apply_threshold_rules self df ml = Ok s ->
  nth_error s i = Some x ->
  exists rules im ir m r,
    nth_error ml im = Some m
    /\ nth_error rules ir = Some r
    /\ x = Qclip 0 1 ((7 # 10) * m + (3 # 10) * r)
    /\ (0 <= r /\ r <= 1)%Q
    /\ ((r == 0)%Q \/ some_rule_fires self df ir)
    /\ (rectangular df -> length rules = nrows df)
    /\ (length ml = length rules -> im = i /\ ir = i)
    /\ length s = (if length ml =? 1 then length rules else length ml).
Proof.
  unfold apply_threshold_rules.
  destruct (add_rule df "velocity" _ _ _) as [s1|] eqn:H1; [|discriminate].
  cbn [bind].
  destruct (add_rule df "proton_flux" _ _ s1) as [s2|] eqn:H2; [|discriminate].
  cbn [bind].
  destruct (add_rule df "temperature" _ _ s2) as [s3|] eqn:H3; [|discriminate].
  cbn [bind].
  destruct (add_rule df "magnetic_field_magnitude" _ _ s3) as [s4|] eqn:H4;
    [|discriminate].
  cbn [bind].
  destruct (broadcast _ ml s4) as [c|] eqn:Hb; [|discriminate]. cbn [bind].
  intros H Hx. injection H as <-.
  rewrite nth_error_map in Hx.
  destruct (nth_error c i) as [y|] eqn:Hy; [|discriminate].
  simpl in Hx. injection Hx as <-.
  destruct (broadcast_nth _ _ _ _ _ _ Hb Hy) as (im & ir & m & r & Hm & Hr & -> & Hi).
  destruct (rule_scores_row _ _ _ _ _ _ H1 H2 H3 H4 ir r Hr) as [Hr01 Hfire].
  exists s4, im, ir, m, r.
  split; [exact Hm|]. split; [exact Hr|]. split; [reflexivity|].
  split; [exact Hr01|]. split; [exact Hfire|].
  split.
  { intros Hrect.
    apply (add_rule_length _ _ _ _ _ _ Hrect H4).
    apply (add_rule_length _ _ _ _ _ _ Hrect H3).
    apply (add_rule_length _ _ _ _ _ _ Hrect H2).
    apply (add_rule_length _ _ _ _ _ _ Hrect H1).
    apply repeat_length. }
  split; [exact Hi|].
  rewrite length_map. exact (broadcast_length _ _ _ _ Hb).
Qed.

Lemma apply_threshold_rules_unit
        (self : CMEDetector) (df : DataFrame) (ml s : list Q) :
  apply_threshold_rules self df ml = Ok s -> Forall unit_interval s.
Proof.
  intros H. apply Forall_forall. intros x Hx.
  destruct (In_nth_error _ _ Hx) as (i & Hi).
  destruct (apply_threshold_rules_row _ _ _ _ _ _ H Hi)
    as (rules & im & ir & m & r & _ & _ & -> & _).
  apply Qclip_unit.
Qed.

(** The fused scores lie in [0, 1]; on a rectangular table there is one
    per model probability, or one per row when a single probability is
    broadcast over the table. *)
Theorem apply_threshold_rules_bounds
        (self : CMEDetector) (df : DataFrame) (ml s : list Q) :
  rectangular df ->
  apply_threshold_rules self df ml = Ok s ->
  length s = (if length ml =? 1 then nrows df else length ml)
  /\ Forall unit_interval s.
Proof.
  intros Hr H. split; [|exact (apply_threshold_rules_unit _ _ _ _ H)].
  destruct s as [|x s'] eqn:Es.
  - (* no entry to trace: read the length off the computation *)
    revert H. unfold apply_threshold_rules.
    destruct (add_rule df "velocity" _ _ _) as [s1|] eqn:H1; [|discriminate].
    cbn [bind].
    destruct (add_rule df "proton_flux" _ _ s1) as [s2|] eqn:H2; [|discriminate].
    cbn [bind].
    destruct (add_rule df "temperature" _ _ s2) as [s3|] eqn:H3; [|discriminate].
    cbn [bind].
    destruct (add_rule df "magnetic_field_magnitude" _ _ s3) as [s4|] eqn:H4;
      [|discriminate].
    cbn [bind].
    destruct (broadcast _ ml s4) as [c|] eqn:Hb; [|discriminate]. cbn [bind].
    intros H. injection H as H.
    assert (Hlen : length s4 = nrows df).
    { apply (add_rule_length _ _ _ _ _ _ Hr H4).
      apply (add_rule_length _ _ _ _ _ _ Hr H3).
      apply (add_rule_length _ _ _ _ _ _ Hr H2).
      apply (add_rule_length _ _ _ _ _ _ Hr H1).
      apply repeat_length. }
    rewrite <- Hlen, <- (broadcast_length _ _ _ _ Hb).
    apply (f_equal (@length Q)) in H. rewrite length_map in H.
    simpl in H. simpl. symmetry. exact H.
  - destruct (apply_threshold_rules_row self df ml (x :: s') 0 x H eq_refl)
      as (rules & im & ir & m & r & _ & _ & _ & _ & _ & Hrules & _ & Hlen).
    rewrite Hlen, (Hrules Hr). reflexivity.
Qed.

(** On a table with one model probability per row, a row can pass a
    confidence threshold of 0.7 or more only if its model probability
    is above 0.57 and at least one of the four threshold rules holds for
    it: neither the models nor the rules can select a row alone. *)
Theorem selection_needs_model_and_rule
        (self : CMEDetector) (df : DataFrame) (ml s : list Q)
        (i : nat) (x m threshold : Q) :
  rectangular df ->
  length ml = nrows df ->
  apply_threshold_rules self df ml = Ok s ->
  nth_error s i = Some x ->
  nth_error ml i = Some m ->
  (m <= 1)%Q ->
  (7 # 10 <= threshold)%Q ->
  (threshold < x)%Q ->
  (57 # 100 < m)%Q /\ some_rule_fires self df i.
Proof.
  intros Hrect Hlen H Hx Hm Hm1 Hth Hsel.
  destruct (apply_threshold_rules_row _ _ _ _ _ _ H Hx)
    as (rules & im & ir & m' & r & Hm' & _ & -> & [Hr0 Hr1] & Hfire & Hrules
        & Hsame & _).
  destruct Hsame as [-> ->]; [rewrite (Hrules Hrect); exact Hlen|].
  assert (m' = m) by congruence. subst m'.
  pose proof (Qclip_le_max ((7 # 10) * m + (3 # 10) * r)) as Hle.
  assert (Hy : (7 # 10 < (7 # 10) * m + (3 # 10) * r)%Q).
  { destruct (Q.max_spec ((7 # 10) * m + (3 # 10) * r) 0) as [[Hlt E]|[Hge E]];
      rewrite E in Hle; lra. }
  split; [lra|].
  destruct Hfire as [Hz|F]; [|exact F]. lra.
Qed.

Lemma sample_features_rectangular : rectangular Sample.features.
Proof. repeat constructor. Qed.

Lemma apply_threshold_rules_bounds_witness :
  exists s,
    apply_threshold_rules Sample.untrained Sample.features [(9 # 10)%Q] = Ok s
    /\ length s = nrows Sample.features
    /\ Forall unit_interval s.
Proof.
  eexists. split; [vm_compute; reflexivity|].
  apply (apply_threshold_rules_bounds Sample.untrained Sample.features
           [(9 # 10)%Q]).
  - exact sample_features_rectangular.
  - vm_compute. reflexivity.
Defined.

Lemma selection_needs_model_and_rule_witness :
  exists s x,
    apply_threshold_rules Sample.untrained Sample.features Sample.scores = Ok s
    /\ nth_error s 2 = Some x
    /\ (7 # 10 < x)%Q
    /\ (57 # 100 < 9 # 10)%Q
    /\ some_rule_fires Sample.untrained Sample.features 2.
Proof.
  eexists. eexists.
  split; [vm_compute; reflexivity|].
  split; [vm_compute; reflexivity|].
  split; [vm_compute; reflexivity|].
  eapply (selection_needs_model_and_rule Sample.untrained Sample.features
            Sample.scores _ 2 _ (9 # 10) (7 # 10)).
  - exact sample_features_rectangular.
  - reflexivity.
  - vm_compute. reflexivity.
  - vm_compute. reflexivity.
  - vm_compute. reflexivity.
  - vm_compute. discriminate.
  - vm_compute. discriminate.
  - vm_compute. reflexivity.
Defined.

(** ** Normalised anomaly scores and the fused probability *)

Lemma Qmin_cases (a b : Q) : Qmin a b = a \/ Qmin a b = b.
Proof.
  unfold Qmin, GenericMinMax.gmin. destruct (a ?= b)%Q; auto.
Qed.

Lemma Qmax_cases (a b : Q) : Qmax a b = a \/ Qmax a b = b.
Proof.
  unfold Qmax, GenericMinMax.gmax. destruct (a ?= b)%Q; auto.
Qed.

Lemma fold_Qmin_le (l : list Q) (a : Q) :
  (fold_left Qmin l a <= a)%Q
  /\ forall x, In x l -> (fold_left Qmin l a <= x)%Q.
Proof.
  revert a. induction l as [|y l IH]; intros a; simpl.
  - split; [apply Qle_refl|contradiction].
  - destruct (IH (Qmin a y)) as [Ha Hin]. split.
    + eapply Qle_trans; [exact Ha|apply Q.le_min_l].
    + intros x [<-|Hx].
      * eapply Qle_trans; [exact Ha|apply Q.le_min_r].
      * apply Hin. exact Hx.
Qed.

Lemma fold_Qmax_ge (l : list Q) (a : Q) :
  (a <= fold_left Qmax l a)%Q
  /\ forall x, In x l -> (x <= fold_left Qmax l a)%Q.
Proof.
  revert a. induction l as [|y l IH]; intros a; simpl.
  - split; [apply Qle_refl|contradiction].
  - destruct (IH (Qmax a y)) as [Ha Hin]. split.
    + eapply Qle_trans; [apply Q.le_max_l|exact Ha].
    + intros x [<-|Hx].
      * eapply Qle_trans; [apply Q.le_max_r|exact Ha].
      * apply Hin. exact Hx.
Qed.

Lemma fold_Qmin_in (l : list Q) (a : Q) :
  fold_left Qmin l a = a \/ In (fold_left Qmin l a) l.
Proof.
  revert a. induction l as [|y l IH]; intros a; simpl; [auto|].
  destruct (IH (Qmin a y)) as [E|Hin]; [|auto].
  rewrite E. destruct (Qmin_cases a y) as [->| ->]; auto.
Qed.

Lemma Qlist_min_le (l : list Q) (x : Q) : In x l -> (Qlist_min l <= x)%Q.
Proof.
  unfold Qlist_min. destruct l as [|h t]; [contradiction|]. simpl.
  intros [<-|Hx].
  - apply (proj1 (fold_Qmin_le t h)).
  - apply (proj2 (fold_Qmin_le t h)). exact Hx.
Qed.

Lemma Qlist_max_ge (l : list Q) (x : Q) : In x l -> (x <= Qlist_max l)%Q.
Proof.
  unfold Qlist_max. destruct l as [|h t]; [contradiction|]. simpl.
  intros [<-|Hx].
  - apply (proj1 (fold_Qmax_ge t h)).
  - apply (proj2 (fold_Qmax_ge t h)). exact Hx.
Qed.

Lemma Qlist_min_in (l : list Q) : l <> [] -> In (Qlist_min l) l.
Proof.
  unfold Qlist_min. destruct l as [|h t]; [congruence|]. intros _. simpl.
  destruct (fold_Qmin_in t h) as [->|Hin]; auto.
Qed.

(** One normalised, inverted score. *)
Lemma normalised_unit (lo hi s : Q) :
  (lo <= s)%Q -> (s <= hi)%Q ->
  (0 <= 1 - (s - lo) / (hi - lo + eps) /\ 1 - (s - lo) / (hi - lo + eps) <= 1)%Q.
Proof.
  intros Hlo Hhi.
  assert (Hd : (0 < hi - lo + eps)%Q) by (unfold eps; lra).
  assert (H0 : (0 <= (s - lo) / (hi - lo + eps))%Q).
  { apply Qle_shift_div_l; [exact Hd|lra]. }
  assert (H1 : ((s - lo) / (hi - lo + eps) < 1)%Q).
  { apply Qlt_shift_div_r; [exact Hd|unfold eps; lra]. }
  split; lra.
Qed.

Lemma normalise_inverted_facts (scores : list Q) :
  scores <> [] ->
  length (normalise_inverted scores) = length scores
  /\ Forall (fun p => 0 <= p /\ p <= 1)%Q (normalise_inverted scores)
  /\ (exists p, In p (normalise_inverted scores) /\ (p == 1)%Q)
  /\ (forall i j si sj pi pj,
         nth_error scores i = Some si -> nth_error scores j = Some sj ->
         nth_error (normalise_inverted scores) i = Some pi ->
         nth_error (normalise_inverted scores) j = Some pj ->
         (si <= sj)%Q -> (pj <= pi)%Q).
Proof.
  intros Hne. unfold normalise_inverted.
  set (lo := Qlist_min scores). set (hi := Qlist_max scores).
  assert (Hd : (0 < hi - lo + eps)%Q).
  { destruct scores as [|h t]; [congruence|].
    pose proof (Qlist_min_le (h :: t) h (or_introl eq_refl)).
    pose proof (Qlist_max_ge (h :: t) h (or_introl eq_refl)).
    unfold lo, hi, eps. lra. }
  split; [apply length_map|]. split; [|split].
  - apply Forall_map. apply Forall_forall. intros s Hs.
    apply normalised_unit; [apply Qlist_min_le|apply Qlist_max_ge]; exact Hs.
  - exists (1 - (lo - lo) / (hi - lo + eps))%Q. split.
    + apply in_map_iff. exists lo. split; [reflexivity|].
      apply Qlist_min_in. exact Hne.
    + assert (E : ((lo - lo) / (hi - lo + eps) == 0)%Q).
      { unfold Qdiv. setoid_replace (lo - lo)%Q with 0%Q by ring. ring. }
      rewrite E. ring.
  - intros i j si sj pi pj Hi Hj Hpi Hpj Hle.
    rewrite nth_error_map, Hi in Hpi. rewrite nth_error_map, Hj in Hpj.
    simpl in Hpi, Hpj. injection Hpi as <-. injection Hpj as <-.
    assert (Hinv : (0 <= / (hi - lo + eps))%Q).
    { apply Qlt_le_weak. apply Qinv_lt_0_compat. exact Hd. }
    assert (Hm : ((si - lo) / (hi - lo + eps) <= (sj - lo) / (hi - lo + eps))%Q).
    { unfold Qdiv. apply Qmult_le_compat_r; [lra|exact Hinv]. }
    lra.
Qed.

(** The anomaly probabilities of a batch lie in [0, 1]; the sample with
    the lowest decision score gets 1; a lower decision score never
    gives a lower probability. *)
Theorem normalise_inverted_range (scores : list Q) :
  scores <> [] ->
  length (normalise_inverted scores) = length scores
  /\ Forall (fun p => 0 <= p /\ p <= 1)%Q (normalise_inverted scores)
  /\ (exists p, In p (normalise_inverted scores) /\ (p == 1)%Q)
  /\ (forall i j si sj pi pj,
         nth_error scores i = Some si -> nth_error scores j = Some sj ->
         nth_error (normalise_inverted scores) i = Some pi ->
         nth_error (normalise_inverted scores) j = Some pj ->
         (si <= sj)%Q -> (pj <= pi)%Q).
Proof.
  exact (normalise_inverted_facts scores).
Qed.

Lemma Forall_nth_unit (l : list Q) (i : nat) :
  Forall unit_interval l -> unit_interval (nth i l 0%Q).
Proof.
  intros H. destruct (nth_in_or_default i l 0%Q) as [Hin| ->].
  - rewrite Forall_forall in H. apply H. exact Hin.
  - split; discriminate.
Qed.

Lemma mean_axis0_three_unit (p1 p2 p3 : list Q) :
  Forall unit_interval p1 -> Forall unit_interval p2 -> Forall unit_interval p3 ->
  Forall unit_interval (mean_axis0 [p1; p2; p3]).
Proof.
  intros H1 H2 H3. unfold mean_axis0. apply Forall_map.
  apply Forall_forall. intros i _.
  destruct (Forall_nth_unit p1 i H1) as [A0 A1].
  destruct (Forall_nth_unit p2 i H2) as [B0 B1].
  destruct (Forall_nth_unit p3 i H3) as [C0 C1].
  unfold Qmean, Qsum. cbn [map fold_left length].
  change (inject_Z (Z.of_nat 3)) with 3%Q.
  split.
  - apply Qle_shift_div_l; [reflexivity|lra].
  - apply Qle_shift_div_r; [reflexivity|lra].
Qed.

Section FusionFacts.

Variable L : NumLib.
Variable E : Estimators.

Lemma novelty_predict_unit (decision : matrix -> list Q -> Q)
      (model : option matrix) (X : matrix) (p : list Q) :
  X <> [] -> novelty_predict decision model X = Ok p -> Forall unit_interval p.
Proof.
  intros HX. unfold novelty_predict.
  destruct model as [fitted_on|]; [|discriminate].
  destruct (n_features X =? n_features fitted_on); [|discriminate].
  intros H. injection H as <-.
  assert (Hne : map (decision fitted_on) X <> []) by (destruct X; [congruence|discriminate]).
  destruct (normalise_inverted_facts _ Hne) as (_ & Hall & _).
  eapply Forall_impl; [|exact Hall].
  intros q [H0 H1]. split; [exact H0|exact H1].
Qed.

(** Whenever [predict_cme_probability] returns, it returns one
    probability per row, each in [0, 1] -- provided the class
    probabilities of the forest are probabilities. *)
Theorem predict_cme_probability_unit
        (self : CMEDetector) (features_df : DataFrame) (p : list Q) :
  (forall X y x k, unit_interval (forest_proba E X y x k)) ->
  predict_cme_probability L E self features_df = Ok p ->
  length p = nrows features_df /\ Forall unit_interval p.
Proof.
  intros Hforest. unfold predict_cme_probability.
  destruct (negb (is_trained self)); [discriminate|].
  set (X := values features_df (columns_present (feature_columns self) features_df)).
  unfold scaler_transform.
  destruct (scaler self) as [sc|]; [|discriminate].
  destruct (check_array X) as [Xf|] eqn:HX; [|discriminate]. cbn [bind].
  destruct (n_features Xf =? length (mean_ sc)); [|discriminate]. cbn [bind].
  set (Xs := map (scaler_transform_row L sc) Xf).
  assert (HXf : Xf <> [] /\ length Xf = nrows features_df).
  { unfold check_array in HX. destruct X as [|r X'] eqn:EX; [discriminate|].
    apply mapM_length in HX. split.
    - destruct Xf; [discriminate|discriminate].
    - rewrite HX, <- EX. unfold X. apply values_length. }
  destruct HXf as [HXf HXlen].
  assert (HXs : Xs <> []) by (unfold Xs; destruct Xf; [congruence|discriminate]).
  destruct (novelty_predict (iforest_decision E) _ Xs) as [p1|] eqn:H1; [|discriminate].
  cbn [bind].
  destruct (novelty_predict (svm_decision E) _ Xs) as [p2|] eqn:H2; [|discriminate].
  cbn [bind].
  destruct (forest_predict E (random_forest self) Xs) as [p3|] eqn:H3; [|discriminate].
  cbn [bind]. intros H. injection H as <-.
  split.
  - rewrite mean_axis0_length.
    unfold novelty_predict in H1.
    destruct (isolation_forest self); [|discriminate].
    destruct (n_features Xs =? n_features m); [|discriminate].
    injection H1 as <-. unfold normalise_inverted.
    rewrite !length_map. unfold Xs. rewrite length_map. exact HXlen.
  - apply mean_axis0_three_unit.
    + eapply novelty_predict_unit; eassumption.
    + eapply novelty_predict_unit; eassumption.
    + unfold forest_predict in H3.
      destruct (random_forest self) as [[fitted_on y]|]; [|discriminate].
      destruct (n_features Xs =? n_features fitted_on); [|discriminate].
      destruct (2 <=? length (distinct y)); [|discriminate].
      injection H3 as <-. apply Forall_map. apply Forall_forall.
      intros x _. apply Hforest.
Qed.

End FusionFacts.

Lemma normalise_inverted_range_witness :
  length (normalise_inverted [3; -1; 2]%Q) = 3
  /\ Forall (fun p => 0 <= p /\ p <= 1)%Q (normalise_inverted [3; -1; 2]%Q)
  /\ (exists p, In p (normalise_inverted [3; -1; 2]%Q) /\ (p == 1)%Q)
  /\ (forall i j si sj pi pj,
         nth_error [3; -1; 2]%Q i = Some si ->
         nth_error [3; -1; 2]%Q j = Some sj ->
         nth_error (normalise_inverted [3; -1; 2]%Q) i = Some pi ->
         nth_error (normalise_inverted [3; -1; 2]%Q) j = Some pj ->
         (si <= sj)%Q -> (pj <= pi)%Q).
Proof.
  apply (normalise_inverted_range [3; -1; 2]%Q). discriminate.
Defined.

Lemma count_ratio_unit (a b : nat) :
  a <= b ->
  unit_interval (inject_Z (Z.of_nat a) / inject_Z (Z.of_nat b)).
Proof.
  intros Hab. destruct b as [|b].
  - assert (a = 0) by lia. subst a. vm_compute. split; discriminate.
  - assert (Hpos : (0 < inject_Z (Z.of_nat (S b)))%Q).
    { unfold Qlt. simpl. lia. }
    split.
    + apply Qle_shift_div_l; [exact Hpos|]. unfold Qle. simpl. lia.
    + apply Qle_shift_div_r; [exact Hpos|]. unfold Qle. simpl. lia.
Qed.

Lemma sample_forest_proba_unit (X : matrix) (y x : list Q) (k : nat) :
  unit_interval (forest_proba Sample.estimators X y x k).
Proof.
  simpl. apply count_ratio_unit. apply filter_length_le.
Qed.

Lemma predict_cme_probability_unit_witness :
  exists p,
    predict_cme_probability Sample.lib Sample.estimators Sample.trained
                            Sample.later_batch = Ok p
    /\ length p = nrows Sample.later_batch
    /\ Forall unit_interval p.
Proof.
  eexists. split; [vm_compute; reflexivity|].
  apply (predict_cme_probability_unit Sample.lib Sample.estimators
           Sample.trained Sample.later_batch).
  - exact sample_forest_proba_unit.
  - vm_compute. reflexivity.
Defined.

(** ** What an event is built from *)

Section EventBuilding.

Variable L : NumLib.
Variable G : Rng.

Lemma argmax_lt (l : list Q) (k : nat) : argmax l = Ok k -> k < length l.
Proof.
  intros H. destruct l as [|x l]; [discriminate|].
  destruct (argmax_first_max (x :: l)) as (k' & m & Hk & (Hn & _)); [discriminate|].
  assert (k' = k) by congruence. subst k'.
  apply nth_error_Some. rewrite Hn. discriminate.
Qed.

(** Everything an event holds, read back from the call that built it. *)
Lemma create_cme_event_inv (features_df : DataFrame) (scores : list Q)
      (indices : list nat) (s s' : nat) (e : CMEEvent) :
  _create_cme_event L G features_df scores indices s = (s', Ok e) ->
  exists peak,
    In peak indices
    /\ peak < nrows features_df
    /\ nth_error scores peak = Some (ev_confidence e)
    /\ float_of_cell (row_get features_df peak "velocity" (CNum 400))
       = Ok (ev_velocity e)
    /\ classify (row_get features_df peak "velocity" (CNum 400))
                (row_get features_df peak "proton_flux" (CNum 1000))
       = Ok (ev_type e)
    /\ peak_timestamp features_df peak = Ok (ev_timestamp e)
    /\ ev_id e = ("SWIS_" ++ strftime L (ev_timestamp e))%string
    /\ ev_source e = "swis"
    /\ ev_status e = "detected"
    /\ ev_magnitude e = magnitude_of (ev_velocity e)
    /\ ev_width e = match ev_type e with
                    | halo => 360
                    | partial_halo => 120 + (359 - 120) * random_sample G s
                    | non_halo => 20 + (119 - 20) * random_sample G s
                    end%Q
    /\ ev_acceleration e
       = (-5 + 10 * standard_normal G (after_width (ev_type e) s))%Q
    /\ ev_latitude e
       = (-90 + (90 - -90) * random_sample G (S (after_width (ev_type e) s)))%Q
    /\ ev_longitude e
       = (-180 + (180 - -180)
                 * random_sample G (S (S (after_width (ev_type e) s))))%Q
    /\ s' = S (S (S (after_width (ev_type e) s))).
Proof.
  unfold _create_cme_event, mbind, lift, raise, ret.
  destruct (take_scores scores indices) as [gs|] eqn:Hgs; [|discriminate].
  destruct (argmax gs) as [k|] eqn:Hk; [|discriminate].
  set (peak := nth k indices 0).
  destruct (nrows features_df <=? peak) eqn:Hrows; [discriminate|].
  apply Nat.leb_gt in Hrows.
  destruct (nth_error scores peak) as [c|] eqn:Hc; [|discriminate].
  destruct (classify _ _) as [t|] eqn:Ht; [|discriminate].
  assert (Hin : In peak indices).
  { apply nth_In. apply argmax_lt in Hk.
    apply mapM_length in Hgs. lia. }
  destruct t; unfold draw_width, uniform, normal, ret;
    (destruct (peak_timestamp features_df peak) as [ts|] eqn:Hts; [|discriminate]);
    (destruct (float_of_cell (row_get features_df peak "velocity" (CNum 400)))
       as [v|] eqn:Hv; [|discriminate]);
    intros H; injection H as <- <-; exists peak; simpl;
    repeat (split; [first [assumption|reflexivity]|]); reflexivity.
Qed.

Lemma py_min_le (a b : Q) : (py_min a b <= a)%Q.
Proof.
  unfold py_min. destruct (Qlt_bool b a) eqn:Hb.
  - apply Qlt_le_weak. apply Qlt_bool_iff. exact Hb.
  - apply Qle_refl.
Qed.

(** Every event the builder returns carries the source and status tags
    of this detector and an identifier made of its timestamp; its
    magnitude is at most 10, its width between 20 and 360 degrees, its
    latitude in [-90, 90) and its longitude in [-180, 180).  A halo
    takes three draws from the generator, any other event four. *)
Theorem create_cme_event_fields
        (features_df : DataFrame) (scores : list Q) (indices : list nat)
        (s s' : nat) (e : CMEEvent) :
  (forall n, 0 <= random_sample G n /\ random_sample G n < 1)%Q ->
  _create_cme_event L G features_df scores indices s = (s', Ok e) ->
  ev_source e = "swis"
  /\ ev_status e = "detected"
  /\ ev_id e = ("SWIS_" ++ strftime L (ev_timestamp e))%string
  /\ (ev_magnitude e <= 10)%Q
  /\ (20 <= ev_width e /\ ev_width e <= 360)%Q
  /\ (-90 <= ev_latitude e /\ ev_latitude e < 90)%Q
  /\ (-180 <= ev_longitude e /\ ev_longitude e < 180)%Q
  /\ s' = (if match ev_type e with halo => true | _ => false end
           then s + 3 else s + 4).
Proof.
  intros Hrng H.
  destruct (create_cme_event_inv _ _ _ _ _ _ H)
    as (peak & _ & _ & _ & _ & _ & _ & Hid & Hsrc & Hst & Hmag & Hw & _ & Hlat
        & Hlon & Hs).
  split; [exact Hsrc|]. split; [exact Hst|]. split; [exact Hid|].
  split.
  { rewrite Hmag. unfold magnitude_of.
    destruct (ev_velocity e); [apply py_min_le|apply Qle_refl]. }
  split.
  { rewrite Hw. pose proof (Hrng s) as [H0 H1].
    destruct (ev_type e); split; lra. }
  split.
  { rewrite Hlat. pose proof (Hrng (S (after_width (ev_type e) s))) as [H0 H1].
    split; lra. }
  split.
  { rewrite Hlon.
    pose proof (Hrng (S (S (after_width (ev_type e) s)))) as [H0 H1].
    split; lra. }
  rewrite Hs. destruct (ev_type e); simpl; lia.
Qed.

(** Each event of a segmentation stands for a selected row of the
    table: its confidence is that row's score and its velocity that
    row's velocity. *)
Lemma create_events_peaks (features_df : DataFrame) (scores : list Q)
      (groups : list (list nat)) :
  forall s s' es,
    create_events L G features_df scores groups s = (s', Ok es) ->
    Forall (fun e =>
              exists peak,
                In peak (concat groups)
                /\ peak < nrows features_df
                /\ nth_error scores peak = Some (ev_confidence e)
                /\ float_of_cell (row_get features_df peak "velocity" (CNum 400))
                   = Ok (ev_velocity e)) es.
Proof.
  induction groups as [|g groups IH]; intros s s' es H; simpl in H.
  - unfold ret in H. injection H as _ <-. constructor.
  - unfold mbind in H.
    destruct (_create_cme_event L G features_df scores g s) as [s1 [e|]] eqn:He;
      [|discriminate].
    destruct (create_events L G features_df scores groups s1) as [s2 [es'|]] eqn:Hes;
      [|discriminate].
    unfold ret in H. injection H as _ <-.
    constructor.
    + destruct (create_cme_event_inv _ _ _ _ _ _ He)
        as (peak & Hin & Hlt & Hc & Hv & _).
      exists peak. simpl. rewrite in_app_iff. auto.
    + eapply Forall_impl; [|eapply IH; exact Hes].
      intros e' (peak & Hin & Hrest). exists peak. simpl.
      rewrite in_app_iff. auto.
Qed.

Lemma extract_events_peaks (features_df : DataFrame) (scores : list Q)
      (mask : list bool) (s s' : nat) (es : list CMEEvent) :
  extract_events L G features_df scores mask s = (s', Ok es) ->
  Forall (fun e =>
            exists peak,
              nth_error mask peak = Some true
              /\ peak < nrows features_df
              /\ nth_error scores peak = Some (ev_confidence e)
              /\ float_of_cell (row_get features_df peak "velocity" (CNum 400))
                 = Ok (ev_velocity e)) es.
Proof.
  unfold extract_events.
  destruct (existsb (fun b => b) mask).
  - intros H. apply create_events_peaks in H.
    destruct (grouping_maximal_runs (where_true mask) default_max_gap)
      as [Hcover _ _ _].
    rewrite Hcover in H.
    eapply Forall_impl; [|exact H].
    intros e (peak & Hin & Hrest). exists peak.
    split; [apply where_true_spec; exact Hin|exact Hrest].
  - unfold ret. intros H. injection H as _ <-. constructor.
Qed.

(** Once trained, detection returns only events whose confidence is
    above the configured confidence threshold (0.7 unless configured)
    and at most 1. *)
Theorem detection_confidence_after_training
        (E : Estimators) (self : CMEDetector) (particle_df : DataFrame) :
  is_trained self = true ->
  forall caller run s s' events,
    detect_cme_events L G E self particle_df = (caller, run) ->
    run s = (s', Ok events) ->
    Forall (fun e =>
              (thresholds_get "confidence_threshold" (7 # 10) (thresholds self)
               < ev_confidence e)%Q
              /\ (ev_confidence e <= 1)%Q) events.
Proof.
  intros Htr caller run s s' events Hdet Hrun.
  unfold detect_cme_events in Hdet. rewrite Htr in Hdet. cbn [negb] in Hdet.
  destruct (engineer_features L (feature_engineer self) particle_df) as [c r].
  injection Hdet as _ <-.
  unfold mbind, lift in Hrun.
  destruct r as [features_df|]; [|discriminate].
  destruct (predict_cme_probability L E self features_df) as [ml|]; [|discriminate].
  destruct (apply_threshold_rules self features_df ml) as [final|] eqn:Hfinal;
    [|discriminate].
  unfold segment_events in Hrun. apply extract_events_peaks in Hrun.
  pose proof (apply_threshold_rules_unit _ _ _ _ Hfinal) as Hunit.
  eapply Forall_impl; [|exact Hrun].
  intros e (peak & Hmask & _ & Hc & _). simpl.
  rewrite nth_error_map, Hc in Hmask. simpl in Hmask.
  injection Hmask as Hmask. apply Qlt_bool_iff in Hmask.
  split; [exact Hmask|].
  rewrite Forall_forall in Hunit. apply Hunit.
  eapply nth_error_In. exact Hc.
Qed.

(** *** The exceptions of the segmenter *)

Lemma take_scores_in_range (scores : list Q) (indices : list nat) (gs : list Q) :
  take_scores scores indices = Ok gs ->
  Forall (fun i => i < length scores) indices.
Proof.
  intros H. apply mapM_Forall2 in H.
  induction H as [|i x l r Hix _ IH]; constructor; [|exact IH].
  destruct (nth_error scores i) eqn:E; [|discriminate].
  apply nth_error_Some. rewrite E. discriminate.
Qed.

Lemma create_cme_event_returns_or_index
      (features_df : DataFrame) (scores : list Q) (indices : list nat) (s : nat) :
  indices <> [] ->
  Forall (fun i => i < length scores) indices ->
  (forall i, i < nrows features_df -> row_ready features_df i) ->
  (exists e s', _create_cme_event L G features_df scores indices s = (s', Ok e))
  \/ (_create_cme_event L G features_df scores indices s = (s, Raise IndexError)
      /\ exists i, In i indices /\ nrows features_df <= i).
Proof.
  intros Hne Hin Hready.
  destruct (take_scores_ok scores indices Hin) as (gs & Hgs).
  assert (Hgne : gs <> []).
  { intros ->. apply mapM_Forall2 in Hgs. inversion Hgs; subst. congruence. }
  destruct (argmax_first_max gs Hgne) as (k & m & Hk & (Hkm & _)).
  pose proof (take_scores_nth _ _ _ Hgs k) as Hnth. rewrite Hkm in Hnth.
  destruct (nth_error indices k) as [peak|] eqn:Ek; [|contradiction].
  assert (Hpin : In peak indices) by (eapply nth_error_In; exact Ek).
  destruct (Nat.lt_ge_cases peak (nrows features_df)) as [Hlt|Hge].
  - left.
    destruct (Hready peak Hlt) as ((ns & Hns) & (v & Hv) & (p & Hp)).
    unfold _create_cme_event, mbind, lift.
    rewrite Hgs, Hk. rewrite (nth_error_nth _ _ 0 Ek).
    replace (nrows features_df <=? peak) with false
      by (symmetry; apply Nat.leb_gt; lia).
    rewrite Hnth. unfold classify. rewrite Hv, Hp, Hns. simpl bind.
    destruct (fgt v (Some 800%Q)), (fgt p (Some 2000%Q)),
             (fgt v (Some 600%Q)), (fgt p (Some 1500%Q));
      simpl; eexists _, _; reflexivity.
  - right. split; [|exists peak; auto].
    unfold _create_cme_event, mbind, lift.
    rewrite Hgs, Hk. rewrite (nth_error_nth _ _ 0 Ek).
    replace (nrows features_df <=? peak) with true
      by (symmetry; apply Nat.leb_le; lia).
    reflexivity.
Qed.

Lemma create_events_raises (features_df : DataFrame) (scores : list Q)
      (groups : list (list nat)) :
  Forall (fun g => g <> []) groups ->
  Forall (fun i => i < length scores) (concat groups) ->
  (forall i, i < nrows features_df -> row_ready features_df i) ->
  forall s s' e,
    create_events L G features_df scores groups s = (s', Raise e) ->
    e = IndexError /\ exists i, In i (concat groups) /\ nrows features_df <= i.
Proof.
  intros Hne Hin Hready.
  induction groups as [|g groups IH]; intros s s' e H; simpl in H.
  - discriminate.
  - simpl in Hin. apply Forall_app in Hin. destruct Hin as [Hg Hrest].
    inversion Hne as [|? ? Hgne Hne']; subst.
    unfold mbind in H.
    destruct (create_cme_event_returns_or_index features_df scores g s Hgne Hg Hready)
      as [(ev & s1 & He)|(He & i & Hi & Hge)]; rewrite He in H.
    + destruct (create_events L G features_df scores groups s1)
        as [s2 [es|e']] eqn:Hes; [discriminate|].
      injection H as _ <-.
      destruct (IH Hne' Hrest s1 s2 e' Hes) as (-> & i & Hi & Hge).
      split; [reflexivity|]. exists i. simpl. rewrite in_app_iff. auto.
    + injection H as _ <-. split; [reflexivity|].
      exists i. simpl. rewrite in_app_iff. auto.
Qed.

(** On a table whose rows carry a timestamp and numeric velocity and
    proton flux, the only exception the segmenter raises is IndexError,
    and only when a score beyond the last row of the table is above the
    threshold. *)
Theorem segment_events_raises_index_error
        (features_df : DataFrame) (scores : list Q) (threshold : Q)
        (s s' : nat) (e : exception) :
  (forall i, i < nrows features_df -> row_ready features_df i) ->
  segment_events L G features_df scores threshold s = (s', Raise e) ->
  e = IndexError
  /\ exists i x,
       nrows features_df <= i
       /\ nth_error scores i = Some x
       /\ (threshold < x)%Q.
Proof.
  intros Hready. unfold segment_events, extract_events.
  set (mask := map (fun x => Qlt_bool threshold x) scores).
  destruct (existsb (fun b => b) mask); [|discriminate].
  destruct (grouping_maximal_runs (where_true mask) default_max_gap)
    as [Hcover Hnonempty _ _].
  assert (Hrange : Forall (fun i => i < length scores) (where_true mask)).
  { apply Forall_forall. intros i Hi. apply where_true_spec in Hi.
    assert (Hlt : i < length mask) by (apply nth_error_Some; rewrite Hi; discriminate).
    unfold mask in Hlt. rewrite length_map in Hlt. exact Hlt. }
  intros H.
  apply create_events_raises in H; [|exact Hnonempty|rewrite Hcover; exact Hrange
                                     |exact Hready].
  destruct H as (-> & i & Hi & Hge). split; [reflexivity|].
  rewrite Hcover in Hi. apply where_true_spec in Hi.
  unfold mask in Hi. rewrite nth_error_map in Hi.
  destruct (nth_error scores i) as [x|] eqn:Hx; [|discriminate].
  simpl in Hi. injection Hi as Hi. apply Qlt_bool_iff in Hi.
  exists i, x. auto.
Qed.

End EventBuilding.

(** Every event of the rule-based detection was measured at a velocity
    above the velocity threshold (500 unless configured), also when the
    table has no velocity column and the defaults stand in. *)
Theorem rule_based_events_velocity
        (L : NumLib) (G : Rng) (self : CMEDetector) (particle_df : DataFrame) :
  forall caller run s s' events,
    rule_based_detection L G self particle_df = (caller, run) ->
    run s = (s', Ok events) ->
    Forall (fun e =>
              exists v,
                ev_velocity e = Some v
                /\ (thresholds_get "velocity_threshold" 500 (thresholds self) < v)%Q)
           events.
Proof.
  intros caller run s s' events Hdet Hrun.
  unfold rule_based_detection in Hdet.
  destruct (engineer_features L (feature_engineer self) particle_df) as [c r].
  injection Hdet as _ <-.
  unfold mbind, lift in Hrun.
  destruct r as [features_df|]; [|discriminate].
  set (vt := thresholds_get "velocity_threshold" 500 (thresholds self)) in *.
  destruct (gt_mask features_df "velocity" 0 vt) as [mv|] eqn:Hmv; [|discriminate].
  destruct (gt_mask features_df "proton_flux" 0 _) as [mf|]; [|discriminate].
  apply extract_events_peaks in Hrun.
  eapply Forall_impl; [|exact Hrun].
  intros e (peak & Hmask & Hlt & _ & Hv). simpl.
  rewrite nth_error_map in Hmask.
  destruct (nth_error (combine mv mf) peak) as [[bv bf]|] eqn:Hp; [|discriminate].
  simpl in Hmask. injection Hmask as Hmask.
  apply andb_true_iff in Hmask. destruct Hmask as [-> _].
  apply nth_error_combine in Hp. destruct Hp as [Hbv _].
  unfold gt_mask in Hmv. apply mapM_Forall2 in Hmv.
  unfold row_get in Hv.
  pose proof (Forall2_nth_error _ _ _ Hmv peak) as Hn. rewrite Hbv in Hn.
  destruct (get_col "velocity" features_df) as [col|].
  - destruct (nth_error col peak) as [x|] eqn:Hx; [|contradiction].
    rewrite (nth_error_nth _ _ CNaN Hx) in Hv.
    rewrite Hv in Hn. cbn [bind] in Hn. injection Hn as Hn.
    destruct (ev_velocity e) as [v|]; [|discriminate].
    exists v. split; [reflexivity|]. apply Qlt_bool_iff. exact Hn.
  - destruct (nth_error (repeat (CNum 0) (nrows features_df)) peak) as [x|] eqn:Hx;
      [|contradiction].
    apply nth_error_In in Hx. apply repeat_spec in Hx. subst x.
    cbn [float_of_cell bind fgt] in Hn. injection Hn as Hn.
    apply Qlt_bool_iff in Hn.
    cbn [float_of_cell] in Hv. injection Hv as Hv.
    exists 400%Q. split; [symmetry; exact Hv|]. lra.
Qed.

Lemma sample_rng_unit (n : nat) :
  (0 <= random_sample Sample.rng n /\ random_sample Sample.rng n < 1)%Q.
Proof. simpl. split; lra. Qed.

Lemma sample_features_ready (i : nat) :
  i < nrows Sample.features -> row_ready Sample.features i.
Proof.
  intros Hi. simpl in Hi.
  do 5 (destruct i as [|i]; [repeat split; eexists; reflexivity|]).
  lia.
Qed.

Lemma create_cme_event_fields_witness :
  exists e s',
    _create_cme_event Sample.lib Sample.rng Sample.features Sample.scores
                      [2; 3; 4] 0 = (s', Ok e)
    /\ ev_source e = "swis"
    /\ ev_status e = "detected"
    /\ ev_id e = ("SWIS_" ++ strftime Sample.lib (ev_timestamp e))%string
    /\ (ev_magnitude e <= 10)%Q
    /\ (20 <= ev_width e /\ ev_width e <= 360)%Q
    /\ (-90 <= ev_latitude e /\ ev_latitude e < 90)%Q
    /\ (-180 <= ev_longitude e /\ ev_longitude e < 180)%Q
    /\ s' = (if match ev_type e with halo => true | _ => false end
             then 0 + 3 else 0 + 4).
Proof.
  eexists. eexists. split; [vm_compute; reflexivity|].
  eapply (create_cme_event_fields Sample.lib Sample.rng Sample.features
            Sample.scores [2; 3; 4] 0).
  - exact sample_rng_unit.
  - vm_compute. reflexivity.
Defined.

Lemma detection_confidence_after_training_witness :
  exists events,
    snd (snd (detect_cme_events Sample.lib Sample.rng Sample.estimators
                                Cases.detector Sample.telemetry) 0)
    = Ok events
    /\ events <> []
    /\ Forall (fun e =>
                 (thresholds_get "confidence_threshold" (7 # 10)
                                 (thresholds Cases.detector)
                  < ev_confidence e)%Q
                 /\ (ev_confidence e <= 1)%Q) events.
Proof.
  eexists. split; [vm_compute; reflexivity|]. split; [discriminate|].
  eapply (detection_confidence_after_training Sample.lib Sample.rng
            Sample.estimators Cases.detector Sample.telemetry eq_refl _ _ 0 _ _).
  - apply surjective_pairing.
  - vm_compute. reflexivity.
Defined.

Lemma segment_events_raises_index_error_witness :
  exists s',
    segment_events Sample.lib Sample.rng Sample.features Cases.overlong_scores
                   (7 # 10) 0 = (s', Raise IndexError)
    /\ exists i x,
         nrows Sample.features <= i
         /\ nth_error Cases.overlong_scores i = Some x
         /\ (7 # 10 < x)%Q.
Proof.
  eexists. split; [vm_compute; reflexivity|].
  eapply (segment_events_raises_index_error Sample.lib Sample.rng
            Sample.features Cases.overlong_scores (7 # 10) 0 _ IndexError).
  - exact sample_features_ready.
  - vm_compute. reflexivity.
Defined.

Lemma rule_based_events_velocity_witness :
  exists events,
    snd (snd (rule_based_detection Sample.lib Sample.rng Sample.untrained
                                   Sample.telemetry) 0) = Ok events
    /\ events <> []
    /\ Forall (fun e =>
                 exists v,
                   ev_velocity e = Some v
                   /\ (thresholds_get "velocity_threshold" 500
                                      (thresholds Sample.untrained) < v)%Q)
              events.
Proof.
  eexists. split; [vm_compute; reflexivity|]. split; [discriminate|].
  eapply (rule_based_events_velocity Sample.lib Sample.rng Sample.untrained
            Sample.telemetry _ _ 0 _ _).
  - apply surjective_pairing.
  - vm_compute. reflexivity.
Defined.

(** ** Training: when it returns, and what it leaves *)

Section TrainingFacts.

Variable L : NumLib.

Lemma importance_values_length (features_df : DataFrame) (Xf : matrix) :
  check_array (importance_values features_df) = Ok Xf ->
  length Xf = nrows features_df.
Proof.
  intros H. unfold importance_values in H.
  destruct (check_array_shape _ _ _ H (values_rows _ _)) as (_ & Hlen & _).
  rewrite Hlen. apply values_length.
Qed.

Lemma train_models_integer_labels (features_df : DataFrame) (labels : list Q)
      (d d' : CMEDetector) :
  train_models L features_df labels d = (d', Ok tt) ->
  forallb is_integer labels = true.
Proof.
  unfold train_models.
  unfold mbind at 1. unfold write at 1. unfold mbind at 1. unfold read at 1.
  cbn [feature_columns set_feature_columns].
  destruct (columns_present get_feature_importance_columns features_df)
    as [|c0 cs] eqn:Hav; [discriminate|].
  rewrite <- Hav. clear Hav.
  set (d0 := set_feature_columns get_feature_importance_columns d).
  set (X := values features_df _).
  unfold mbind at 1.
  destruct (scaler_fit_transform_cases L X d0) as [(Xf & HXf & Hs)|(e & He & Hs)];
    rewrite Hs; [|discriminate].
  set (X_scaled := map (scaler_transform_row L (scaler_fit Xf)) Xf).
  set (d1 := set_scaler (Some (scaler_fit Xf)) (set_scaler None d0)).
  unfold mbind at 1.
  destruct (fit_novelty_cases set_isolation_forest X_scaled labels d1)
    as [(nd & Hnd & Hlen & Hf)|(Hlen & Hf)]; rewrite Hf; [|discriminate].
  unfold mbind at 1.
  set (d2 := if 0 <? length nd then set_isolation_forest (Some nd) d1 else d1).
  destruct (fit_novelty_cases set_svm X_scaled labels d2)
    as [(nd' & Hnd' & _ & Hf')|(Hlen' & _)]; [|congruence].
  rewrite Hf'.
  unfold mbind, fit_forest.
  rewrite Hlen, Nat.eqb_refl. simpl negb.
  destruct (forallb is_integer labels); [reflexivity|].
  simpl. discriminate.
Qed.

Lemma train_models_returns_cases
      (features_df : DataFrame) (labels : list Q) (d : CMEDetector) :
  (exists d', train_models L features_df labels d = (d', Ok tt))
  <-> (columns_present get_feature_importance_columns features_df <> []
       /\ (exists Xf, check_array (importance_values features_df) = Ok Xf)
       /\ length labels = nrows features_df
       /\ forallb is_integer labels = true).
Proof.
  split.
  - intros (d' & Hrun).
    pose proof (train_models_integer_labels _ _ _ _ Hrun) as Hint.
    apply train_models_trained_to in Hrun.
    inversion Hrun as [| | | |Xf nd Hne Hchk Hmask Hlen]; subst; clear Hrun.
    split; [exact Hne|]. split; [exists Xf; exact Hchk|].
    split; [|exact Hint].
    rewrite <- Hlen. apply importance_values_length. exact Hchk.
  - intros (Hne & (Xf & Hchk) & Hlen & Hint).
    destruct (train_models_run L features_df labels d) as (d' & r & Hrun & Ht).
    exists d'. rewrite Hrun. f_equal.
    pose proof (importance_values_length _ _ Hchk) as HXf.
    inversion Ht as [Hav|e Hne' Hchk'|Xf' Hne' Hchk' Hlen'
                     |Xf' nd Hne' Hchk' Hmask Hint'
                     |Xf' nd Hne' Hchk' Hmask Hlen']; subst.
    + contradiction.
    + congruence.
    + exfalso. apply Hlen'. assert (Xf' = Xf) by congruence. subst Xf'. lia.
    + congruence.
    + reflexivity.
Qed.

Lemma train_models_returns_any
      (features_df : DataFrame) (labels : list Q) (d1 d2 : CMEDetector) :
  (exists d', train_models L features_df labels d1 = (d', Ok tt)) ->
  exists d', train_models L features_df labels d2 = (d', Ok tt).
Proof.
  intros H. apply train_models_returns_cases.
  apply (train_models_returns_cases features_df labels d1). exact H.
Qed.

(** A training call returns only if the table offers at least one
    feature-importance column, has at least one row, and comes with one
    integer label per row; and whether it returns depends on the table
    and the labels alone, not on the detector it is called on. *)
Theorem train_models_returns_only_if
        (features_df : DataFrame) (labels : list Q) (d d' : CMEDetector) :
  train_models L features_df labels d = (d', Ok tt) ->
  columns_present get_feature_importance_columns features_df <> []
  /\ 0 < nrows features_df
  /\ length labels = nrows features_df
  /\ forallb is_integer labels = true
  /\ forall d2, exists d2', train_models L features_df labels d2 = (d2', Ok tt).
Proof.
  intros Hrun.
  assert (Hex : exists d0, train_models L features_df labels d = (d0, Ok tt))
    by (exists d'; exact Hrun).
  destruct (proj1 (train_models_returns_cases features_df labels d) Hex)
    as (Hne & (Xf & Hchk) & Hlen & Hint).
  split; [exact Hne|].
  split.
  { rewrite <- (importance_values_length _ _ Hchk).
    unfold importance_values in Hchk.
    destruct (check_array_shape _ _ _ Hchk (values_rows _ _)) as (HXf & _).
    destruct Xf; [congruence|simpl; lia]. }
  split; [exact Hlen|]. split; [exact Hint|].
  intros d2. exact (train_models_returns_any features_df labels d d2 Hex).
Qed.

(** A training call that returns has fitted the classifier on every
    scaled row, and both novelty detectors on the scaled rows labelled
    0.  When no row is labelled 0 it keeps whatever novelty detectors
    the detector had, although it has refitted the Scaler they were
    trained under. *)
Theorem train_models_fits
        (features_df : DataFrame) (labels : list Q) (d d' : CMEDetector) :
  train_models L features_df labels d = (d', Ok tt) ->
  exists Xf,
    check_array (importance_values features_df) = Ok Xf
    /\ scaler d' = Some (scaler_fit Xf)
    /\ let X_scaled := map (scaler_transform_row L (scaler_fit Xf)) Xf in
       let normal_data :=
         map fst (filter snd (combine X_scaled (normal_mask labels))) in
       random_forest d' = Some (X_scaled, labels)
       /\ length X_scaled = length labels
       /\ (normal_data <> [] ->
           isolation_forest d' = Some normal_data /\ svm d' = Some normal_data)
       /\ (normal_data = [] ->
           isolation_forest d' = isolation_forest d /\ svm d' = svm d).
Proof.
  intros Hrun.
  destruct (train_models_success _ _ _ _ _ Hrun)
    as (Xf & nd & Hchk & Hmask & Hlen & _ & _ & Hsc & Hrf & Hif & Hsvm).
  exists Xf. split; [exact Hchk|]. split; [exact Hsc|].
  cbv zeta. split; [exact Hrf|]. split; [rewrite length_map; exact Hlen|].
  unfold mask_rows in Hmask.
  destruct (_ =? _) in Hmask; [|discriminate].
  injection Hmask as Hnd. rewrite Hnd.
  split.
  - intros Hne. destruct nd as [|r nd]; [congruence|].
    simpl in Hif, Hsvm. auto.
  - intros ->. simpl in Hif, Hsvm. auto.
Qed.

(** Training is idempotent: a second call with the same table and
    labels returns and leaves the detector exactly as the first call
    left it. *)
Theorem train_models_idempotent
        (features_df : DataFrame) (labels : list Q) (d d' : CMEDetector) :
  train_models L features_df labels d = (d', Ok tt) ->
  train_models L features_df labels d' = (d', Ok tt).
Proof.
  intros Hrun.
  assert (Hcond : exists d2, train_models L features_df labels d' = (d2, Ok tt)).
  { apply (train_models_returns_any features_df labels d d').
    exists d'. exact Hrun. }
  destruct Hcond as (d2 & Hrun2). rewrite Hrun2. f_equal.
  apply train_models_trained_to in Hrun, Hrun2.
  inversion Hrun as [| | | |Xf nd Hne Hchk Hmask Hlen]; subst; clear Hrun.
  inversion Hrun2 as [| | | |Xf2 nd2 Hne2 Hchk2 Hmask2 Hlen2]; subst; clear Hrun2.
  assert (Xf2 = Xf) by congruence. subst Xf2.
  assert (nd2 = nd) by congruence. subst nd2.
  cbv zeta. destruct d. destruct (0 <? length nd); reflexivity.
Qed.

End TrainingFacts.

Lemma train_models_returns_only_if_witness :
  columns_present get_feature_importance_columns Sample.training <> []
  /\ 0 < nrows Sample.training
  /\ length Sample.labels = nrows Sample.training
  /\ forallb is_integer Sample.labels = true
  /\ forall d2, exists d2',
       train_models Sample.lib Sample.training Sample.labels d2 = (d2', Ok tt).
Proof.
  apply (train_models_returns_only_if Sample.lib Sample.training Sample.labels
           Sample.untrained Sample.trained).
  vm_compute. reflexivity.
Defined.

Lemma train_models_fits_witness :
  exists Xf,
    check_array (importance_values Sample.training) = Ok Xf
    /\ scaler Sample.trained = Some (scaler_fit Xf)
    /\ let X_scaled := map (scaler_transform_row Sample.lib (scaler_fit Xf)) Xf in
       let normal_data :=
         map fst (filter snd (combine X_scaled (normal_mask Sample.labels))) in
       random_forest Sample.trained = Some (X_scaled, Sample.labels)
       /\ length X_scaled = length Sample.labels
       /\ (normal_data <> [] ->
           isolation_forest Sample.trained = Some normal_data
           /\ svm Sample.trained = Some normal_data)
       /\ (normal_data = [] ->
           isolation_forest Sample.trained = isolation_forest Sample.untrained
           /\ svm Sample.trained = svm Sample.untrained).
Proof.
  apply (train_models_fits Sample.lib Sample.training Sample.labels
           Sample.untrained Sample.trained).
  vm_compute. reflexivity.
Defined.

Lemma train_models_idempotent_witness :
  train_models Sample.lib Sample.training Sample.labels Sample.trained
  = (Sample.trained, Ok tt).
Proof.
  apply (train_models_idempotent Sample.lib Sample.training Sample.labels
           Sample.untrained Sample.trained).
  vm_compute. reflexivity.
Defined.

(** ** Feature engineering: the shape and content of its result *)

Lemma columns_set_col (name : string) (c : column) (df : DataFrame) :
  columns (set_col name c df)
  = if has_col name df then columns df else columns df ++ [name].
Proof.
  unfold has_col. induction df as [|[n c0] df IH]; simpl; [reflexivity|].
  destruct (String.eqb n name); simpl; [reflexivity|].
  rewrite IH. destruct (get_col name df); reflexivity.
Qed.

Lemma get_col_set_col_other (name name' : string) (c : column) (df : DataFrame) :
  name <> name' ->
  get_col name (set_col name' c df) = get_col name df.
Proof.
  intros Hne. induction df as [|[n c0] df IH]; simpl.
  - destruct (String.eqb name' name) eqn:E; [|reflexivity].
    apply String.eqb_eq in E. congruence.
  - destruct (String.eqb n name') eqn:E'; simpl.
    + apply String.eqb_eq in E'. subst n.
      destruct (String.eqb name' name) eqn:E; [|reflexivity].
      apply String.eqb_eq in E. congruence.
    + destruct (String.eqb n name); [reflexivity|exact IH].
Qed.

Lemma nrows_set_col (name : string) (c : column) (df : DataFrame) :
  length c = nrows df -> nrows (set_col name c df) = nrows df.
Proof.
  destruct df as [|[n c0] df]; simpl; [auto|].
  destruct (String.eqb n name); simpl; auto.
Qed.

Lemma Forall_set_col (P : string * column -> Prop) (name : string) (c : column)
      (df : DataFrame) :
  (forall n, P (n, c)) -> Forall P df -> Forall P (set_col name c df).
Proof.
  intros Hc H. induction H as [|[n c0] df Hn Ht IH]; simpl.
  - constructor; [apply Hc|constructor].
  - destruct (String.eqb n name); constructor; auto.
Qed.

Lemma rectangular_set_col (name : string) (c : column) (df : DataFrame) :
  rectangular df -> length c = nrows df -> rectangular (set_col name c df).
Proof.
  intros Hr Hc. unfold rectangular. rewrite (nrows_set_col _ _ _ Hc).
  apply Forall_set_col; [intros n; exact Hc|exact Hr].
Qed.

Lemma float_of_cell_is_float (c : cell) (x : float) :
  float_of_cell c = Ok x -> is_float c /\ c = cell_of_float x.
Proof.
  destruct c; simpl; try discriminate; intros H; injection H as <-; split;
    first [exact I|reflexivity].
Qed.

Lemma numeric_column (name : string) (df : DataFrame) (xs : list float) :
  numeric name df = Ok xs ->
  exists c, get_col name df = Some c
            /\ length xs = length c
            /\ Forall is_float c.
Proof.
  unfold numeric, getitem. destruct (get_col name df) as [c|]; [|discriminate].
  cbn [bind]. intros H. exists c. split; [reflexivity|].
  split; [exact (mapM_length _ _ _ H)|].
  apply mapM_Forall2 in H. induction H as [|a b l r Hab _ IH]; constructor.
  - exact (proj1 (float_of_cell_is_float _ _ Hab)).
  - exact IH.
Qed.

Lemma numeric_length (name : string) (df : DataFrame) (xs : list float) :
  rectangular df -> numeric name df = Ok xs -> length xs = nrows df.
Proof.
  intros Hr H. destruct (numeric_column _ _ _ H) as (c & Hc & Hlen & _).
  rewrite Hlen. exact (rectangular_get_col _ _ _ Hr Hc).
Qed.

Lemma numeric_float_column (name : string) (df : DataFrame) (xs : list float) :
  numeric name df = Ok xs -> float_column name df.
Proof.
  intros H. destruct (numeric_column _ _ _ H) as (c & Hc & _ & Hf).
  exists c. auto.
Qed.

Lemma cell_of_float_is_float (l : list float) :
  Forall is_float (map cell_of_float l).
Proof.
  induction l as [|[x|] l IH]; simpl; constructor; auto; exact I.
Qed.

Lemma float_column_set_floats (name name' : string) (l : list float)
      (df : DataFrame) :
  float_column name df -> float_column name (set_floats name' l df).
Proof.
  intros (c & Hc & Hf). unfold set_floats.
  destruct (string_dec name name') as [->|Hne].
  - exists (map cell_of_float l). split; [apply get_col_set_col|].
    apply cell_of_float_is_float.
  - exists c. split; [|exact Hf].
    rewrite get_col_set_col_other; assumption.
Qed.

Lemma float_column_new (name : string) (l : list float) (df : DataFrame) :
  float_column name (set_floats name l df).
Proof.
  exists (map cell_of_float l). split; [apply get_col_set_col|].
  apply cell_of_float_is_float.
Qed.

Lemma set_scalar_floats (name : string) (q : Q) (df : DataFrame) :
  set_scalar name q df = set_floats name (repeat (Some q) (nrows df)) df.
Proof.
  unfold set_scalar, set_floats. rewrite map_repeat. reflexivity.
Qed.

(** *** What a sequence of assignments keeps *)

Lemma derived_trans (a b c : DataFrame) :
  derived a b -> derived b c -> derived a c.
Proof.
  intros Hab Hbc. induction Hbc as [|b c name l _ IH Hl]; [exact Hab|].
  apply derived_set; auto.
Qed.

Lemma derived_one (name : string) (l : list float) (df : DataFrame) :
  length l = nrows df -> derived df (set_floats name l df).
Proof. intros H. apply derived_set; [apply derived_refl|exact H]. Qed.

Lemma derived_scalar (name : string) (q : Q) (df : DataFrame) :
  derived df (set_scalar name q df).
Proof.
  rewrite set_scalar_floats. apply derived_one. apply repeat_length.
Qed.

Lemma derived_rectangular (df df' : DataFrame) :
  derived df df' -> rectangular df ->
  rectangular df' /\ nrows df' = nrows df.
Proof.
  induction 1 as [|df df' name l _ IH Hl]; intros Hr; [auto|].
  destruct (IH Hr) as [Hr' Hn].
  assert (Hc : length (map cell_of_float l) = nrows df')
    by (rewrite length_map; exact Hl).
  unfold set_floats. split.
  - apply rectangular_set_col; assumption.
  - rewrite (nrows_set_col _ _ _ Hc). exact Hn.
Qed.

Lemma derived_columns (df df' : DataFrame) :
  derived df df' -> exists extra, columns df' = columns df ++ extra.
Proof.
  induction 1 as [|df df' name l _ IH Hl].
  - exists []. symmetry. apply app_nil_r.
  - destruct IH as (extra & IH). unfold set_floats.
    rewrite columns_set_col. destruct (has_col name df').
    + exists extra. exact IH.
    + exists (extra ++ [name]). rewrite IH. symmetry. apply app_assoc.
Qed.

Lemma derived_float_column (name : string) (df df' : DataFrame) :
  derived df df' -> float_column name df -> float_column name df'.
Proof.
  induction 1 as [|df df' n l _ IH Hl]; intros Hf; [exact Hf|].
  apply float_column_set_floats. auto.
Qed.

Lemma foldM_derived {A : Type} (f : DataFrame -> A -> result DataFrame) :
  (forall b a b', rectangular b -> f b a = Ok b' -> derived b b') ->
  forall l b b', rectangular b -> foldM f l b = Ok b' -> derived b b'.
Proof.
  intros Hstep. induction l as [|a l IH]; intros b b' Hr H; simpl in H.
  - injection H as <-. apply derived_refl.
  - destruct (f b a) as [b1|] eqn:Hb; [|discriminate]. cbn [bind] in H.
    pose proof (Hstep _ _ _ Hr Hb) as Hd.
    apply (derived_trans _ _ _ Hd).
    apply IH; [|exact H]. exact (proj1 (derived_rectangular _ _ Hd Hr)).
Qed.

Lemma foldM_creates {A : Type} (f : DataFrame -> A -> result DataFrame)
      (Q : A -> DataFrame -> Prop) :
  (forall b a b', rectangular b -> f b a = Ok b' -> derived b b') ->
  (forall b a b', rectangular b -> f b a = Ok b' -> Q a b') ->
  (forall a b b', derived b b' -> Q a b -> Q a b') ->
  forall l b b', rectangular b -> foldM f l b = Ok b' ->
                 forall a, In a l -> Q a b'.
Proof.
  intros Hstep Hmake Hkeep.
  induction l as [|a l IH]; intros b b' Hr H x Hx; simpl in H; [destruct Hx|].
  destruct (f b a) as [b1|] eqn:Hb; [|discriminate]. cbn [bind] in H.
  pose proof (Hstep _ _ _ Hr Hb) as Hd.
  pose proof (proj1 (derived_rectangular _ _ Hd Hr)) as Hr1.
  destruct Hx as [<-|Hx].
  - apply (Hkeep a b1 b'); [|exact (Hmake _ _ _ Hr Hb)].
    exact (foldM_derived f Hstep l b1 b' Hr1 H).
  - exact (IH b1 b' Hr1 H x Hx).
Qed.

Lemma rolling_length (w : nat) (agg : list Q -> float) (xs r : list float) :
  rolling w agg xs = Ok r -> length r = length xs.
Proof.
  unfold rolling. destruct (w =? 0); [discriminate|].
  intros H. injection H as <-. rewrite length_map, length_seq. reflexivity.
Qed.

Lemma series_diff_length (w : nat) (xs : list float) :
  length (series_diff w xs) = length xs.
Proof. unfold series_diff. rewrite length_map, length_seq. reflexivity. Qed.

Lemma time_delta_from_length (ts : list (option Z)) :
  forall prev, length (time_delta_from prev ts) = length ts.
Proof. induction ts as [|t ts IH]; intros prev; simpl; auto. Qed.

Section FeatureFacts.

Variable L : NumLib.
Variable fe : FeatureEngineer.

Lemma create_time_features_derived (df df' : DataFrame) :
  rectangular df -> create_time_features L df = Ok df' -> derived df df'.
Proof.
  intros Hr. unfold create_time_features, getitem.
  destruct (get_col "timestamp" df) as [c|] eqn:Hc; [|discriminate].
  cbn [bind].
  destruct (mapM dt_of_cell c) as [ts|] eqn:Hts; [|discriminate]. cbn [bind].
  intros H. injection H as <-.
  assert (Hlen : length ts = nrows df).
  { rewrite (mapM_length _ _ _ Hts). exact (rectangular_get_col _ _ _ Hr Hc). }
  assert (H1 : derived df (set_floats "hour" (map dt_hour ts) df)).
  { apply derived_one. rewrite length_map. exact Hlen. }
  pose proof (proj2 (derived_rectangular _ _ H1 Hr)) as N1.
  assert (H2 : derived df (set_floats "day_of_year" (map (dt_dayofyear L) ts)
                             (set_floats "hour" (map dt_hour ts) df))).
  { apply derived_set; [exact H1|]. rewrite length_map. congruence. }
  pose proof (proj2 (derived_rectangular _ _ H2 Hr)) as N2.
  apply derived_set; [apply derived_set; [exact H2|]|].
  - rewrite !length_map. congruence.
  - rewrite time_delta_from_length.
    unfold set_floats at 1. rewrite nrows_set_col; [congruence|].
    rewrite !length_map. congruence.
Qed.

Lemma rolling_to_derived (src dst : string) (w : nat) (agg : list Q -> float)
      (df df' : DataFrame) :
  rectangular df -> rolling_to src dst w agg df = Ok df' ->
  derived df df' /\ float_column src df /\ float_column dst df'.
Proof.
  intros Hr. unfold rolling_to.
  destruct (numeric src df) as [xs|] eqn:Hxs; [|discriminate]. cbn [bind].
  destruct (rolling w agg xs) as [r|] eqn:Hroll; [|discriminate]. cbn [bind].
  intros H. injection H as <-.
  split; [|split].
  - apply derived_one. rewrite (rolling_length _ _ _ _ Hroll).
    exact (numeric_length _ _ _ Hr Hxs).
  - exact (numeric_float_column _ _ _ Hxs).
  - apply float_column_new.
Qed.

Lemma moving_average_step_derived (w : nat) (df : DataFrame)
      (sc : string * string) (df' : DataFrame) :
  rectangular df -> moving_average_step w df sc = Ok df' ->
  derived df df'
  /\ float_column (fst sc) df
  /\ float_column (snd sc ++ "_ma_" ++ str_of_nat w) df'.
Proof.
  intros Hr H. exact (rolling_to_derived _ _ _ _ _ _ Hr H).
Qed.

Lemma gradient_step_derived (w : nat) (df : DataFrame)
      (sc : string * string) (df' : DataFrame) :
  rectangular df -> gradient_step w df sc = Ok df' ->
  derived df df'
  /\ float_column (snd sc ++ "_grad_" ++ str_of_nat w) df'.
Proof.
  intros Hr. unfold gradient_step.
  destruct (numeric (fst sc) df) as [xs|] eqn:Hxs; [|discriminate]. cbn [bind].
  intros H. injection H as <-. split.
  - apply derived_one. rewrite series_diff_length.
    exact (numeric_length _ _ _ Hr Hxs).
  - apply float_column_new.
Qed.

Lemma create_moving_averages_derived (df df' : DataFrame) :
  rectangular df -> create_moving_averages fe df = Ok df' ->
  derived df df'
  /\ forall w sc,
       In w (moving_avg_windows fe) -> In sc signal_columns ->
       float_column (fst sc) df'
       /\ float_column (snd sc ++ "_ma_" ++ str_of_nat w) df'.
Proof.
  intros Hr H. unfold create_moving_averages in H.
  assert (Hinner : forall w b b',
             rectangular b ->
             foldM (moving_average_step w) signal_columns b = Ok b' ->
             derived b b').
  { intros w b b' Hb Hf.
    refine (foldM_derived (moving_average_step w) _ _ _ _ Hb Hf).
    intros b0 a b1 Hb0 Hs.
    exact (proj1 (moving_average_step_derived _ _ _ _ Hb0 Hs)). }
  split.
  - refine (foldM_derived _ _ _ _ _ Hr H).
    intros b w b' Hb Hf. exact (Hinner w b b' Hb Hf).
  - intros w sc Hw Hsc.
    refine (foldM_creates _
              (fun w b' => forall sc, In sc signal_columns ->
                 float_column (fst sc) b'
                 /\ float_column (snd sc ++ "_ma_" ++ str_of_nat w) b')
              _ _ _ _ _ _ Hr H w Hw sc Hsc).
    + intros b w0 b' Hb Hf. exact (Hinner w0 b b' Hb Hf).
    + intros b w0 b' Hb Hf sc0 Hsc0.
      refine (foldM_creates (moving_average_step w0)
                (fun sc b' => float_column (fst sc) b'
                   /\ float_column (snd sc ++ "_ma_" ++ str_of_nat w0) b')
                _ _ _ _ _ _ Hb Hf sc0 Hsc0).
      * intros b0 a b1 Hb0 Hs.
        exact (proj1 (moving_average_step_derived _ _ _ _ Hb0 Hs)).
      * intros b0 a b1 Hb0 Hs.
        destruct (moving_average_step_derived _ _ _ _ Hb0 Hs) as (Hd & Hsrc & Hdst).
        split; [exact (derived_float_column _ _ _ Hd Hsrc)|exact Hdst].
      * intros a b0 b1 Hd [H1 H2].
        split; eapply derived_float_column; eassumption.
    + intros w0 b b' Hd Hq sc0 Hsc0. destruct (Hq sc0 Hsc0) as [H1 H2].
      split; eapply derived_float_column; eassumption.
Qed.

Lemma create_gradients_derived (df df' : DataFrame) :
  rectangular df -> create_gradients fe df = Ok df' ->
  derived df df'
  /\ forall w sc,
       In w (gradient_windows fe) -> In sc signal_columns ->
       float_column (snd sc ++ "_grad_" ++ str_of_nat w) df'.
Proof.
  intros Hr H. unfold create_gradients in H.
  assert (Hinner : forall w b b',
             rectangular b ->
             foldM (gradient_step w) signal_columns b = Ok b' ->
             derived b b').
  { intros w b b' Hb Hf.
    refine (foldM_derived (gradient_step w) _ _ _ _ Hb Hf).
    intros b0 a b1 Hb0 Hs.
    exact (proj1 (gradient_step_derived _ _ _ _ Hb0 Hs)). }
  split.
  - refine (foldM_derived _ _ _ _ _ Hr H).
    intros b w b' Hb Hf. exact (Hinner w b b' Hb Hf).
  - intros w sc Hw Hsc.
    refine (foldM_creates _
              (fun w b' => forall sc, In sc signal_columns ->
                 float_column (snd sc ++ "_grad_" ++ str_of_nat w) b')
              _ _ _ _ _ _ Hr H w Hw sc Hsc).
    + intros b w0 b' Hb Hf. exact (Hinner w0 b b' Hb Hf).
    + intros b w0 b' Hb Hf sc0 Hsc0.
      refine (foldM_creates (gradient_step w0)
                (fun sc b' => float_column (snd sc ++ "_grad_" ++ str_of_nat w0) b')
                _ _ _ _ _ _ Hb Hf sc0 Hsc0).
      * intros b0 a b1 Hb0 Hs.
        exact (proj1 (gradient_step_derived _ _ _ _ Hb0 Hs)).
      * intros b0 a b1 Hb0 Hs.
        exact (proj2 (gradient_step_derived _ _ _ _ Hb0 Hs)).
      * intros a b0 b1 Hd H1. eapply derived_float_column; eassumption.
    + intros w0 b b' Hd Hq sc0 Hsc0.
      eapply derived_float_column; [exact Hd|exact (Hq sc0 Hsc0)].
Qed.

Lemma statistical_step_derived (df : DataFrame) (w : nat) (df' : DataFrame) :
  rectangular df -> statistical_step L fe df w = Ok df' ->
  derived df df'
  /\ float_column ("proton_flux_std_" ++ str_of_nat w) df'
  /\ float_column ("velocity_std_" ++ str_of_nat w) df'
  /\ float_column ("proton_electron_ratio_" ++ str_of_nat w) df'.
Proof.
  intros Hr. unfold statistical_step.
  destruct (rolling_to "proton_flux" _ w (agg_std L) df) as [d1|] eqn:E1;
    [|discriminate]. cbn [bind].
  destruct (rolling_to_derived _ _ _ _ _ _ Hr E1) as (D1 & _ & F1).
  pose proof (proj1 (derived_rectangular _ _ D1 Hr)) as R1.
  destruct (rolling_to "velocity" _ w (agg_std L) d1) as [d2|] eqn:E2;
    [|discriminate]. cbn [bind].
  destruct (rolling_to_derived _ _ _ _ _ _ R1 E2) as (D2 & _ & F2).
  pose proof (proj1 (derived_rectangular _ _ D2 R1)) as R2.
  destruct (py_min_list (moving_avg_windows fe)) as [m|]; [|discriminate].
  cbn [bind].
  destruct (numeric ("proton_flux_ma_" ++ str_of_nat m) d2) as [p|] eqn:Ep;
    [|discriminate]. cbn [bind].
  destruct (numeric ("electron_flux_ma_" ++ str_of_nat m) d2) as [e|] eqn:Ee;
    [|discriminate]. cbn [bind].
  set (ratio := map _ (combine p e)).
  assert (D3 : derived d2 (set_floats ("proton_electron_ratio_" ++ str_of_nat w)
                                      ratio d2)).
  { apply derived_one. unfold ratio. rewrite length_map, length_combine.
    rewrite (numeric_length _ _ _ R2 Ep), (numeric_length _ _ _ R2 Ee).
    apply Nat.min_id. }
  pose proof (proj1 (derived_rectangular _ _ D3 R2)) as R3.
  destruct (rolling_to "proton_flux" _ w (agg_quantile (95 # 100)) _)
    as [d4|] eqn:E4; [|discriminate]. cbn [bind].
  destruct (rolling_to_derived _ _ _ _ _ _ R3 E4) as (D4 & _ & _).
  pose proof (proj1 (derived_rectangular _ _ D4 R3)) as R4.
  intros E5.
  destruct (rolling_to_derived _ _ _ _ _ _ R4 E5) as (D5 & _ & _).
  assert (D35 : derived (set_floats ("proton_electron_ratio_" ++ str_of_nat w)
                                    ratio d2) df')
    by (eapply derived_trans; eassumption).
  assert (D25 : derived d2 df') by (eapply derived_trans; eassumption).
  assert (D15 : derived d1 df') by (eapply derived_trans; eassumption).
  split; [eapply derived_trans; eassumption|].
  split; [exact (derived_float_column _ _ _ D15 F1)|].
  split; [exact (derived_float_column _ _ _ D25 F2)|].
  apply (derived_float_column _ _ _ D35). apply float_column_new.
Qed.

Lemma create_statistical_features_derived (df df' : DataFrame) :
  rectangular df -> create_statistical_features L fe df = Ok df' ->
  derived df df'
  /\ forall w,
       In w (statistical_windows fe) ->
       float_column ("proton_flux_std_" ++ str_of_nat w) df'
       /\ float_column ("velocity_std_" ++ str_of_nat w) df'
       /\ float_column ("proton_electron_ratio_" ++ str_of_nat w) df'.
Proof.
  intros Hr H. unfold create_statistical_features in H. split.
  - refine (foldM_derived _ _ _ _ _ Hr H).
    intros b w b' Hb Hs. exact (proj1 (statistical_step_derived _ _ _ Hb Hs)).
  - intros w Hw.
    refine (foldM_creates _
              (fun w b' =>
                 float_column ("proton_flux_std_" ++ str_of_nat w) b'
                 /\ float_column ("velocity_std_" ++ str_of_nat w) b'
                 /\ float_column ("proton_electron_ratio_" ++ str_of_nat w) b')
              _ _ _ _ _ _ Hr H w Hw).
    + intros b w0 b' Hb Hs. exact (proj1 (statistical_step_derived _ _ _ Hb Hs)).
    + intros b w0 b' Hb Hs. exact (proj2 (statistical_step_derived _ _ _ Hb Hs)).
    + intros w0 b b' Hd (H1 & H2 & H3).
      repeat split; eapply derived_float_column; eassumption.
Qed.

Lemma spectral_step_derived (df : DataFrame) (column : string) (df' : DataFrame) :
  spectral_step L df column = Ok df' -> derived df df'.
Proof.
  unfold spectral_step. destruct (64 <=? nrows df).
  - destruct (numeric column df) as [xs|]; [|discriminate]. cbn [bind].
    destruct (welch L _ _) as [freqs psd].
    destruct (argmax (tl psd)) as [k|]; [|discriminate]. cbn [bind].
    destruct (nth_error freqs (k + 1)) as [f|]; [|discriminate]. cbn [bind].
    destruct (nth_error psd (k + 1)) as [pw|]; [|discriminate]. cbn [bind].
    intros H. injection H as <-.
    eapply derived_trans; [|apply derived_scalar].
    eapply derived_trans; [|apply derived_scalar].
    apply derived_scalar.
  - intros H. injection H as <-.
    eapply derived_trans; [|apply derived_scalar].
    eapply derived_trans; [|apply derived_scalar].
    apply derived_scalar.
Qed.

Lemma create_spectral_features_derived (df df' : DataFrame) :
  rectangular df -> create_spectral_features L df = Ok df' -> derived df df'.
Proof.
  intros Hr H. unfold create_spectral_features in H.
  refine (foldM_derived _ _ _ _ _ Hr H).
  intros b c b' _ Hs. exact (spectral_step_derived _ _ _ Hs).
Qed.

Lemma zscore_step_derived (df : DataFrame) (column : string) (df' : DataFrame) :
  rectangular df -> zscore_step L df column = Ok df' ->
  derived df df'
  /\ float_column column df
  /\ float_column (column ++ "_zscore") df'.
Proof.
  intros Hr. unfold zscore_step.
  destruct (numeric column df) as [xs|] eqn:Hxs; [|discriminate]. cbn [bind].
  destruct (rolling 60 agg_mean xs) as [rm|] eqn:Hrm; [|discriminate]. cbn [bind].
  destruct (rolling 60 (agg_std L) xs) as [rs|] eqn:Hrs; [|discriminate].
  cbn [bind].
  intros H. injection H as <-.
  split; [|split].
  - apply derived_one. rewrite length_map, !length_combine.
    rewrite (rolling_length _ _ _ _ Hrm), (rolling_length _ _ _ _ Hrs).
    rewrite !Nat.min_id. exact (numeric_length _ _ _ Hr Hxs).
  - exact (numeric_float_column _ _ _ Hxs).
  - apply float_column_new.
Qed.

Lemma mahal_distances_length (df : DataFrame) (d : list float) :
  mahal_distances L df = Some d -> length d = nrows df.
Proof.
  unfold mahal_distances. destruct (flux_data df); [|discriminate].
  destruct (pinv L _); [|discriminate].
  intros H. injection H as <-. rewrite length_map, length_seq. reflexivity.
Qed.

Lemma mahalanobis_feature_derived (df : DataFrame) :
  derived df (mahalanobis_feature L df)
  /\ float_column "flux_mahalanobis_distance" (mahalanobis_feature L df).
Proof.
  unfold mahalanobis_feature.
  destruct (length flux_columns <? nrows df).
  - destruct (mahal_distances L df) as [d|] eqn:Hd.
    + split; [|apply float_column_new].
      apply derived_one. exact (mahal_distances_length _ _ Hd).
    + split; [apply derived_scalar|].
      rewrite set_scalar_floats. apply float_column_new.
  - split; [apply derived_scalar|].
    rewrite set_scalar_floats. apply float_column_new.
Qed.

Lemma create_anomaly_features_derived (df df' : DataFrame) :
  rectangular df -> create_anomaly_features L df = Ok df' ->
  derived df df'
  /\ float_column "flux_mahalanobis_distance" df'
  /\ forall c, In c zscore_columns ->
               float_column c df' /\ float_column (c ++ "_zscore") df'.
Proof.
  intros Hr. unfold create_anomaly_features.
  change ["proton_flux"; "electron_flux"; "alpha_flux"; "velocity"; "temperature"]
    with zscore_columns.
  destruct (foldM (zscore_step L) zscore_columns df) as [d1|] eqn:Hz;
    [|discriminate]. cbn [bind].
  intros H. injection H as <-.
  assert (D1 : derived df d1).
  { refine (foldM_derived _ _ _ _ _ Hr Hz).
    intros b c b' Hb Hs. exact (proj1 (zscore_step_derived _ _ _ Hb Hs)). }
  destruct (mahalanobis_feature_derived d1) as [D2 F2].
  split; [eapply derived_trans; eassumption|]. split; [exact F2|].
  intros c Hc.
  assert (Hq : float_column c d1 /\ float_column (c ++ "_zscore") d1).
  { refine (foldM_creates _
              (fun c b' => float_column c b' /\ float_column (c ++ "_zscore") b')
              _ _ _ _ _ _ Hr Hz c Hc).
    - intros b c0 b' Hb Hs. exact (proj1 (zscore_step_derived _ _ _ Hb Hs)).
    - intros b c0 b' Hb Hs.
      destruct (zscore_step_derived _ _ _ Hb Hs) as (Hd & Hsrc & Hdst).
      split; [exact (derived_float_column _ _ _ Hd Hsrc)|exact Hdst].
    - intros c0 b b' Hd [H1 H2].
      split; eapply derived_float_column; eassumption. }
  destruct Hq as [H1 H2].
  split; eapply derived_float_column; eassumption.
Qed.

End FeatureFacts.

(** *** The final fill and the sort *)

Lemma bfill_length (l : column) : length (bfill l) = length l.
Proof. induction l as [|c l IH]; simpl; auto. Qed.

Lemma ffill_length (l : column) : length (ffill l) = length l.
Proof. unfold ffill. rewrite length_rev, bfill_length, length_rev. reflexivity. Qed.

Lemma fill_column_length (l : column) : length (fill_column l) = length l.
Proof.
  unfold fill_column, fillna0. rewrite length_map, ffill_length, bfill_length.
  reflexivity.
Qed.

Lemma bfill_Forall (P : cell -> Prop) (l : column) :
  Forall P l -> Forall P (bfill l).
Proof.
  induction 1 as [|c l Hc Hl IH]; simpl; constructor; [|exact IH].
  destruct (is_na c); [|exact Hc].
  destruct (bfill l) as [|x r]; [exact Hc|].
  inversion IH; assumption.
Qed.

Lemma ffill_Forall (P : cell -> Prop) (l : column) :
  Forall P l -> Forall P (ffill l).
Proof.
  intros H. unfold ffill. apply Forall_rev. apply bfill_Forall.
  apply Forall_rev. exact H.
Qed.

Lemma fillna0_no_missing (l : column) :
  Forall (fun c => is_na c = false) (fillna0 l).
Proof.
  unfold fillna0. induction l as [|c l IH]; simpl; constructor; [|exact IH].
  destruct c; reflexivity.
Qed.

Lemma get_col_map (f : column -> column) (name : string) (df : DataFrame) :
  get_col name (map (fun nc => (fst nc, f (snd nc))) df)
  = option_map f (get_col name df).
Proof.
  induction df as [|[n c] df IH]; simpl; [reflexivity|].
  destruct (String.eqb n name); [reflexivity|exact IH].
Qed.

Lemma columns_map (f : column -> column) (df : DataFrame) :
  columns (map (fun nc => (fst nc, f (snd nc))) df) = columns df.
Proof.
  unfold columns. rewrite map_map. reflexivity.
Qed.

Lemma rectangular_map (f : column -> column) (n : nat) (df : DataFrame) :
  df <> [] ->
  (forall c, length (f c) = n) ->
  rectangular (map (fun nc => (fst nc, f (snd nc))) df)
  /\ nrows (map (fun nc => (fst nc, f (snd nc))) df) = n.
Proof.
  intros Hne Hf.
  assert (Hn : nrows (map (fun nc => (fst nc, f (snd nc))) df) = n).
  { destruct df as [|[n0 c0] df]; [congruence|]. simpl. apply Hf. }
  split; [|exact Hn].
  unfold rectangular. rewrite Hn. apply Forall_forall.
  intros [n1 c1] Hin. apply in_map_iff in Hin.
  destruct Hin as ([n2 c2] & Heq & _). injection Heq as <- <-. simpl. apply Hf.
Qed.

Lemma fill_missing_get_col (name : string) (df : DataFrame) :
  get_col name (fill_missing df) = option_map fill_column (get_col name df).
Proof. exact (get_col_map fill_column name df). Qed.

Lemma fill_missing_columns (df : DataFrame) :
  columns (fill_missing df) = columns df.
Proof. exact (columns_map fill_column df). Qed.

Lemma fill_missing_nrows (df : DataFrame) : nrows (fill_missing df) = nrows df.
Proof.
  destruct df as [|[n c] df]; [reflexivity|]. simpl.
  exact (fill_column_length c).
Qed.

Lemma fill_missing_rectangular (df : DataFrame) :
  rectangular df -> rectangular (fill_missing df).
Proof.
  intros Hr. unfold rectangular. rewrite fill_missing_nrows.
  unfold fill_missing. apply Forall_forall. intros [n c] Hin.
  apply in_map_iff in Hin. destruct Hin as ([n' c'] & Heq & Hin').
  injection Heq as <- <-. simpl.
  change (length (fill_column c') = nrows df). rewrite fill_column_length.
  unfold rectangular in Hr. rewrite Forall_forall in Hr. exact (Hr _ Hin').
Qed.

Lemma fill_missing_no_missing (df : DataFrame) : no_missing (fill_missing df).
Proof.
  unfold no_missing, fill_missing. apply Forall_forall. intros [n c] Hin.
  apply in_map_iff in Hin. destruct Hin as ([n' c'] & Heq & _).
  injection Heq as <- <-. simpl. apply fillna0_no_missing.
Qed.

Lemma take_rows_shape (perm : list nat) (df : DataFrame) :
  df <> [] ->
  rectangular (take_rows perm df)
  /\ nrows (take_rows perm df) = length perm
  /\ columns (take_rows perm df) = columns df.
Proof.
  intros Hne. unfold take_rows.
  destruct (rectangular_map (fun c => map (fun i => nth i c CNaN) perm)
                            (length perm) df Hne) as [Hr Hn].
  { intros c. apply length_map. }
  split; [exact Hr|]. split; [exact Hn|].
  exact (columns_map (fun c => map (fun i => nth i c CNaN) perm) df).
Qed.

Lemma has_col_nonempty (name : string) (df : DataFrame) :
  has_col name df = true -> df <> [].
Proof. intros H ->. discriminate. Qed.

Section EngineeringFacts.

Variable L : NumLib.
Variable fe : FeatureEngineer.

(** What the six derivation steps and the fill make of a table. *)
Lemma derive_features_inv (df out : DataFrame) :
  rectangular df ->
  derive_features L fe df = Ok out ->
  exists pre,
    out = fill_missing pre
    /\ derived df pre
    /\ (forall w sc,
           In w (moving_avg_windows fe) -> In sc signal_columns ->
           float_column (fst sc) pre
           /\ float_column (snd sc ++ "_ma_" ++ str_of_nat w) pre)
    /\ (forall w sc,
           In w (gradient_windows fe) -> In sc signal_columns ->
           float_column (snd sc ++ "_grad_" ++ str_of_nat w) pre)
    /\ (forall w,
           In w (statistical_windows fe) ->
           float_column ("proton_flux_std_" ++ str_of_nat w) pre
           /\ float_column ("velocity_std_" ++ str_of_nat w) pre
           /\ float_column ("proton_electron_ratio_" ++ str_of_nat w) pre)
    /\ float_column "flux_mahalanobis_distance" pre
    /\ (forall c, In c zscore_columns ->
                  float_column c pre /\ float_column (c ++ "_zscore") pre).
Proof.
  intros R0. unfold derive_features.
  destruct (create_time_features L df) as [d1|] eqn:E1; [|discriminate].
  cbn [bind].
  pose proof (create_time_features_derived L _ _ R0 E1) as D1.
  pose proof (proj1 (derived_rectangular _ _ D1 R0)) as R1.
  destruct (create_moving_averages fe d1) as [d2|] eqn:E2; [|discriminate].
  cbn [bind].
  destruct (create_moving_averages_derived fe _ _ R1 E2) as [D2 F2].
  pose proof (proj1 (derived_rectangular _ _ D2 R1)) as R2.
  destruct (create_gradients fe d2) as [d3|] eqn:E3; [|discriminate].
  cbn [bind].
  destruct (create_gradients_derived fe _ _ R2 E3) as [D3 F3].
  pose proof (proj1 (derived_rectangular _ _ D3 R2)) as R3.
  destruct (create_statistical_features L fe d3) as [d4|] eqn:E4; [|discriminate].
  cbn [bind].
  destruct (create_statistical_features_derived L fe _ _ R3 E4) as [D4 F4].
  pose proof (proj1 (derived_rectangular _ _ D4 R3)) as R4.
  destruct (create_spectral_features L d4) as [d5|] eqn:E5; [|discriminate].
  cbn [bind].
  pose proof (create_spectral_features_derived L _ _ R4 E5) as D5.
  pose proof (proj1 (derived_rectangular _ _ D5 R4)) as R5.
  destruct (create_anomaly_features L d5) as [d6|] eqn:E6; [|discriminate].
  cbn [bind].
  destruct (create_anomaly_features_derived L _ _ R5 E6) as (D6 & F6 & Z6).
  intros H. injection H as <-.
  assert (D56 : derived d5 d6) by exact D6.
  assert (D46 : derived d4 d6) by (eapply derived_trans; eassumption).
  assert (D36 : derived d3 d6) by (eapply derived_trans; eassumption).
  assert (D26 : derived d2 d6) by (eapply derived_trans; eassumption).
  assert (D16 : derived d1 d6) by (eapply derived_trans; eassumption).
  exists d6. split; [reflexivity|].
  split; [eapply derived_trans; eassumption|].
  split.
  { intros w sc Hw Hsc. destruct (F2 w sc Hw Hsc) as [H1 H2].
    split; [exact (derived_float_column _ _ _ D26 H1)
           |exact (derived_float_column _ _ _ D26 H2)]. }
  split.
  { intros w sc Hw Hsc. eapply derived_float_column; [exact D36|].
    exact (F3 w sc Hw Hsc). }
  split.
  { intros w Hw. destruct (F4 w Hw) as (H1 & H2 & H3).
    split; [exact (derived_float_column _ _ _ D46 H1)|].
    split; [exact (derived_float_column _ _ _ D46 H2)
           |exact (derived_float_column _ _ _ D46 H3)]. }
  split; [exact F6|exact Z6].
Qed.

Lemma engineer_features_inv (df caller out : DataFrame) :
  engineer_features L fe df = (caller, Ok out) ->
  exists c ts,
    get_col "timestamp" df = Some c
    /\ mapM (to_datetime_cell L) c = Ok ts
    /\ caller = set_col "timestamp" ts df
    /\ derive_features L fe
         (take_rows (argsort L (map time_key ts)) caller) = Ok out.
Proof.
  unfold engineer_features, has_col, getitem.
  destruct (get_col "timestamp" df) as [c|] eqn:Hc.
  - cbn [bind].
    destruct (mapM (to_datetime_cell L) c) as [ts|] eqn:Hts.
    + intros H. injection H as <- H. exists c, ts. auto.
    + discriminate.
  - intros H. injection H as _ H. exfalso.
    unfold derive_features, create_time_features, getitem in H.
    rewrite Hc in H. discriminate.
Qed.

Lemma engineer_features_pre (df caller out : DataFrame) :
  rectangular df ->
  (forall keys, length (argsort L keys) = length keys) ->
  engineer_features L fe df = (caller, Ok out) ->
  exists ts sorted pre,
    caller = set_col "timestamp" ts df
    /\ has_col "timestamp" df = true
    /\ length ts = nrows df
    /\ sorted = take_rows (argsort L (map time_key ts)) caller
    /\ rectangular sorted /\ nrows sorted = nrows df
    /\ columns sorted = columns df
    /\ derive_features L fe sorted = Ok out
    /\ derived sorted pre
    /\ out = fill_missing pre.
Proof.
  intros Hr Hsort H.
  destruct (engineer_features_inv _ _ _ H) as (c & ts & Hc & Hts & Hcaller & Hd).
  assert (Hhas : has_col "timestamp" df = true)
    by (unfold has_col; rewrite Hc; reflexivity).
  assert (Hlen : length ts = nrows df).
  { rewrite (mapM_length _ _ _ Hts). exact (rectangular_get_col _ _ _ Hr Hc). }
  assert (Hne : caller <> []).
  { apply (has_col_nonempty "timestamp"). unfold has_col.
    rewrite Hcaller, get_col_set_col. reflexivity. }
  destruct (take_rows_shape (argsort L (map time_key ts)) caller Hne)
    as (Rs & Ns & Cs).
  rewrite Hsort, length_map, Hlen in Ns.
  assert (Cc : columns caller = columns df).
  { rewrite Hcaller, columns_set_col, Hhas. reflexivity. }
  destruct (derive_features_inv _ _ Rs Hd) as (pre & Hout & Dpre & _).
  exists ts, (take_rows (argsort L (map time_key ts)) caller), pre.
  repeat (split; [first [assumption|reflexivity|congruence]|]).
  exact Hout.
Qed.

(** Feature engineering keeps the shape of a table: as long as sorting
    returns a position per row, a call that returns gives a rectangular
    table with the rows of its input; the input's columns come first, in
    their order, and columns are only ever added.  The caller's table
    keeps its columns and rows. *)
Theorem engineer_features_shape (df caller out : DataFrame) :
  rectangular df ->
  (forall keys, length (argsort L keys) = length keys) ->
  engineer_features L fe df = (caller, Ok out) ->
  rectangular out
  /\ nrows out = nrows df
  /\ (exists extra, columns out = columns df ++ extra)
  /\ rectangular caller
  /\ nrows caller = nrows df
  /\ columns caller = columns df.
Proof.
  intros Hr Hsort H.
  destruct (engineer_features_pre _ _ _ Hr Hsort H)
    as (ts & sorted & pre & Hcaller & Hhas & Hlen & _ & Rs & Ns & Cs & _ & Dpre
        & Hout).
  destruct (derived_rectangular _ _ Dpre Rs) as [Rp Np].
  destruct (derived_columns _ _ Dpre) as (extra & Cp).
  subst out.
  split; [exact (fill_missing_rectangular _ Rp)|].
  split; [rewrite fill_missing_nrows; congruence|].
  split; [exists extra; rewrite fill_missing_columns, Cp, Cs; reflexivity|].
  subst caller.
  split; [apply rectangular_set_col; assumption|].
  split; [apply nrows_set_col; exact Hlen|].
  rewrite columns_set_col, Hhas. reflexivity.
Qed.

(** The table [engineer_features] returns has no missing value. *)
Theorem engineer_features_no_missing (df caller out : DataFrame) :
  engineer_features L fe df = (caller, Ok out) -> no_missing out.
Proof.
  intros H.
  destruct (engineer_features_inv _ _ _ H) as (c & ts & _ & _ & _ & Hd).
  unfold derive_features in Hd.
  destruct (create_time_features L _) as [d1|]; [|discriminate]. cbn [bind] in Hd.
  destruct (create_moving_averages fe d1) as [d2|]; [|discriminate].
  cbn [bind] in Hd.
  destruct (create_gradients fe d2) as [d3|]; [|discriminate]. cbn [bind] in Hd.
  destruct (create_statistical_features L fe d3) as [d4|]; [|discriminate].
  cbn [bind] in Hd.
  destruct (create_spectral_features L d4) as [d5|]; [|discriminate].
  cbn [bind] in Hd.
  destruct (create_anomaly_features L d5) as [d6|]; [|discriminate].
  cbn [bind] in Hd.
  injection Hd as <-. apply fill_missing_no_missing.
Qed.

Lemma filter_all {A : Type} (f : A -> bool) (l : list A) :
  Forall (fun x => f x = true) l -> filter f l = l.
Proof.
  induction 1 as [|x l Hx _ IH]; simpl; [reflexivity|].
  rewrite Hx, IH. reflexivity.
Qed.

Lemma fill_missing_has_col (name : string) (df : DataFrame) :
  float_column name df -> has_col name (fill_missing df) = true.
Proof.
  intros (c & Hc & _). unfold has_col.
  rewrite fill_missing_get_col, Hc. reflexivity.
Qed.

Lemma importance_columns_offered (sorted pre : DataFrame) :
  rectangular sorted ->
  derive_features L fe sorted = Ok (fill_missing pre) ->
  In 5 (moving_avg_windows fe) -> In 10 (moving_avg_windows fe) ->
  In 30 (moving_avg_windows fe) ->
  In 1 (gradient_windows fe) -> In 5 (gradient_windows fe) ->
  In 60 (statistical_windows fe) ->
  Forall (fun c => has_col c (fill_missing pre) = true)
         get_feature_importance_columns.
Proof.
  intros Rs Hd M5 M10 M30 G1 G5 S60.
  destruct (derive_features_inv _ _ Rs Hd)
    as (pre' & Hout & _ & F2 & F3 & F4 & F6 & Z6).
  rewrite Hout. clear Hout Hd pre.
  assert (Hp : In ("proton_flux", "proton_flux") signal_columns)
    by (simpl; tauto).
  assert (Hv : In ("velocity", "velocity") signal_columns) by (simpl; tauto).
  assert (Hm : In ("magnetic_field_magnitude", "magnetic_field") signal_columns)
    by (simpl; tauto).
  assert (Zp : In "proton_flux" zscore_columns) by (simpl; tauto).
  assert (Ze : In "electron_flux" zscore_columns) by (simpl; tauto).
  assert (Za : In "alpha_flux" zscore_columns) by (simpl; tauto).
  assert (Zv : In "velocity" zscore_columns) by (simpl; tauto).
  assert (Zt : In "temperature" zscore_columns) by (simpl; tauto).
  unfold get_feature_importance_columns.
  repeat (apply Forall_cons; [apply fill_missing_has_col|]);
    [| | | | | | | | | | | | | | | | | | | | |apply Forall_nil].
  - exact (proj1 (Z6 _ Zp)).
  - exact (proj1 (Z6 _ Ze)).
  - exact (proj1 (Z6 _ Za)).
  - exact (proj1 (Z6 _ Zv)).
  - exact (proj1 (Z6 _ Zt)).
  - exact (proj1 (F2 5 _ M5 Hm)).
  - exact (proj2 (F2 5 _ M5 Hp)).
  - exact (proj2 (F2 10 _ M10 Hp)).
  - exact (proj2 (F2 30 _ M30 Hp)).
  - exact (proj2 (F2 5 _ M5 Hv)).
  - exact (proj2 (F2 10 _ M10 Hv)).
  - exact (proj2 (F2 30 _ M30 Hv)).
  - exact (F3 1 _ G1 Hp).
  - exact (F3 5 _ G5 Hp).
  - exact (F3 1 _ G1 Hv).
  - exact (proj1 (F4 60 S60)).
  - exact (proj1 (proj2 (F4 60 S60))).
  - exact (proj2 (Z6 _ Zp)).
  - exact (proj2 (Z6 _ Zv)).
  - exact F6.
  - exact (proj2 (proj2 (F4 60 S60))).
Qed.

(** With the windows the importance list names (5, 10 and 30 for the
    moving averages, 1 and 5 for the gradients, 60 for the statistics;
    the defaults have them), the table [engineer_features] returns
    offers every feature-importance column: a detector trained on it
    uses all 21 columns. *)
Theorem engineer_features_offers_importance_columns
        (df caller out : DataFrame) :
  rectangular df ->
  (forall keys, length (argsort L keys) = length keys) ->
  In 5 (moving_avg_windows fe) -> In 10 (moving_avg_windows fe) ->
  In 30 (moving_avg_windows fe) ->
  In 1 (gradient_windows fe) -> In 5 (gradient_windows fe) ->
  In 60 (statistical_windows fe) ->
  engineer_features L fe df = (caller, Ok out) ->
  columns_present get_feature_importance_columns out
  = get_feature_importance_columns.
Proof.
  intros Hr Hsort M5 M10 M30 G1 G5 S60 H.
  destruct (engineer_features_pre _ _ _ Hr Hsort H)
    as (ts & sorted & pre & _ & _ & _ & _ & Rs & Ns & _ & Hd & Dpre & Hout).
  subst out.
  unfold columns_present. apply filter_all.
  exact (importance_columns_offered _ _ Rs Hd M5 M10 M30 G1 G5 S60).
Qed.

End EngineeringFacts.

Lemma insert_key_length (i : nat) (k : option Z) (l : list (nat * option Z)) :
  length (Sample.insert_key i k l) = S (length l).
Proof.
  induction l as [|[j kj] l IH]; simpl; [reflexivity|].
  destruct (match k with
            | Some a => match kj with Some b => (a <? b)%Z | None => true end
            | None => false
            end); simpl; [reflexivity|].
  rewrite IH. reflexivity.
Qed.

Lemma sample_argsort_length (keys : list (option Z)) :
  length (argsort Sample.lib keys) = length keys.
Proof.
  simpl. unfold Sample.argsort_stable. rewrite length_map.
  assert (H : forall l : list (nat * option Z),
             length (fold_right (fun ik acc =>
                                   Sample.insert_key (fst ik) (snd ik) acc) [] l)
             = length l).
  { induction l as [|a l IH]; simpl; [reflexivity|].
    rewrite insert_key_length, IH. reflexivity. }
  rewrite H, length_combine, length_seq. apply Nat.min_id.
Qed.

Lemma sample_telemetry_rectangular : rectangular Sample.telemetry.
Proof. repeat constructor. Qed.

Lemma engineer_features_shape_witness :
  rectangular Cases.engineered
  /\ nrows Cases.engineered = nrows Sample.telemetry
  /\ (exists extra, columns Cases.engineered = columns Sample.telemetry ++ extra)
  /\ rectangular (fst (engineer_features Sample.lib default_engineer
                                         Sample.telemetry))
  /\ nrows (fst (engineer_features Sample.lib default_engineer Sample.telemetry))
     = nrows Sample.telemetry
  /\ columns (fst (engineer_features Sample.lib default_engineer Sample.telemetry))
     = columns Sample.telemetry.
Proof.
  apply (engineer_features_shape Sample.lib default_engineer Sample.telemetry).
  - exact sample_telemetry_rectangular.
  - exact sample_argsort_length.
  - vm_compute. reflexivity.
Defined.

Lemma engineer_features_no_missing_witness : no_missing Cases.engineered.
Proof.
  apply (engineer_features_no_missing Sample.lib default_engineer Sample.telemetry
           (fst (engineer_features Sample.lib default_engineer Sample.telemetry))).
  vm_compute. reflexivity.
Defined.

Lemma engineer_features_offers_importance_columns_witness :
  columns_present get_feature_importance_columns Cases.engineered
  = get_feature_importance_columns.
Proof.
  apply (engineer_features_offers_importance_columns Sample.lib default_engineer
           Sample.telemetry
           (fst (engineer_features Sample.lib default_engineer Sample.telemetry))).
  - exact sample_telemetry_rectangular.
  - exact sample_argsort_length.
  - simpl. tauto.
  - simpl. tauto.
  - simpl. tauto.
  - simpl. tauto.
  - simpl. tauto.
  - simpl. tauto.
  - vm_compute. reflexivity.
Defined.

(** ** The fill chain [bfill], [ffill], [fillna(0)] *)

Lemma bfill_skipn (l : column) :
  forall i, skipn i (bfill l) = bfill (skipn i l).
Proof.
  induction l as [|c l IH]; intros [|i]; simpl; try reflexivity.
  apply IH.
Qed.

Lemma find_valid_none_last (l : column) (d : cell) :
  find valid l = None -> is_na d = true -> is_na (last l d) = true.
Proof.
  induction l as [|c l IH]; intros Hf Hd; simpl in *; [exact Hd|].
  destruct (valid c) eqn:Hc; [discriminate|].
  destruct l as [|c' l'].
  - unfold valid in Hc. destruct (is_na c); [reflexivity|discriminate].
  - apply IH; assumption.
Qed.

(** The head of a back-filled list: its first valid cell, a missing
    cell when there is none. *)
Lemma bfill_hd (c : cell) (l : column) :
  exists y r,
    bfill (c :: l) = y :: r
    /\ match find valid (c :: l) with
       | Some x => y = x
       | None => is_na y = true
       end.
Proof.
  revert c. induction l as [|d l IH]; intros c.
  - simpl. unfold valid. destruct (is_na c) eqn:Hc; simpl;
      eexists _, _; (split; [reflexivity|]); [exact Hc|reflexivity].
  - destruct (IH d) as (y & r & Hb & Hy).
    change (bfill (c :: d :: l))
      with ((if is_na c then match bfill (d :: l) with x :: _ => x | [] => c end
             else c) :: bfill (d :: l)).
    rewrite Hb.
    change (find valid (c :: d :: l))
      with (if valid c then Some c else find valid (d :: l)).
    unfold valid at 1. destruct (is_na c) eqn:Hc; simpl negb; cbv iota.
    + exists y, (y :: r). split; [reflexivity|exact Hy].
    + exists c, (y :: r). split; reflexivity.
Qed.

Lemma nth_error_hd_skipn {A : Type} (l : list A) (i : nat) :
  nth_error l i = hd_error (skipn i l).
Proof.
  revert l. induction i as [|i IH]; intros [|a l]; simpl; try reflexivity.
  apply IH.
Qed.

Lemma skipn_nth_error_cons {A : Type} (l : list A) (i : nat) (c : A) :
  nth_error l i = Some c -> exists t, skipn i l = c :: t.
Proof.
  revert l. induction i as [|i IH]; intros [|a l] H; simpl in *; try discriminate.
  - injection H as <-. exists l. reflexivity.
  - apply IH. exact H.
Qed.

Lemma bfill_nth (l : column) (i : nat) (c : cell) :
  nth_error l i = Some c ->
  exists y,
    nth_error (bfill l) i = Some y
    /\ match find valid (skipn i l) with
       | Some x => y = x
       | None => is_na y = true
       end.
Proof.
  intros H. destruct (skipn_nth_error_cons _ _ _ H) as (t & Ht).
  rewrite nth_error_hd_skipn, bfill_skipn, Ht.
  destruct (bfill_hd c t) as (y & r & Hb & Hy).
  exists y. rewrite Hb. split; [reflexivity|exact Hy].
Qed.

Lemma firstn_S_nth_error {A : Type} (l : list A) (i : nat) (c : A) :
  nth_error l i = Some c -> firstn (S i) l = firstn i l ++ [c].
Proof.
  revert l. induction i as [|i IH]; intros [|a l] H; simpl in *; try discriminate.
  - injection H as <-. reflexivity.
  - f_equal. apply IH. exact H.
Qed.

Lemma ffill_nth (l : column) (i : nat) (c : cell) :
  nth_error l i = Some c ->
  exists y,
    nth_error (ffill l) i = Some y
    /\ match find valid (List.rev (firstn (S i) l)) with
       | Some x => y = x
       | None => is_na y = true
       end.
Proof.
  intros H.
  assert (Hi : i < length l) by (apply nth_error_Some; rewrite H; discriminate).
  unfold ffill. rewrite nth_error_rev, bfill_length, length_rev.
  replace (i <? length l) with true by (symmetry; apply Nat.ltb_lt; exact Hi).
  assert (Hr : nth_error (List.rev l) (length l - S i) = Some c).
  { rewrite nth_error_rev.
    replace (length l - S i <? length l) with true
      by (symmetry; apply Nat.ltb_lt; lia).
    replace (length l - S (length l - S i)) with i by lia. exact H. }
  destruct (bfill_nth _ _ _ Hr) as (y & Hy & Hm).
  exists y. split; [exact Hy|].
  rewrite skipn_rev in Hm.
  replace (length l - (length l - S i)) with (S i) in Hm by lia.
  exact Hm.
Qed.

Lemma find_valid_app_none (a b : column) :
  find valid a = None -> find valid b = None -> find valid (a ++ b) = None.
Proof.
  induction a as [|c a IH]; simpl; [auto|].
  destruct (valid c); [discriminate|]. exact IH.
Qed.

(** Before a stretch without valid cells, back-filling does not change
    which valid cell comes last. *)
Lemma bfill_last_valid (p : column) :
  forall s,
    find valid s = None ->
    find valid (List.rev (firstn (length p) (bfill (p ++ s))))
    = find valid (List.rev p).
Proof.
  induction p as [|d p IH] using rev_ind; intros s Hs; [reflexivity|].
  rewrite <- app_assoc. change ([d] ++ s) with (d :: s).
  rewrite length_app. simpl length. rewrite Nat.add_1_r.
  assert (Hd : nth_error (p ++ d :: s) (length p) = Some d).
  { rewrite nth_error_app2 by lia. rewrite Nat.sub_diag. reflexivity. }
  destruct (bfill_nth _ _ _ Hd) as (y & Hy & Hm).
  rewrite (firstn_S_nth_error _ _ _ Hy).
  rewrite !rev_app_distr. simpl.
  assert (Hsk : skipn (length p) (p ++ d :: s) = d :: s).
  { rewrite skipn_app, Nat.sub_diag, skipn_all. reflexivity. }
  rewrite Hsk in Hm. simpl in Hm.
  destruct (valid d) eqn:Vd.
  - subst y. rewrite Vd. reflexivity.
  - rewrite Hs in Hm.
    assert (Vy : valid y = false) by (unfold valid; rewrite Hm; reflexivity).
    rewrite Vy. apply IH. simpl. rewrite Vd. exact Hs.
Qed.

Lemma find_valid_is_na (l : column) (x : cell) :
  find valid l = Some x -> is_na x = false.
Proof.
  intros H. apply find_some in H. destruct H as [_ H].
  unfold valid in H. destruct (is_na x); [discriminate|reflexivity].
Qed.

(** Each cell after the fill chain: a valid cell is unchanged; a gap
    takes the next valid value of its column, the last valid value when
    none follows, and 0 when the column has no valid value at all. *)
Theorem fill_column_spec (col : column) (i : nat) :
  i < length col ->
  nth_error (fill_column col) i = Some (filled_value col i).
Proof.
  intros Hi.
  destruct (nth_error col i) as [c|] eqn:Hc;
    [|apply nth_error_None in Hc; lia].
  destruct (bfill_nth _ _ _ Hc) as (b & Hb & Hbm).
  destruct (ffill_nth _ _ _ Hb) as (f & Hf & Hfm).
  unfold fill_column, fillna0. rewrite nth_error_map, Hf. simpl. f_equal.
  rewrite (firstn_S_nth_error _ _ _ Hb), rev_app_distr in Hfm. simpl in Hfm.
  unfold filled_value.
  destruct (find valid (skipn i col)) as [x|] eqn:Hx.
  - subst b. pose proof (find_valid_is_na _ _ Hx) as Vx.
    unfold valid at 1 in Hfm. rewrite Vx in Hfm. simpl in Hfm. subst f.
    rewrite Vx. reflexivity.
  - unfold valid at 1 in Hfm. rewrite Hbm in Hfm. simpl in Hfm.
    assert (Hsplit : col = firstn i col ++ skipn i col)
      by (symmetry; apply firstn_skipn).
    assert (Hlen : length (firstn i col) = i) by (apply firstn_length_le; lia).
    pose proof (bfill_last_valid (firstn i col) (skipn i col) Hx) as Hl.
    rewrite <- Hsplit, Hlen in Hl. rewrite Hl in Hfm.
    destruct (find valid (List.rev (firstn i col))) as [y|] eqn:Hy.
    + subst f. rewrite (find_valid_is_na _ _ Hy). reflexivity.
    + rewrite Hfm. reflexivity.
Qed.

Lemma fill_column_spec_witness :
  nth_error (fill_column [CNaN; CNum 3; CNaN; CNaN; CNum 5; CNaN]) 2
  = Some (filled_value [CNaN; CNum 3; CNaN; CNaN; CNum 5; CNaN] 2).
Proof.
  apply (fill_column_spec [CNaN; CNum 3; CNaN; CNaN; CNum 5; CNaN] 2).
  simpl. lia.
Defined.

(** ** Feature engineering on a table that lacks a column *)

Ltac other_name := let H := fresh in intro H; cbv in H; discriminate H.

Lemma nrows_set_scalar (name : string) (q : Q) (df : DataFrame) :
  nrows (set_scalar name q df) = nrows df.
Proof. unfold set_scalar. apply nrows_set_col. apply repeat_length. Qed.

Lemma get_col_set_floats_other (name name' : string) (l : list float)
      (df : DataFrame) :
  name <> name' -> get_col name (set_floats name' l df) = get_col name df.
Proof. intros H. unfold set_floats. apply get_col_set_col_other. exact H. Qed.

Lemma get_col_set_scalar_other (name name' : string) (q : Q) (df : DataFrame) :
  name <> name' -> get_col name (set_scalar name' q df) = get_col name df.
Proof. intros H. unfold set_scalar. apply get_col_set_col_other. exact H. Qed.

Lemma get_col_take_rows (name : string) (perm : list nat) (df : DataFrame) :
  get_col name (take_rows perm df)
  = option_map (fun c => map (fun i => nth i c CNaN) perm) (get_col name df).
Proof.
  exact (get_col_map (fun c => map (fun i => nth i c CNaN) perm) name df).
Qed.

Section MissingColumn.

Variable L : NumLib.
Variable fe : FeatureEngineer.

Lemma numeric_missing (name : string) (df : DataFrame) :
  get_col name df = None -> numeric name df = Raise (KeyError name).
Proof. intros H. unfold numeric, getitem. rewrite H. reflexivity. Qed.

Lemma moving_averages_missing (df : DataFrame) :
  get_col "proton_flux" df = None ->
  create_moving_averages fe df
  = match moving_avg_windows fe with
    | [] => Ok df
    | _ => Raise (KeyError "proton_flux")
    end.
Proof.
  intros H. unfold create_moving_averages.
  destruct (moving_avg_windows fe) as [|w ws]; [reflexivity|].
  cbn [foldM]. unfold signal_columns. cbn [foldM].
  unfold moving_average_step at 1. cbn [fst].
  rewrite (numeric_missing _ _ H). reflexivity.
Qed.

Lemma gradients_missing (df : DataFrame) :
  get_col "proton_flux" df = None ->
  create_gradients fe df
  = match gradient_windows fe with
    | [] => Ok df
    | _ => Raise (KeyError "proton_flux")
    end.
Proof.
  intros H. unfold create_gradients.
  destruct (gradient_windows fe) as [|w ws]; [reflexivity|].
  cbn [foldM]. unfold signal_columns. cbn [foldM].
  unfold gradient_step at 1. cbn [fst].
  rewrite (numeric_missing _ _ H). reflexivity.
Qed.

Lemma statistical_missing (df : DataFrame) :
  get_col "proton_flux" df = None ->
  create_statistical_features L fe df
  = match statistical_windows fe with
    | [] => Ok df
    | _ => Raise (KeyError "proton_flux")
    end.
Proof.
  intros H. unfold create_statistical_features.
  destruct (statistical_windows fe) as [|w ws]; [reflexivity|].
  cbn [foldM]. unfold statistical_step at 1. unfold rolling_to at 1.
  rewrite (numeric_missing _ _ H). reflexivity.
Qed.

Lemma spectral_step_short (df : DataFrame) (column : string) :
  (64 <=? nrows df) = false ->
  spectral_step L df column
  = Ok (set_scalar (column ++ "_total_power") 0
          (set_scalar (column ++ "_dominant_power") 0
             (set_scalar (column ++ "_dominant_freq") 0 df)))
  /\ (64 <=? nrows (set_scalar (column ++ "_total_power") 0
                      (set_scalar (column ++ "_dominant_power") 0
                         (set_scalar (column ++ "_dominant_freq") 0 df))))
     = false.
Proof.
  intros H. unfold spectral_step. rewrite H. split; [reflexivity|].
  rewrite !nrows_set_scalar. exact H.
Qed.

Lemma spectral_missing (df : DataFrame) :
  get_col "proton_flux" df = None ->
  create_spectral_features L df = Raise (KeyError "proton_flux")
  \/ exists df', create_spectral_features L df = Ok df'
                 /\ get_col "proton_flux" df' = None.
Proof.
  intros H. unfold create_spectral_features. cbn [foldM].
  destruct (64 <=? nrows df) eqn:Hn.
  - left. unfold spectral_step at 1. rewrite Hn.
    rewrite (numeric_missing _ _ H). reflexivity.
  - right.
    destruct (spectral_step_short df "proton_flux" Hn) as [-> Hn1]. cbn [bind].
    destruct (spectral_step_short _ "velocity" Hn1) as [-> Hn2]. cbn [bind].
    destruct (spectral_step_short _ "magnetic_field_magnitude" Hn2) as [-> _].
    cbn [bind].
    eexists. split; [reflexivity|].
    rewrite !get_col_set_scalar_other by other_name. exact H.
Qed.

Lemma anomaly_missing (df : DataFrame) :
  get_col "proton_flux" df = None ->
  create_anomaly_features L df = Raise (KeyError "proton_flux").
Proof.
  intros H. unfold create_anomaly_features. cbn [foldM].
  unfold zscore_step at 1. rewrite (numeric_missing _ _ H). reflexivity.
Qed.

Lemma to_datetime_cell_time (c c' : cell) :
  to_datetime_cell L c = Ok c' -> exists t, dt_of_cell c' = Ok t.
Proof.
  destruct c; simpl; try (intros H; injection H as <-; eexists; reflexivity).
  destruct (parse_datetime L s); [|discriminate].
  intros H. injection H as <-. eexists. reflexivity.
Qed.

Lemma time_features_missing (df : DataFrame) (c : column) :
  get_col "timestamp" df = Some c ->
  Forall (fun x => exists t, dt_of_cell x = Ok t) c ->
  get_col "proton_flux" df = None ->
  exists df', create_time_features L df = Ok df'
              /\ get_col "proton_flux" df' = None.
Proof.
  intros Hc Ht Hp. unfold create_time_features, getitem. rewrite Hc.
  cbn [bind]. destruct (mapM_ok dt_of_cell c Ht) as (ts & Hts).
  rewrite Hts. cbn [bind]. eexists. split; [reflexivity|].
  rewrite !get_col_set_floats_other by other_name. exact Hp.
Qed.

Lemma derive_features_missing (df : DataFrame) (c : column) :
  get_col "timestamp" df = Some c ->
  Forall (fun x => exists t, dt_of_cell x = Ok t) c ->
  get_col "proton_flux" df = None ->
  derive_features L fe df = Raise (KeyError "proton_flux").
Proof.
  intros Hc Ht Hp. unfold derive_features.
  destruct (time_features_missing _ _ Hc Ht Hp) as (d1 & -> & H1). cbn [bind].
  rewrite (moving_averages_missing _ H1).
  destruct (moving_avg_windows fe); [|reflexivity]. cbn [bind].
  rewrite (gradients_missing _ H1).
  destruct (gradient_windows fe); [|reflexivity]. cbn [bind].
  rewrite (statistical_missing _ H1).
  destruct (statistical_windows fe); [|reflexivity]. cbn [bind].
  destruct (spectral_missing _ H1) as [->|(d5 & -> & H5)]; [reflexivity|].
  cbn [bind]. rewrite (anomaly_missing _ H5). reflexivity.
Qed.

(** What [engineer_features] does with a table it cannot use.  Without
    a timestamp column it raises KeyError for it and leaves the caller's
    table alone; a timestamp that does not convert raises before
    anything is written.  Without a proton-flux column it raises
    KeyError for that column, whatever windows are configured -- but by
    then the caller's timestamps have been converted in place. *)
Theorem engineer_features_unusable_table (df : DataFrame) :
  (has_col "timestamp" df = false ->
   engineer_features L fe df = (df, Raise (KeyError "timestamp")))
  /\ (forall c e,
         get_col "timestamp" df = Some c ->
         mapM (to_datetime_cell L) c = Raise e ->
         engineer_features L fe df = (df, Raise e))
  /\ (forall c ts,
         get_col "timestamp" df = Some c ->
         mapM (to_datetime_cell L) c = Ok ts ->
         Forall (fun i => i < length ts) (argsort L (map time_key ts)) ->
         has_col "proton_flux" df = false ->
         engineer_features L fe df
         = (set_col "timestamp" ts df, Raise (KeyError "proton_flux"))).
Proof.
  split; [|split].
  - intros H. unfold engineer_features. rewrite H.
    unfold has_col in H.
    destruct (get_col "timestamp" df) eqn:Hc; [discriminate|].
    unfold derive_features, create_time_features, getitem. rewrite Hc.
    reflexivity.
  - intros c e Hc He. unfold engineer_features, has_col, getitem.
    rewrite Hc. cbn [bind]. rewrite He. reflexivity.
  - intros c ts Hc Hts Hperm Hp.
    rewrite (engineer_features_caller L fe df c ts Hc Hts). f_equal.
    set (caller := set_col "timestamp" ts df).
    set (perm := argsort L (map time_key ts)) in *.
    apply (derive_features_missing _ (map (fun i => nth i ts CNaN) perm)).
    + rewrite get_col_take_rows. unfold caller. rewrite get_col_set_col.
      reflexivity.
    + apply Forall_forall. intros x Hx. apply in_map_iff in Hx.
      destruct Hx as (i & <- & Hi).
      rewrite Forall_forall in Hperm. specialize (Hperm i Hi).
      apply mapM_Forall2 in Hts.
      pose proof (Forall2_nth_error _ _ _ Hts i) as Hn.
      destruct (nth_error ts i) as [t|] eqn:Et;
        [|apply nth_error_None in Et; lia].
      destruct (nth_error c i) as [c0|]; [|contradiction].
      rewrite (nth_error_nth _ _ CNaN Et).
      exact (to_datetime_cell_time _ _ Hn).
    + rewrite get_col_take_rows. unfold caller.
      rewrite get_col_set_col_other by other_name.
      unfold has_col in Hp. destruct (get_col "proton_flux" df); [discriminate|].
      reflexivity.
Qed.

End MissingColumn.

Lemma engineer_features_unusable_table_witness :
  engineer_features Sample.lib default_engineer Sample.training
  = (Sample.training, Raise (KeyError "timestamp"))
  /\ engineer_features Sample.lib default_engineer Cases.bad_timestamp
     = (Cases.bad_timestamp, Raise (ValueError "Unknown datetime string format"))
  /\ engineer_features Sample.lib default_engineer Cases.no_flux
     = (set_col "timestamp" [CTime 1704067260000000000; CTime 1704067200000000000]
                Cases.no_flux,
        Raise (KeyError "proton_flux")).
Proof.
  split; [|split].
  - apply (proj1 (engineer_features_unusable_table Sample.lib default_engineer
                    Sample.training)).
    reflexivity.
  - apply (proj1 (proj2 (engineer_features_unusable_table
                           Sample.lib default_engineer Cases.bad_timestamp))
             [CStr "yesterday"; CStr "2024-01-01 00:00:00"]).
    + reflexivity.
    + vm_compute. reflexivity.
  - apply (proj2 (proj2 (engineer_features_unusable_table
                           Sample.lib default_engineer Cases.no_flux))
             [CStr "2024-01-01 00:01:00"; CStr "2024-01-01 00:00:00"]).
    + reflexivity.
    + vm_compute. reflexivity.
    + vm_compute. repeat constructor.
    + reflexivity.
Defined.

(** ** Training data *)

Section PreparationFacts.

Variable L : NumLib.

Lemma mark_nth (labels : list Q) (mask : list bool) (r : list Q) :
  mark labels mask = Ok r ->
  length r = length labels
  /\ forall i y, nth_error r i = Some y ->
       exists y0 b, nth_error labels i = Some y0
                    /\ nth_error mask i = Some b
                    /\ y = (if b then 1%Q else y0).
Proof.
  unfold mark. destruct (length mask =? length labels) eqn:E; [|discriminate].
  apply Nat.eqb_eq in E. intros H. injection H as <-. split.
  - rewrite length_map, length_combine. lia.
  - intros i y Hy. rewrite nth_error_map in Hy.
    destruct (nth_error (combine labels mask) i) as [[y0 b]|] eqn:Hc;
      [|discriminate].
    apply nth_error_combine in Hc. destruct Hc as [H1 H2].
    simpl in Hy. injection Hy as <-. exists y0, b. auto.
Qed.

Lemma in_window_true (cme_time c : cell) :
  in_window cme_time c = Ok true ->
  exists t ns, cme_time = CTime t /\ c = CTime ns
               /\ (t - thirty_minutes <= ns <= t + thirty_minutes)%Z.
Proof.
  destruct c; simpl; try discriminate.
  destruct cme_time; try discriminate.
  intros H. injection H as H. apply andb_true_iff in H. destruct H as [H1 H2].
  apply Z.leb_le in H1, H2. eexists _, _. split; [reflexivity|].
  split; [reflexivity|]. lia.
Qed.

(** What one turn of the loop does to the labels. *)
Lemma label_event_spec (features_df cme_events_df : DataFrame)
      (labels r : list Q) (j : nat) :
  label_event L features_df cme_events_df labels j = Ok r ->
  exists ecol fcol cme_time,
    get_col "timestamp" cme_events_df = Some ecol
    /\ to_datetime_cell L (nth j ecol CNaN) = Ok cme_time
    /\ get_col "timestamp" features_df = Some fcol
    /\ length fcol = length labels
    /\ length r = length labels
    /\ forall i y, nth_error r i = Some y ->
         exists y0 c b,
           nth_error labels i = Some y0
           /\ nth_error fcol i = Some c
           /\ in_window cme_time c = Ok b
           /\ y = (if b then 1%Q else y0).
Proof.
  unfold label_event, getitem.
  destruct (get_col "timestamp" cme_events_df) as [ecol|] eqn:He; [|discriminate].
  cbn [bind].
  destruct (to_datetime_cell L (nth j ecol CNaN)) as [cme_time|] eqn:Ht;
    [|discriminate].
  cbn [bind].
  destruct (get_col "timestamp" features_df) as [fcol|] eqn:Hf; [|discriminate].
  cbn [bind].
  destruct (mapM (in_window cme_time) fcol) as [mask|] eqn:Hmask; [|discriminate].
  cbn [bind]. intros Hmark.
  destruct (mark_nth _ _ _ Hmark) as [Hlen Hnth].
  exists ecol, fcol, cme_time.
  split; [reflexivity|]. split; [exact Ht|]. split; [reflexivity|].
  split.
  { unfold mark in Hmark.
    destruct (length mask =? length labels) eqn:E; [|discriminate].
    apply Nat.eqb_eq in E. rewrite <- E. symmetry.
    exact (mapM_length _ _ _ Hmask). }
  split; [exact Hlen|].
  intros i y Hy. destruct (Hnth i y Hy) as (y0 & b & H0 & Hb & ->).
  apply mapM_Forall2 in Hmask.
  pose proof (Forall2_nth_error _ _ _ Hmask i) as Hw. rewrite Hb in Hw.
  destruct (nth_error fcol i) as [c|]; [|contradiction].
  exists y0, c, b. auto.
Qed.

(** The invariant of the labelling loop, after the events [js]. *)
Lemma label_loop (features_df cme_events_df : DataFrame) (fcol : column) :
  get_col "timestamp" features_df = Some fcol ->
  forall js labels r,
    foldM (label_event L features_df cme_events_df) js labels = Ok r ->
    length r = length labels
    /\ forall i y, nth_error r i = Some y ->
         (y = 1%Q
          /\ exists j ecol t ns,
               In j js
               /\ get_col "timestamp" cme_events_df = Some ecol
               /\ to_datetime_cell L (nth j ecol CNaN) = Ok (CTime t)
               /\ nth_error fcol i = Some (CTime ns)
               /\ (t - thirty_minutes <= ns <= t + thirty_minutes)%Z)
         \/ (nth_error labels i = Some y
             /\ forall j ecol t ns,
                  In j js ->
                  get_col "timestamp" cme_events_df = Some ecol ->
                  to_datetime_cell L (nth j ecol CNaN) = Ok (CTime t) ->
                  nth_error fcol i = Some (CTime ns) ->
                  ~ (t - thirty_minutes <= ns <= t + thirty_minutes)%Z).
Proof.
  intros Hf. induction js as [|j js IH]; intros labels r H; simpl in H.
  - injection H as <-. split; [reflexivity|].
    intros i y Hy. right. split; [exact Hy|]. intros j ecol t ns [].
  - destruct (label_event L features_df cme_events_df labels j) as [l1|] eqn:H1;
      [|discriminate]. cbn [bind] in H.
    destruct (label_event_spec _ _ _ _ _ H1)
      as (ecol & fcol' & cme_time & He & Ht & Hf' & _ & Hlen1 & Hnth1).
    assert (fcol' = fcol) by congruence. subst fcol'.
    destruct (IH _ _ H) as [Hlen Hnth].
    split; [congruence|].
    intros i y Hy.
    destruct (Hnth i y Hy) as [(-> & j' & ecol' & t & ns & Hin & Hrest)
                              |(Hy1 & Hnone)].
    + left. split; [reflexivity|]. exists j', ecol', t, ns.
      split; [right; exact Hin|exact Hrest].
    + destruct (Hnth1 i y Hy1) as (y0 & c & b & Hy0 & Hc & Hw & ->).
      destruct b.
      * left. split; [reflexivity|].
        destruct (in_window_true _ _ Hw) as (t & ns & -> & -> & Hrange).
        exists j, ecol, t, ns. split; [left; reflexivity|]. auto.
      * right. split; [exact Hy0|].
        intros j' ecol' t ns [<-|Hin] He' Ht' Hns.
        -- assert (ecol' = ecol) by congruence. subst ecol'.
           rewrite Ht in Ht'. injection Ht' as ->.
           rewrite Hc in Hns. injection Hns as ->.
           simpl in Hw. injection Hw as Hw.
           apply andb_false_iff in Hw.
           destruct Hw as [Hw|Hw]; apply Z.leb_gt in Hw; lia.
        -- exact (Hnone j' ecol' t ns Hin He' Ht' Hns).
Qed.

Lemma prepare_training_data_inv (self : CMEDetector)
      (particle_df cme_events_df caller features_df : DataFrame)
      (labels : list Q) :
  prepare_training_data L self particle_df cme_events_df
  = (caller, Ok (features_df, labels)) ->
  engineer_features L (feature_engineer self) particle_df
  = (caller, Ok features_df)
  /\ foldM (label_event L features_df cme_events_df)
           (seq 0 (nrows cme_events_df))
           (repeat 0%Q (nrows features_df)) = Ok labels.
Proof.
  unfold prepare_training_data.
  destruct (engineer_features L (feature_engineer self) particle_df) as [c r].
  intros H. injection H as -> H.
  destruct r as [f|]; [|discriminate]. cbn [bind] in H.
  destruct (foldM _ _ _) as [l|] eqn:Hl; [|discriminate]. cbn [bind] in H.
  injection H as <- <-. split; [reflexivity|exact Hl].
Qed.

Lemma repeat_nth_error {A : Type} (x y : A) (n i : nat) :
  nth_error (repeat x n) i = Some y -> y = x.
Proof.
  intros H. apply nth_error_In in H. apply repeat_spec in H. exact H.
Qed.

Lemma prepared_labels (self : CMEDetector)
      (particle_df cme_events_df caller features_df : DataFrame)
      (labels : list Q) :
  prepare_training_data L self particle_df cme_events_df
  = (caller, Ok (features_df, labels)) ->
  engineer_features L (feature_engineer self) particle_df
  = (caller, Ok features_df)
  /\ length labels = nrows features_df
  /\ forallb is_integer labels = true
  /\ forall i y,
       nth_error labels i = Some y ->
       (y = 1%Q /\ near_event L features_df cme_events_df i)
       \/ (y = 0%Q /\ ~ near_event L features_df cme_events_df i).
Proof.
  intros H. destruct (prepare_training_data_inv _ _ _ _ _ _ H) as [Heng Hloop].
  split; [exact Heng|].
  assert (Hrows : forall i y,
             nth_error labels i = Some y ->
             (y = 1%Q /\ near_event L features_df cme_events_df i)
             \/ (y = 0%Q /\ ~ near_event L features_df cme_events_df i)).
  { destruct (get_col "timestamp" features_df) as [fcol|] eqn:Hf.
    - destruct (label_loop _ _ _ Hf _ _ _ Hloop) as [_ Hnth].
      intros i y Hy.
      destruct (Hnth i y Hy) as [(-> & j & ecol & t & ns & Hin & He & Ht & Hns & Hr)
                                |(Hy0 & Hnone)].
      + left. split; [reflexivity|]. exists j, ecol, fcol, t, ns.
        apply in_seq in Hin. repeat split; try assumption; lia.
      + right. split; [exact (repeat_nth_error _ _ _ _ Hy0)|].
        intros (j & ecol & fcol' & t & ns & Hj & He & Ht & Hf' & Hns & Hr).
        assert (fcol' = fcol) by congruence. subst fcol'.
        apply (Hnone j ecol t ns); try assumption.
        apply in_seq. lia.
    - intros i y Hy. right.
      split.
      + destruct (nrows cme_events_df) as [|n]; simpl in Hloop.
        * injection Hloop as <-. exact (repeat_nth_error _ _ _ _ Hy).
        * destruct (label_event L features_df cme_events_df _ 0) as [l1|] eqn:H1;
            [|discriminate].
          destruct (label_event_spec _ _ _ _ _ H1)
            as (ecol & fcol & cme_time & _ & _ & Hf' & _).
          congruence.
      + intros (j & ecol & fcol & t & ns & _ & _ & _ & Hf' & _). congruence. }
  assert (Hlen : length labels = nrows features_df).
  { assert (Hg : forall js l0 r,
               foldM (label_event L features_df cme_events_df) js l0 = Ok r ->
               length r = length l0).
    { induction js as [|j js IH]; intros l0 r Hr; simpl in Hr.
      - injection Hr as <-. reflexivity.
      - destruct (label_event L features_df cme_events_df l0 j) as [l1|] eqn:H1;
          [|discriminate]. cbn [bind] in Hr.
        destruct (label_event_spec _ _ _ _ _ H1)
          as (_ & _ & _ & _ & _ & _ & _ & Hl1 & _).
        rewrite (IH _ _ Hr). exact Hl1. }
    rewrite (Hg _ _ _ Hloop). apply repeat_length. }
  split; [exact Hlen|]. split; [|exact Hrows].
  apply forallb_forall. intros y Hy.
  destruct (In_nth_error _ _ Hy) as (i & Hi).
  destruct (Hrows i y Hi) as [[-> _]|[-> _]]; reflexivity.
Qed.

(** The labels [prepare_training_data] returns: one per row of the
    engineered table, each 0 or 1, and 1 exactly on the rows whose
    timestamp lies within thirty minutes (bounds included) of the
    timestamp of some row of the event table. *)
Theorem prepare_training_data_labels (self : CMEDetector)
        (particle_df cme_events_df caller features_df : DataFrame)
        (labels : list Q) :
  prepare_training_data L self particle_df cme_events_df
  = (caller, Ok (features_df, labels)) ->
  engineer_features L (feature_engineer self) particle_df
  = (caller, Ok features_df)
  /\ length labels = nrows features_df
  /\ forallb is_integer labels = true
  /\ forall i y,
       nth_error labels i = Some y ->
       (y = 1%Q /\ near_event L features_df cme_events_df i)
       \/ (y = 0%Q /\ ~ near_event L features_df cme_events_df i).
Proof.
  exact (prepared_labels self particle_df cme_events_df caller features_df labels).
Qed.

End PreparationFacts.

Lemma prepare_training_data_labels_witness :
  prepare_training_data Sample.lib Sample.untrained Sample.telemetry
                        Catalogue.events
  = (fst (engineer_features Sample.lib default_engineer Sample.telemetry),
     Ok (Cases.engineered, [0; 0; 0; 1; 1]%Q))
  /\ engineer_features Sample.lib (feature_engineer Sample.untrained)
                       Sample.telemetry
     = (fst (engineer_features Sample.lib default_engineer Sample.telemetry),
        Ok Cases.engineered)
  /\ length [0; 0; 0; 1; 1]%Q = nrows Cases.engineered
  /\ forallb is_integer [0; 0; 0; 1; 1]%Q = true
  /\ forall i y,
       nth_error [0; 0; 0; 1; 1]%Q i = Some y ->
       (y = 1%Q /\ near_event Sample.lib Cases.engineered Catalogue.events i)
       \/ (y = 0%Q /\ ~ near_event Sample.lib Cases.engineered Catalogue.events i).
Proof.
  split; [vm_compute; reflexivity|].
  apply (prepare_training_data_labels Sample.lib Sample.untrained Sample.telemetry
           Catalogue.events).
  vm_compute. reflexivity.
Defined.

(** ** Model files *)

Section StoreFacts.

Variable L : NumLib.
Variable E : Estimators.

(** Prediction reads the trained flag, the column list, the Scaler and
    the three models, and nothing else of the detector. *)
Lemma predict_cme_probability_reads (d1 d2 : CMEDetector) (features_df : DataFrame) :
  is_trained d1 = is_trained d2 ->
  feature_columns d1 = feature_columns d2 ->
  scaler d1 = scaler d2 ->
  isolation_forest d1 = isolation_forest d2 ->
  svm d1 = svm d2 ->
  random_forest d1 = random_forest d2 ->
  predict_cme_probability L E d1 features_df
  = predict_cme_probability L E d2 features_df.
Proof.
  intros H1 H2 H3 H4 H5 H6. unfold predict_cme_probability.
  rewrite H1, H2, H3, H4, H5, H6. reflexivity.
Qed.

Lemma apply_threshold_rules_reads (d1 d2 : CMEDetector) (features_df : DataFrame)
      (ml : list Q) :
  thresholds d1 = thresholds d2 ->
  apply_threshold_rules d1 features_df ml = apply_threshold_rules d2 features_df ml.
Proof. intros H. unfold apply_threshold_rules. rewrite H. reflexivity. Qed.

(** A saved detector can be loaded back into any detector: the loaded
    one is trained and predicts exactly as the saved one did.  The
    thresholds are not restored -- the saved configuration is never read
    back -- so the threshold rules of the loaded detector are those of
    the detector it was loaded into.  Other files are not touched. *)
Theorem save_load_round_trip
        (filepath : string) (saved into : CMEDetector) (fs fs' : model_files) :
  save_models filepath saved fs = Ok fs' ->
  (forall p, p <> filepath -> fs' p = fs p)
  /\ exists loaded,
       load_models filepath fs' into = Some loaded
       /\ is_trained loaded = true
       /\ (forall features_df,
              predict_cme_probability L E loaded features_df
              = predict_cme_probability L E saved features_df)
       /\ (forall features_df ml,
              apply_threshold_rules loaded features_df ml
              = apply_threshold_rules into features_df ml)
       /\ feature_engineer loaded = feature_engineer into.
Proof.
  unfold save_models. destruct (is_trained saved) eqn:Htr; [|discriminate].
  cbn [negb]. intros H. injection H as <-. split.
  - intros p Hp. unfold write_file.
    destruct (String.eqb p filepath) eqn:E0; [|reflexivity].
    apply String.eqb_eq in E0. contradiction.
  - unfold load_models, write_file. rewrite String.eqb_refl.
    eexists. split; [reflexivity|]. split; [reflexivity|].
    split; [|split; [|reflexivity]].
    + intros features_df. apply predict_cme_probability_reads;
        try reflexivity. symmetry. exact Htr.
    + intros features_df ml. apply apply_threshold_rules_reads. reflexivity.
Qed.

End StoreFacts.

Lemma save_load_round_trip_witness :
  exists fs',
    save_models "models/cme.joblib" Sample.trained (fun _ => None) = Ok fs'
    /\ (forall p, p <> "models/cme.joblib" -> fs' p = None)
    /\ exists loaded,
         load_models "models/cme.joblib" fs' Sample.untrained = Some loaded
         /\ is_trained loaded = true
         /\ (forall features_df,
                predict_cme_probability Sample.lib Sample.estimators loaded
                                        features_df
                = predict_cme_probability Sample.lib Sample.estimators
                                          Sample.trained features_df)
         /\ (forall features_df ml,
                apply_threshold_rules loaded features_df ml
                = apply_threshold_rules Sample.untrained features_df ml)
         /\ feature_engineer loaded = feature_engineer Sample.untrained.
Proof.
  eexists. split; [reflexivity|].
  apply (save_load_round_trip Sample.lib Sample.estimators "models/cme.joblib"
           Sample.trained Sample.untrained (fun _ => None)).
  reflexivity.
Defined.

(** ** Alerts and the event table *)

(** Which channels an alert uses, read off the event: mail for a halo
    or partial halo with confidence above 0.8; SMS, when a Twilio client
    exists, for a halo with confidence above 0.9 and velocity above
    1000 -- so never without mail; the webhook whenever it is
    configured, whatever the event. *)
Theorem send_cme_alert_channels (am : AlertManager) (event : CMEEvent) :
  (In email (send_cme_alert am event)
   <-> ev_type event <> non_halo /\ (8 # 10 < ev_confidence event)%Q)
  /\ (In sms (send_cme_alert am event)
      <-> twilio_client am = true
          /\ ev_type event = halo
          /\ (9 # 10 < ev_confidence event)%Q
          /\ exists v, ev_velocity event = Some v /\ (1000 < v)%Q)
  /\ (In webhook (send_cme_alert am event) <-> webhook_configured am = true)
  /\ (In sms (send_cme_alert am event) -> In email (send_cme_alert am event)).
Proof.
  assert (Hv : (exists v, ev_velocity event = Some v /\ (1000 < v)%Q)
               <-> fgt (ev_velocity event) (Some 1000%Q) = true).
  { unfold fgt. destruct (ev_velocity event) as [v|].
    - split.
      + intros (v0 & H & H'). injection H as <-. apply Qlt_bool_iff. exact H'.
      + intros H. exists v. split; [reflexivity|]. apply Qlt_bool_iff. exact H.
    - split; [intros (v0 & H & _); discriminate|discriminate]. }
  pose proof (Qlt_bool_iff (9 # 10) (ev_confidence event)) as H9.
  pose proof (Qlt_bool_iff (8 # 10) (ev_confidence event)) as H8.
  assert (H98 : Qlt_bool (9 # 10) (ev_confidence event) = true ->
                Qlt_bool (8 # 10) (ev_confidence event) = true).
  { intros H. apply H8. apply H9 in H. lra. }
  unfold send_cme_alert, _determine_severity.
  rewrite Hv, <- H9, <- H8. clear Hv H9 H8.
  destruct (ev_type event);
    destruct (Qlt_bool (9 # 10) (ev_confidence event));
    destruct (Qlt_bool (8 # 10) (ev_confidence event));
    try (specialize (H98 eq_refl); discriminate H98);
    clear H98;
    destruct (fgt (ev_velocity event) (Some 1000%Q));
    destruct (Qlt_bool (7 # 10) (ev_confidence event));
    destruct (twilio_client am); destruct (webhook_configured am);
    simpl; intuition (discriminate || congruence).
Qed.

Lemma send_cme_alert_channels_witness :
  In email (send_cme_alert Desk.manager Desk.fast_halo)
  /\ In sms (send_cme_alert Desk.manager Desk.fast_halo)
  /\ ~ In webhook (send_cme_alert Desk.manager Desk.fast_halo).
Proof.
  destruct (send_cme_alert_channels Desk.manager Desk.fast_halo)
    as (He & Hs & Hw & _).
  split; [|split].
  - apply He. split; [discriminate|reflexivity].
  - apply Hs. split; [reflexivity|]. split; [reflexivity|].
    split; [reflexivity|]. exists 1200%Q. split; reflexivity.
  - intros H. apply Hw in H. discriminate H.
Defined.

Lemma existsb_id_In (rows : list CMEEvent) (id : string) :
  existsb (fun row => String.eqb (ev_id row) id) rows = true
  <-> In id (map ev_id rows).
Proof.
  rewrite existsb_exists, in_map_iff. split.
  - intros (x & Hx & He). apply String.eqb_eq in He. exists x. auto.
  - intros (x & He & Hx). exists x. split; [exact Hx|].
    apply String.eqb_eq. exact He.
Qed.

Lemma process_detected_event_cases (am : AlertManager) (event : CMEEvent)
      (b b' : backend) :
  process_detected_event am event b = Ok b' ->
  (In (ev_id event) (map ev_id (cme_events b)) /\ b' = b)
  \/ (~ In (ev_id event) (map ev_id (cme_events b))
      /\ cme_events b' = cme_events b ++ [event]
      /\ alerts b'
         = if Qlt_bool (8 # 10) (ev_confidence event)
           then alerts b ++ [(event, send_cme_alert am event)]
           else alerts b).
Proof.
  unfold process_detected_event.
  destruct (existsb _ (cme_events b)) eqn:Hex.
  - intros H. injection H as <-. left. split; [|reflexivity].
    apply existsb_id_In. exact Hex.
  - assert (Hnot : ~ In (ev_id event) (map ev_id (cme_events b))).
    { intros Hin. apply existsb_id_In in Hin. congruence. }
    destruct (negb (valid_source _)); [discriminate|].
    destruct (negb (valid_status _)); [discriminate|].
    destruct (Qlt_bool (8 # 10) (ev_confidence event));
      intros H; injection H as <-; right; simpl; auto.
Qed.

(** The event table never holds two rows with the same identifier, and
    rows are only ever appended: a call that returns has left the event
    stored, whether by this call or an earlier one, and repeating it
    changes nothing -- neither the table nor the alerts sent. *)
Theorem process_detected_event_store (am : AlertManager) (event : CMEEvent)
        (b b' : backend) :
  process_detected_event am event b = Ok b' ->
  (NoDup (map ev_id (cme_events b)) -> NoDup (map ev_id (cme_events b')))
  /\ (exists new, cme_events b' = cme_events b ++ new)
  /\ In (ev_id event) (map ev_id (cme_events b'))
  /\ process_detected_event am event b' = Ok b'.
Proof.
  intros H.
  assert (Hin : In (ev_id event) (map ev_id (cme_events b'))).
  { destruct (process_detected_event_cases _ _ _ _ H)
      as [[Hin ->]|(_ & Hrows & _)]; [exact Hin|].
    rewrite Hrows, map_app. apply in_or_app. right. left. reflexivity. }
  split; [|split; [|split; [exact Hin|]]].
  - intros Hnd.
    destruct (process_detected_event_cases _ _ _ _ H)
      as [[_ ->]|(Hnot & Hrows & _)]; [exact Hnd|].
    rewrite Hrows, map_app. simpl.
    apply NoDup_app; [exact Hnd|repeat constructor; intros []|].
    intros x Hx [<-|[]]. contradiction.
  - destruct (process_detected_event_cases _ _ _ _ H)
      as [[_ ->]|(_ & Hrows & _)].
    + exists []. symmetry. apply app_nil_r.
    + exists [event]. exact Hrows.
  - unfold process_detected_event.
    apply existsb_id_In in Hin. rewrite Hin. reflexivity.
Qed.

Section FallbackAlerts.

Variable L : NumLib.
Variable G : Rng.

Lemma create_events_tags (features_df : DataFrame) (scores : list Q)
      (groups : list (list nat)) :
  forall s s' es,
    create_events L G features_df scores groups s = (s', Ok es) ->
    Forall (fun e => ev_source e = "swis" /\ ev_status e = "detected") es.
Proof.
  induction groups as [|g groups IH]; intros s s' es H; simpl in H.
  - unfold ret in H. injection H as _ <-. constructor.
  - unfold mbind in H.
    destruct (_create_cme_event L G features_df scores g s) as [s1 [e|]] eqn:He;
      [|discriminate].
    destruct (create_events L G features_df scores groups s1) as [s2 [es'|]] eqn:Hes;
      [|discriminate].
    unfold ret in H. injection H as _ <-.
    constructor; [|eapply IH; exact Hes].
    destruct (create_cme_event_inv _ _ _ _ _ _ _ _ He)
      as (peak & _ & _ & _ & _ & _ & _ & _ & Hsrc & Hst & _).
    auto.
Qed.

Lemma extract_events_tags (features_df : DataFrame) (scores : list Q)
      (mask : list bool) (s s' : nat) (es : list CMEEvent) :
  extract_events L G features_df scores mask s = (s', Ok es) ->
  Forall (fun e => ev_source e = "swis" /\ ev_status e = "detected") es.
Proof.
  unfold extract_events. destruct (existsb (fun b => b) mask).
  - apply create_events_tags.
  - unfold ret. intros H. injection H as _ <-. constructor.
Qed.




End FallbackAlerts.

Lemma process_detected_event_store_witness :
  exists b',
    process_detected_event Desk.manager Desk.fast_halo Desk.empty = Ok b'
    /\ (NoDup (map ev_id (cme_events Desk.empty)) ->
        NoDup (map ev_id (cme_events b')))
    /\ (exists new, cme_events b' = cme_events Desk.empty ++ new)
    /\ In (ev_id Desk.fast_halo) (map ev_id (cme_events b'))
    /\ process_detected_event Desk.manager Desk.fast_halo b' = Ok b'.
Proof.
  eexists. split; [vm_compute; reflexivity|].
  apply (process_detected_event_store Desk.manager Desk.fast_halo Desk.empty).
  vm_compute. reflexivity.
Defined.


(** ** Configuration *)

Lemma split_dots_nonempty (key : string) : split_dots key <> [].
Proof.
  destruct key as [|c rest]; simpl; [discriminate|].
  destruct (Ascii.eqb c "."); [discriminate|].
  destruct (split_dots rest); discriminate.
Qed.

Lemma split_dots_dotless (k : string) :
  dotless k = true -> split_dots k = [k].
Proof.
  induction k as [|c k IH]; simpl; [reflexivity|].
  destruct (Ascii.eqb c "."); simpl; [discriminate|].
  intros H. rewrite (IH H). reflexivity.
Qed.

Lemma split_dots_path (k rest : string) :
  dotless k = true ->
  split_dots (k ++ "." ++ rest) = k :: split_dots rest.
Proof.
  induction k as [|c k IH]; simpl; [reflexivity|].
  destruct (Ascii.eqb c "."); simpl; [discriminate|].
  intros H. specialize (IH H). simpl in IH. rewrite IH. reflexivity.
Qed.

(** [Config.get] follows a dotted key one mapping at a time: the key
    [k.rest] is [rest] looked up in what [k] names, and the default as
    soon as a step does not lead into a mapping that has the key. *)
Theorem config_get_path (_config : yaml) (k rest : string) (default : yaml) :
  dotless k = true ->
  config_get _config (k ++ "." ++ rest) default
  = match _config with
    | YDict d =>
        match lookup k d with
        | Some v => config_get v rest default
        | None => default
        end
    | _ => default
    end.
Proof.
  intros Hk. unfold config_get. rewrite (split_dots_path _ _ Hk). simpl.
  destruct _config; try reflexivity.
  destruct (lookup k d); reflexivity.
Qed.

Lemma lookup_none_dotted (key : string) (d : list (string * yaml)) :
  dotless key = false ->
  Forall (fun kv => dotless (fst kv) = true) d ->
  lookup key d = None.
Proof.
  intros Hkey H. induction H as [|[k v] d Hk _ IH]; simpl; [reflexivity|].
  destruct (String.eqb k key) eqn:E; [|exact IH].
  apply String.eqb_eq in E. subst k. simpl in Hk. congruence.
Qed.

Lemma windows_of_yaml_windows (l : list nat) :
  windows_of (yaml_windows l) = Some l.
Proof.
  unfold windows_of, yaml_windows.
  induction l as [|w l IH]; simpl; [reflexivity|].
  rewrite IH. unfold is_integer. simpl.
  rewrite Z.mod_1_r. simpl.
  replace (0 <=? Z.of_nat w)%Z with true by (symmetry; apply Z.leb_le; lia).
  rewrite Z.div_1_r, Nat2Z.id. reflexivity.
Qed.

(** The feature engineer never sees windows configured the way
    [Config.get] would find them: it looks its dotted keys up in the
    top-level mapping as they stand, so for a document whose top-level
    keys have no dot it always takes the default windows. *)
Theorem feature_engineer_windows_default (entries : list (string * yaml)) :
  Forall (fun kv => dotless (fst kv) = true) entries ->
  FeatureEngineer_init (YDict entries) = Ok (Some default_engineer).
Proof.
  intros H. unfold FeatureEngineer_init, dict_get.
  rewrite (lookup_none_dotted "detection.features.moving_average_windows"
             _ eq_refl H).
  rewrite (lookup_none_dotted "detection.features.gradient_windows" _ eq_refl H).
  rewrite (lookup_none_dotted "detection.features.statistical_windows"
             _ eq_refl H).
  cbn [bind].
  rewrite !windows_of_yaml_windows. reflexivity.
Qed.

Lemma config_get_path_witness :
  config_get Settings.document
             ("detection" ++ "." ++ "features.moving_average_windows") YNull
  = YList [YNum 2; YNum 4].
Proof.
  rewrite (config_get_path Settings.document "detection"
             "features.moving_average_windows" YNull eq_refl).
  vm_compute. reflexivity.
Defined.

Lemma feature_engineer_windows_default_witness :
  FeatureEngineer_init Settings.document = Ok (Some default_engineer).
Proof.
  apply (feature_engineer_windows_default
           [ ("detection",
              YDict [ ("thresholds", YDict [("velocity_threshold", YNum 450)]);
                      ("features",
                       YDict [("moving_average_windows",
                               YList [YNum 2; YNum 4])]) ]) ]).
  repeat constructor.
Defined.

(** ** Time features *)

Lemma time_delta_numbers (ts : list (option Z)) :
  forall prev, Forall is_number (map cell_of_float (time_delta_from prev ts)).
Proof.
  induction ts as [|t ts IH]; intros prev; simpl; constructor; [|apply IH].
  destruct prev, t; exact I.
Qed.

(** The columns [create_time_features] adds: the hour is missing or an
    integer from 0 to 23; the time since the last measurement is never
    missing, and 0 in the first row. *)
Theorem create_time_features_ranges (L : NumLib) (df df' : DataFrame) :
  create_time_features L df = Ok df' ->
  exists hours deltas,
    get_col "hour" df' = Some hours
    /\ get_col "time_delta" df' = Some deltas
    /\ Forall (fun c => c = CNaN
                        \/ exists h, c = CNum (inject_Z h) /\ (0 <= h <= 23)%Z)
              hours
    /\ Forall is_number deltas
    /\ (deltas = [] \/ hd_error deltas = Some (CNum 0)).
Proof.
  unfold create_time_features, getitem.
  destruct (get_col "timestamp" df) as [c|]; [|discriminate]. cbn [bind].
  destruct (mapM dt_of_cell c) as [ts|]; [|discriminate]. cbn [bind].
  intros H. injection H as <-.
  exists (map cell_of_float (map dt_hour ts)),
         (map cell_of_float (time_delta_from None ts)).
  split.
  { rewrite !get_col_set_floats_other by other_name.
    unfold set_floats. apply get_col_set_col. }
  split; [unfold set_floats at 1; apply get_col_set_col|].
  split.
  { rewrite map_map. apply Forall_forall. intros x Hx.
    apply in_map_iff in Hx. destruct Hx as ([ns|] & <- & _); simpl.
    - right. eexists. split; [reflexivity|].
      pose proof (Z.mod_pos_bound (ns / ns_per_hour) 24 eq_refl). lia.
    - left. reflexivity. }
  split; [apply time_delta_numbers|].
  destruct ts as [|t ts]; [left; reflexivity|right; reflexivity].
Qed.

Lemma create_time_features_ranges_witness :
  exists hours deltas,
    get_col "hour" Cases.time_features = Some hours
    /\ get_col "time_delta" Cases.time_features = Some deltas
    /\ Forall (fun c => c = CNaN
                        \/ exists h, c = CNum (inject_Z h) /\ (0 <= h <= 23)%Z)
              hours
    /\ Forall is_number deltas
    /\ (deltas = [] \/ hd_error deltas = Some (CNum 0)).
Proof.
  apply (create_time_features_ranges Sample.lib Sample.features).
  vm_compute. reflexivity.
Defined.
